(** * Exchange-rate resolution and provider fallback

    A shallow embedding of the rate store managers
    ([currencies/managers.py]), the provider orchestrator
    ([currencies/services/provider_manager.py]), the exchange-rate service
    ([currencies/services/exchange_rate.py]) and the mock adapter
    ([external/api_clients/adapters/mock.py]), together with the part of
    Python's [decimal] arithmetic those functions rely on. *)

From Stdlib Require Import ZArith List String Ascii Lia Bool DecimalString Permutation Sorted.
From stdpp Require Import gmap strings list.

Open Scope Z_scope.

(** ** Python's [decimal] module

    Finite decimals are triples (sign, coefficient, exponent) as in
    [_pydecimal.Decimal] ([_sign], [_int], [_exp]); the coefficient is kept as
    a non-negative integer instead of a digit string, and the digit-string
    operations ([len], slicing, [_all_zeros], [_exact_half]) are written with
    [/] and [mod] by powers of ten. *)
Module Decimal.

Inductive Rounding := ROUND_HALF_EVEN | ROUND_HALF_UP | ROUND_DOWN.

Record Context := mkContext
  { prec : Z; rounding : Rounding; Emin : Z; Emax : Z }.

(** The context every thread starts with; nothing in the repository
    changes it. *)
Definition DefaultContext : Context :=
  {| prec := 28; rounding := ROUND_HALF_EVEN;
     Emin := -999999; Emax := 999999 |}.

Definition Etiny (ctx : Context) : Z := Emin ctx - prec ctx + 1.
Definition Etop (ctx : Context) : Z := Emax ctx - prec ctx + 1.

Record t := mk { sign : bool; coeff : Z; exp : Z }.

(** The signals that are trapped (raised as exceptions) by the default
    context. *)
Inductive signal := InvalidOperation | DivisionByZero | Overflow.

Inductive trapped (A : Type) := Value (a : A) | Trap (s : signal).
Arguments Value {A} a.
Arguments Trap {A} s.

(** [len(str(c))] for a non-negative integer [c]. *)
Fixpoint ndigits_aux (fuel : nat) (c : Z) : Z :=
  match fuel with
  | O => 1
  | S fuel' => if c <? 10 then 1 else 1 + ndigits_aux fuel' (c / 10)
  end.

Definition ndigits (c : Z) : Z := ndigits_aux (Z.to_nat (Z.log2 c)) c.

(** [self.adjusted()] *)
Definition adjusted (d : t) : Z := exp d + ndigits (coeff d) - 1.

(** [_all_zeros(self._int, i)], [_exact_half(self._int, i)] and the digit
    [self._int[i]] of a coefficient [c] of [nd] digits. *)
Definition all_zeros (c nd i : Z) : bool := c mod 10 ^ (nd - i) =? 0.
Definition exact_half (c nd i : Z) : bool :=
  c mod 10 ^ (nd - i) =? 5 * 10 ^ (nd - i - 1).
Definition digit_at (c nd i : Z) : Z := (c / 10 ^ (nd - i - 1)) mod 10.

(** [self._int[:i] or '0'] read as an integer. *)
Definition leading (c nd i : Z) : Z := c / 10 ^ (nd - i).

Definition _round_down (c nd i : Z) : Z :=
  if all_zeros c nd i then 0 else -1.

Definition _round_half_up (c nd i : Z) : Z :=
  if 5 <=? digit_at c nd i then 1
  else if all_zeros c nd i then 0 else -1.

Definition _round_half_even (c nd i : Z) : Z :=
  if exact_half c nd i && ((i =? 0) || Z.even (digit_at c nd (i - 1)))
  then -1
  else _round_half_up c nd i.

Definition _pick_rounding_function (r : Rounding) : Z -> Z -> Z -> Z :=
  match r with
  | ROUND_HALF_EVEN => _round_half_even
  | ROUND_HALF_UP => _round_half_up
  | ROUND_DOWN => _round_down
  end.

(** [Decimal._fix]: round to the context's precision and exponent range
    ([clamp] is 0). *)
Definition _fix (ctx : Context) (d : t) : trapped t :=
  if coeff d =? 0 then
    let new_exp := Z.min (Z.max (exp d) (Etiny ctx)) (Emax ctx) in
    Value (mk (sign d) 0 new_exp)
  else
    let exp_min := ndigits (coeff d) + exp d - prec ctx in
    if Etop ctx <? exp_min then Trap Overflow
    else
      let exp_min := if exp_min <? Etiny ctx then Etiny ctx else exp_min in
      if exp d <? exp_min then
        let digits := ndigits (coeff d) + exp d - exp_min in
        let '(c, digits) :=
          if digits <? 0 then (1, 0) else (coeff d, digits) in
        let changed :=
          _pick_rounding_function (rounding ctx) c (ndigits c) digits in
        let coeff := leading c (ndigits c) digits in
        let '(coeff, exp_min) :=
          if 0 <? changed then
            if prec ctx <? ndigits (coeff + 1)
            then ((coeff + 1) / 10, exp_min + 1)
            else (coeff + 1, exp_min)
          else (coeff, exp_min) in
        if Etop ctx <? exp_min then Trap Overflow
        else Value (mk (sign d) coeff exp_min)
      else Value d.

(** [Decimal.__mul__] *)
Definition mul (ctx : Context) (a b : t) : trapped t :=
  let resultsign := xorb (sign a) (sign b) in
  let resultexp := exp a + exp b in
  if (coeff a =? 0) || (coeff b =? 0) then
    _fix ctx (mk resultsign 0 resultexp)
  else _fix ctx (mk resultsign (coeff a * coeff b) resultexp).

(** The loop of [__truediv__] that brings an exact quotient as close to
    the ideal exponent as its trailing zeros allow. *)
Fixpoint strip_zeros (fuel : nat) (coeff exp ideal_exp : Z) : Z * Z :=
  match fuel with
  | O => (coeff, exp)
  | S fuel' =>
      if (exp <? ideal_exp) && (coeff mod 10 =? 0)
      then strip_zeros fuel' (coeff / 10) (exp + 1) ideal_exp
      else (coeff, exp)
  end.

(** [Decimal.__truediv__] *)
Definition truediv (ctx : Context) (a b : t) : trapped t :=
  let sign := xorb (sign a) (sign b) in
  if coeff b =? 0 then
    if coeff a =? 0 then Trap InvalidOperation else Trap DivisionByZero
  else if coeff a =? 0 then
    _fix ctx (mk sign 0 (exp a - exp b))
  else
    let shift := ndigits (coeff b) - ndigits (coeff a) + prec ctx + 1 in
    let exp0 := exp a - exp b - shift in
    let '(q, remainder) :=
      if 0 <=? shift
      then (coeff a * 10 ^ shift / coeff b, (coeff a * 10 ^ shift) mod coeff b)
      else (coeff a / (coeff b * 10 ^ (- shift)),
            coeff a mod (coeff b * 10 ^ (- shift))) in
    let '(q, exp1) :=
      if remainder =? 0
      then strip_zeros (Z.to_nat (exp a - exp b - exp0)) q exp0 (exp a - exp b)
      else (if q mod 5 =? 0 then q + 1 else q, exp0) in
    _fix ctx (mk sign q exp1).

(** [Decimal._rescale] *)
Definition _rescale (d : t) (e : Z) (r : Rounding) : t :=
  if coeff d =? 0 then mk (sign d) 0 e
  else if e <=? exp d then mk (sign d) (coeff d * 10 ^ (exp d - e)) e
  else
    let digits := ndigits (coeff d) + exp d - e in
    let '(c, digits) :=
      if digits <? 0 then (1, 0) else (coeff d, digits) in
    let changed := _pick_rounding_function r c (ndigits c) digits in
    let coeff := leading c (ndigits c) digits in
    mk (sign d) (if changed =? 1 then coeff + 1 else coeff) e.

(** [Decimal.quantize(exp, rounding=r)]; [r] is the context's rounding when
    the caller passes none. *)
Definition quantize (ctx : Context) (d e : t) (r : option Rounding)
  : trapped t :=
  let r := match r with Some r => r | None => rounding ctx end in
  if negb ((Etiny ctx <=? exp e) && (exp e <=? Emax ctx)) then
    Trap InvalidOperation
  else if coeff d =? 0 then _fix ctx (mk (sign d) 0 (exp e))
  else if Emax ctx <? adjusted d then Trap InvalidOperation
  else if prec ctx <? adjusted d - exp e + 1 then Trap InvalidOperation
  else
    let ans := _rescale d (exp e) r in
    if Emax ctx <? adjusted ans then Trap InvalidOperation
    else if prec ctx <? ndigits (coeff ans) then Trap InvalidOperation
    else _fix ctx ans.

(** [self > 0] for a finite decimal. *)
Definition is_positive (d : t) : bool := negb (sign d) && (0 <? coeff d).

(** The decimals written ["1"] and ["0.000001"]. *)
Definition one : t := mk false 1 0.
Definition micro : t := mk false 1 (-6).

End Decimal.

(** ** Python values shared by the modules below *)

(** A [datetime.date], as its proleptic ordinal. *)
Definition date := Z.

(** [str.upper] on ASCII text; the currency codes and provider names of the
    model are ASCII strings. *)
Definition upper_ascii (c : ascii) : ascii :=
  let n := nat_of_ascii c in
  if (97 <=? n)%nat && (n <=? 122)%nat then ascii_of_nat (n - 32) else c.

Fixpoint upper (s : string) : string :=
  match s with
  | EmptyString => EmptyString
  | String c s' => String (upper_ascii c) (upper s')
  end.

(** An f-string is kept as the sequence of its literal pieces and
    interpolated values, in order. *)
Inductive Frag :=
| Lit (s : string)
| FStr (s : string)
| FInt (n : Z)
| FDate (d : date)
| FDecimal (d : Decimal.t)
| FList (l : list string).

Definition Message := list Frag.

(** The two Django models whose lookups can fail. *)
Inductive ModelName := CurrencyModel | ProviderModel | RateModel.

(** Exceptions; every class below derives from [Exception]. *)
Inductive exn :=
| APIClientError (msg : Message)
| ValueError (msg : Message)
| ValidationError (msg : Message)
| DoesNotExist (model : ModelName)
| MultipleObjectsReturned (model : ModelName)
| IntegrityError
| DecimalException (s : Decimal.signal)
| AllProvidersFailedError (msg : Message) (errors : list (string * Message))
| OtherException (msg : Message).

(** [str(e)] *)
Definition model_str (m : ModelName) : string :=
  match m with
  | CurrencyModel => "Currency"
  | ProviderModel => "Provider"
  | RateModel => "CurrencyExchangeRate"
  end.

Definition signal_str (s : Decimal.signal) : string :=
  match s with
  | Decimal.InvalidOperation => "[<class 'decimal.InvalidOperation'>]"
  | Decimal.DivisionByZero => "[<class 'decimal.DivisionByZero'>]"
  | Decimal.Overflow => "[<class 'decimal.Overflow'>]"
  end.

Definition str_exn (e : exn) : Message :=
  match e with
  | APIClientError msg => msg
  | ValueError msg => msg
  | ValidationError msg => msg
  | DoesNotExist m => [FStr (model_str m); Lit " matching query does not exist."]
  | MultipleObjectsReturned m =>
      [Lit "get() returned more than one "; FStr (model_str m)]
  | IntegrityError => [Lit "UNIQUE constraint failed"]
  | DecimalException s => [Lit (signal_str s)]
  | AllProvidersFailedError msg _ => msg
  | OtherException msg => msg
  end.

(** [isinstance(e, APIClientError)] *)
Definition is_APIClientError (e : exn) : bool :=
  match e with APIClientError _ => true | _ => false end.

(** The result of a call: a value or a raised exception. *)
Inductive Result (A : Type) := Ok (a : A) | Raise (e : exn).
Arguments Ok {A} a.
Arguments Raise {A} e.

Definition of_trapped {A : Type} (r : Decimal.trapped A) : Result A :=
  match r with
  | Decimal.Value a => Ok a
  | Decimal.Trap s => Raise (DecimalException s)
  end.

(** A [dict[str, V]]: insertion-ordered; assigning to a key that is present
    replaces its value and keeps its position. *)
Fixpoint dict_set {V : Type} (d : list (string * V)) (k : string) (v : V)
  : list (string * V) :=
  match d with
  | [] => [(k, v)]
  | (k', v') :: d' =>
      if String.eqb k' k then (k, v) :: d' else (k', v') :: dict_set d' k v
  end.

(** ** [random.uniform] and the ['.6f'] format

    The generator is represented by the values its next calls return:
    [random.random()] yields [k / 2^53] for a 53-bit integer [k]. A float is
    kept as an exact dyadic fraction [num / 2^scale]. *)
Module PyRandom.

Record RandomState := mkState { draws : nat -> Z; position : nat }.

Record float := mkFloat { num : Z; scale : Z }.

(** Round-half-even division of [n] by [2^d]. *)
Definition rne_shift (n d : Z) : Z :=
  let q := n / 2 ^ d in
  let r := n mod 2 ^ d in
  if (2 ^ d <? 2 * r) || ((2 * r =? 2 ^ d) && Z.odd q) then q + 1 else q.

(** Rounding an exact positive dyadic fraction to the nearest binary64
    (53 significant bits, ties to even). *)
Definition to_binary64 (n s : Z) : float :=
  let bits := Z.log2 n + 1 in
  if bits <=? 53 then mkFloat n s
  else mkFloat (rne_shift n (bits - 53)) (s - (bits - 53)).

(** [self.random()] *)
Definition random (st : RandomState) : float * RandomState :=
  (mkFloat (draws st (position st) mod 2 ^ 53) 53,
   mkState (draws st) (S (position st))).

(** [a + (b - a) * self.random()] at [a = 0.5], [b = 1.5]: [b - a] is
    [1.0], the product is the draw itself, and the sum is rounded once. *)
Definition uniform_half_to_one_and_half (st : RandomState)
  : float * RandomState :=
  let '(r, st') := random st in
  (to_binary64 (2 ^ (scale r - 1) + num r) (scale r), st').

(** [Decimal(f"{x:.6f}")]: the float's exact value rounded half-even to six
    fractional digits. *)
Definition format_6f (x : float) : Decimal.t :=
  let n := num x * 10 ^ 6 in
  let q := n / 2 ^ scale x in
  let r := n mod 2 ^ scale x in
  let c :=
    if (2 ^ scale x <? 2 * r) || ((2 * r =? 2 ^ scale x) && Z.odd q)
    then q + 1 else q in
  Decimal.mk false c (-6).

End PyRandom.

(** ** The models ([currencies/models.py])

    A related object is kept in the row that refers to it, as on a Django
    instance ([rate.exchanged_currency.code]). [Currency.code] and
    [Provider.name] are unique columns and identify their rows. *)
Module Currency.
Record t := mk
  { code : string; name : string; symbol : string; is_active : bool }.
End Currency.

Module Provider.
Record t := mk
  { id : Z; name : string; display_name : string; api_key : string;
    api_url : string; priority : Z; is_active : bool;
    timeout_seconds : Z }.
End Provider.

Module CurrencyExchangeRate.
Record t := mk
  { source_currency : Currency.t; exchanged_currency : Currency.t;
    provider : Provider.t; valuation_date : date;
    rate_value : Decimal.t }.
End CurrencyExchangeRate.

(** The tables, each in the order in which the backend scans its rows. *)
Record DB := mkDB
  { currencies : list Currency.t;
    providers : list Provider.t;
    rates : list CurrencyExchangeRate.t }.

(** [QuerySet.first()] and [QuerySet.get()] on the rows a filter selected. *)
Definition first {A : Type} (qs : list A) : option A := head qs.

Definition qs_get {A : Type} (model : ModelName) (qs : list A) : Result A :=
  match qs with
  | [] => Raise (DoesNotExist model)
  | [x] => Ok x
  | _ :: _ :: _ => Raise (MultipleObjectsReturned model)
  end.

(** ** The managers ([currencies/managers.py]) *)
Module CurrencyManager.

Definition get_by_code (db : DB) (code : string) : Result Currency.t :=
  qs_get CurrencyModel
    (List.filter (fun c => String.eqb (Currency.code c) (upper code))
       (currencies db)).

End CurrencyManager.

Module CurrencyExchangeRateManager.

Definition BASE_CURRENCY_CODE : string := "USD".

(** [self.filter(source_currency__code=s, exchanged_currency__code=t,
    valuation_date=d)] *)
Definition matches (s t : string) (d : date) (r : CurrencyExchangeRate.t)
  : bool :=
  String.eqb (Currency.code (CurrencyExchangeRate.source_currency r)) s
  && String.eqb (Currency.code (CurrencyExchangeRate.exchanged_currency r)) t
  && (CurrencyExchangeRate.valuation_date r =? d).

Definition filter_pair (db : DB) (s t : string) (d : date)
  : list CurrencyExchangeRate.t :=
  List.filter (matches s t d) (rates db).

Definition reciprocal (r : CurrencyExchangeRate.t) : Result (option Decimal.t) :=
  match
    Decimal.truediv Decimal.DefaultContext Decimal.one
      (CurrencyExchangeRate.rate_value r)
  with
  | Decimal.Value q => Ok (Some q)
  | Decimal.Trap s => Raise (DecimalException s)
  end.

Definition _calculate_cross_rate (db : DB)
    (source_currency exchanged_currency : string) (valuation_date : date)
  : Result (option Decimal.t) :=
  let base := BASE_CURRENCY_CODE in
  if String.eqb source_currency base then
    match first (filter_pair db base exchanged_currency valuation_date) with
    | Some rate => Ok (Some (CurrencyExchangeRate.rate_value rate))
    | None => Ok None
    end
  else if String.eqb exchanged_currency base then
    match first (filter_pair db base source_currency valuation_date) with
    | Some rate => reciprocal rate
    | None => Ok None
    end
  else
    let source_to_base :=
      first (filter_pair db base source_currency valuation_date) in
    let target_to_base :=
      first (filter_pair db base exchanged_currency valuation_date) in
    match source_to_base, target_to_base with
    | Some s2b, Some t2b =>
        match
          Decimal.truediv Decimal.DefaultContext
            (CurrencyExchangeRate.rate_value t2b)
            (CurrencyExchangeRate.rate_value s2b)
        with
        | Decimal.Value q => Ok (Some q)
        | Decimal.Trap s => Raise (DecimalException s)
        end
    | _, _ => Ok None
    end.

Definition get_rate (db : DB)
    (source_currency exchanged_currency : string) (valuation_date : date)
  : Result (option Decimal.t) :=
  if String.eqb source_currency exchanged_currency then
    Ok (Some Decimal.one)
  else
    match
      first (filter_pair db source_currency exchanged_currency valuation_date)
    with
    | Some direct_rate => Ok (Some (CurrencyExchangeRate.rate_value direct_rate))
    | None =>
        match
          first (filter_pair db exchanged_currency source_currency
                   valuation_date)
        with
        | Some inverse_rate => reciprocal inverse_rate
        | None =>
            _calculate_cross_rate db source_currency exchanged_currency
              valuation_date
        end
    end.

(** The lookup of [get_or_create]: the three key fields, compared on the
    referenced rows. *)
Definition same_key (s t : Currency.t) (d : date)
    (r : CurrencyExchangeRate.t) : bool :=
  String.eqb (Currency.code (CurrencyExchangeRate.source_currency r))
    (Currency.code s)
  && String.eqb (Currency.code (CurrencyExchangeRate.exchanged_currency r))
       (Currency.code t)
  && (CurrencyExchangeRate.valuation_date r =? d).

(** How a [DecimalField(max_digits, decimal_places)] is written to its
    column, Django's [utils.format_number]:
    [value.quantize(Decimal(1).scaleb(-decimal_places), context=context)]
    under a copy of the current context with [prec = max_digits]. The value
    is rounded (half-even, the context's rounding) to [decimal_places]
    fractional digits; one that would then need more than [max_digits]
    digits raises [decimal.InvalidOperation]. *)
Definition format_number (value : Decimal.t) (max_digits decimal_places : Z)
  : Decimal.trapped Decimal.t :=
  let context :=
    Decimal.mkContext max_digits (Decimal.rounding Decimal.DefaultContext)
      (Decimal.Emin Decimal.DefaultContext)
      (Decimal.Emax Decimal.DefaultContext) in
  Decimal.quantize context value (Decimal.mk false 1 (- decimal_places)) None.

(** [rate_value = models.DecimalField(max_digits=18, decimal_places=6)] *)
Definition rate_value_max_digits : Z := 18.
Definition rate_value_decimal_places : Z := 6.

(** [INSERT] of the row [r]. The statement is compiled first, which adapts
    [rate_value] to its column and raises [decimal.InvalidOperation] for a
    value that does not fit; the database then checks the constraint
    [unique_exchange_rate_per_day]. The row that is written holds the
    adapted value. *)
Definition create (rows : list CurrencyExchangeRate.t)
    (r : CurrencyExchangeRate.t) : Result (list CurrencyExchangeRate.t) :=
  match format_number (CurrencyExchangeRate.rate_value r)
          rate_value_max_digits rate_value_decimal_places with
  | Decimal.Trap s => Raise (DecimalException s)
  | Decimal.Value v =>
      if existsb
           (same_key (CurrencyExchangeRate.source_currency r)
              (CurrencyExchangeRate.exchanged_currency r)
              (CurrencyExchangeRate.valuation_date r)) rows
      then Raise IntegrityError
      else
        Ok (rows
              ++ [CurrencyExchangeRate.mk
                    (CurrencyExchangeRate.source_currency r)
                    (CurrencyExchangeRate.exchanged_currency r)
                    (CurrencyExchangeRate.provider r)
                    (CurrencyExchangeRate.valuation_date r) v])
  end.

(** Django's [QuerySet.get_or_create]: [get]; on [DoesNotExist], [create]
    in a savepoint; on [IntegrityError], [get] again and re-raise if the
    row is still missing; any other exception of [create] is not caught.
    [racing] are the rows that other transactions commit between this
    call's [SELECT] and its [INSERT]. After a successful [create] the
    object that is returned is the one that was built from the arguments:
    it keeps [rate_value] as given, while the row of the table holds the
    value adapted to the column. *)
Definition get_or_create (db : DB) (racing : list CurrencyExchangeRate.t)
    (s t : Currency.t) (d : date) (rate_value : Decimal.t)
    (provider : Provider.t)
  : Result (CurrencyExchangeRate.t * bool) * DB :=
  match qs_get RateModel (List.filter (same_key s t d) (rates db)) with
  | Ok obj => (Ok (obj, false), db)
  | Raise (DoesNotExist _) =>
      let rows := rates db ++ racing in
      let db' := mkDB (currencies db) (providers db) rows in
      let obj := CurrencyExchangeRate.mk s t provider d rate_value in
      match create rows obj with
      | Ok rows' =>
          (Ok (obj, true), mkDB (currencies db) (providers db) rows')
      | Raise IntegrityError =>
          match qs_get RateModel (List.filter (same_key s t d) rows) with
          | Ok existing => (Ok (existing, false), db')
          | Raise (DoesNotExist _) => (Raise IntegrityError, db')
          | Raise e' => (Raise e', db')
          end
      | Raise e => (Raise e, db')
      end
  | Raise e => (Raise e, db)
  end.

Definition store_rate (db : DB) (racing : list CurrencyExchangeRate.t)
    (source_currency exchanged_currency : Currency.t)
    (valuation_date : date) (rate_value : Decimal.t) (provider : Provider.t)
  : Result (CurrencyExchangeRate.t * bool) * DB :=
  get_or_create db racing source_currency exchanged_currency valuation_date
    rate_value provider.

(** [order_by("valuation_date")]; rows of the same date stay in the order
    of the table. *)
Fixpoint insert_by_date (r : CurrencyExchangeRate.t)
    (l : list CurrencyExchangeRate.t) : list CurrencyExchangeRate.t :=
  match l with
  | [] => [r]
  | q :: l' =>
      if CurrencyExchangeRate.valuation_date r
         <=? CurrencyExchangeRate.valuation_date q
      then r :: q :: l'
      else q :: insert_by_date r l'
  end.

Definition order_by_valuation_date (l : list CurrencyExchangeRate.t)
  : list CurrencyExchangeRate.t :=
  fold_right insert_by_date [] l.

(** [self.filter(source_currency__code=s, exchanged_currency__code=t)] *)
Definition pair_matches (s t : string) (r : CurrencyExchangeRate.t) : bool :=
  String.eqb (Currency.code (CurrencyExchangeRate.source_currency r)) s
  && String.eqb (Currency.code (CurrencyExchangeRate.exchanged_currency r)) t.

(** [if date_from: qs = qs.filter(valuation_date__gte=date_from)] and the
    same for [date_to]; a [date] is always true. *)
Definition filter_from (date_from : option date)
    (qs : list CurrencyExchangeRate.t) : list CurrencyExchangeRate.t :=
  match date_from with
  | Some f =>
      List.filter (fun r => f <=? CurrencyExchangeRate.valuation_date r) qs
  | None => qs
  end.

Definition filter_to (date_to : option date)
    (qs : list CurrencyExchangeRate.t) : list CurrencyExchangeRate.t :=
  match date_to with
  | Some u =>
      List.filter (fun r => CurrencyExchangeRate.valuation_date r <=? u) qs
  | None => qs
  end.

(** [list(qs.values("valuation_date", "rate_value"))]: each dict as the
    pair of its two values. *)
Definition values (qs : list CurrencyExchangeRate.t)
  : list (date * Decimal.t) :=
  map (fun r => (CurrencyExchangeRate.valuation_date r,
                 CurrencyExchangeRate.rate_value r)) qs.

(** The list comprehension over [data_inv]: the first division that raises
    ends it. *)
Fixpoint reciprocals (data_inv : list (date * Decimal.t))
  : Result (list (date * Decimal.t)) :=
  match data_inv with
  | [] => Ok []
  | item :: rest =>
      match Decimal.truediv Decimal.DefaultContext Decimal.one (snd item) with
      | Decimal.Trap s => Raise (DecimalException s)
      | Decimal.Value q =>
          match reciprocals rest with
          | Ok l => Ok ((fst item, q) :: l)
          | Raise e => Raise e
          end
      end
  end.

Definition get_timeseries (db : DB)
    (source_currency exchanged_currency : string)
    (date_from date_to : option date)
  : Result (list (date * Decimal.t)) :=
  let qs :=
    order_by_valuation_date
      (List.filter (pair_matches source_currency exchanged_currency)
         (rates db)) in
  let qs := filter_from date_from qs in
  let qs := filter_to date_to qs in
  let data := values qs in
  match data with
  | _ :: _ => Ok data
  | [] =>
      let qs_inv :=
        order_by_valuation_date
          (List.filter (pair_matches exchanged_currency source_currency)
             (rates db)) in
      let qs_inv := filter_from date_from qs_inv in
      let qs_inv := filter_to date_to qs_inv in
      let data_inv := values qs_inv in
      match data_inv with
      | _ :: _ => reciprocals data_inv
      | [] => Ok []
      end
  end.

(** [date.max.toordinal()], and [current + timedelta(days=1)], which raises
    [OverflowError] beyond it. *)
Definition MAXORDINAL : Z := 3652059.

Definition add_one_day (current : date) : Result date :=
  if current + 1 <=? MAXORDINAL then Ok (current + 1)
  else Raise (OtherException [Lit "date value out of range"]).

(** The [while current <= date_to] loop of [get_missing_dates]; [fuel]
    bounds the number of times its test is evaluated. *)
Fixpoint all_dates_loop (fuel : nat) (current date_to : date)
    (all_dates : list date) : Result (list date) :=
  match fuel with
  | O => Ok all_dates
  | S fuel' =>
      if current <=? date_to then
        match add_one_day current with
        | Ok next => all_dates_loop fuel' next date_to (all_dates ++ [current])
        | Raise e => Raise e
        end
      else Ok all_dates
  end.

Definition get_missing_dates (db : DB) (source_currency : string)
    (date_from date_to : date) : Result (list date) :=
  let existing_dates : gset Z :=
    list_to_set
      (map CurrencyExchangeRate.valuation_date
         (List.filter
            (fun r =>
               String.eqb
                 (Currency.code (CurrencyExchangeRate.source_currency r))
                 source_currency
               && (date_from <=? CurrencyExchangeRate.valuation_date r)
               && (CurrencyExchangeRate.valuation_date r <=? date_to))
            (rates db))) in
  match
    all_dates_loop (S (Z.to_nat (date_to - date_from + 1))) date_from date_to []
  with
  | Ok all_dates =>
      Ok (List.filter (fun d => bool_decide (d ∉ existing_dates)) all_dates)
  | Raise e => Raise e
  end.

(** [order_by("valuation_date", "exchanged_currency__code")]; codes are
    compared as the backend compares upper-case ASCII text, by code point. *)
Definition period_leb (a b : CurrencyExchangeRate.t) : bool :=
  (CurrencyExchangeRate.valuation_date a
   <? CurrencyExchangeRate.valuation_date b)
  || ((CurrencyExchangeRate.valuation_date a
       =? CurrencyExchangeRate.valuation_date b)
      && String.leb
           (Currency.code (CurrencyExchangeRate.exchanged_currency a))
           (Currency.code (CurrencyExchangeRate.exchanged_currency b))).

Fixpoint insert_by_date_and_code (r : CurrencyExchangeRate.t)
    (l : list CurrencyExchangeRate.t) : list CurrencyExchangeRate.t :=
  match l with
  | [] => [r]
  | q :: l' =>
      if period_leb r q then r :: q :: l'
      else q :: insert_by_date_and_code r l'
  end.

Definition get_rates_for_period (db : DB) (source_currency : string)
    (date_from date_to : date) : list CurrencyExchangeRate.t :=
  fold_right insert_by_date_and_code []
    (List.filter
       (fun r =>
          String.eqb (Currency.code (CurrencyExchangeRate.source_currency r))
            source_currency
          && (date_from <=? CurrencyExchangeRate.valuation_date r)
          && (CurrencyExchangeRate.valuation_date r <=? date_to))
       (rates db)).

End CurrencyExchangeRateManager.

(** The manager of [Provider]. [order_by("priority")] replaces the default
    ordering of the model; rows of equal priority stay in the order of the
    table (a stable sort). *)
Module ProviderManager.

Fixpoint insert_by_priority (p : Provider.t) (l : list Provider.t)
  : list Provider.t :=
  match l with
  | [] => [p]
  | q :: l' =>
      if Provider.priority p <=? Provider.priority q
      then p :: q :: l'
      else q :: insert_by_priority p l'
  end.

Definition order_by_priority (l : list Provider.t) : list Provider.t :=
  fold_right insert_by_priority [] l.

Definition get_active_ordered (db : DB) : list Provider.t :=
  order_by_priority (List.filter Provider.is_active (providers db)).

Definition get_default (db : DB) : option Provider.t :=
  first (get_active_ordered db).

(** [Provider.objects.get(name=name, is_active=True)] and
    [Provider.objects.get(name=name)] *)
Definition get_active_by_name (db : DB) (name : string) : Result Provider.t :=
  qs_get ProviderModel
    (List.filter
       (fun p => String.eqb (Provider.name p) name && Provider.is_active p)
       (providers db)).

Definition get_by_name (db : DB) (name : option string) : Result Provider.t :=
  qs_get ProviderModel
    (List.filter
       (fun p =>
          match name with
          | Some n => String.eqb (Provider.name p) n
          | None => false
          end)
       (providers db)).

End ProviderManager.

(** ** Adapters ([external/api_clients/adapters]) *)

(** [ExchangeRateData], a frozen pydantic model. [new] is its validating
    constructor: both codes are upper-cased by the [BeforeValidator] and must
    have exactly three characters, and the rate must be greater than zero.
    Of the [ValidationError] message only the headline is kept. *)
Module ExchangeRateData.

Record t := mk
  { source_currency : string; exchanged_currency : string;
    valuation_date : date; rate_value : Decimal.t;
    provider_name : option string }.

(** The [rate] property. *)
Definition rate (x : t) : Decimal.t := rate_value x.

Definition code_ok (s : string) : bool := (String.length s =? 3)%nat.

Definition new (source_currency exchanged_currency : string)
    (valuation_date : date) (rate_value : Decimal.t)
    (provider_name : option string) : Result t :=
  let source_currency := upper source_currency in
  let exchanged_currency := upper exchanged_currency in
  let failed :=
    List.filter negb
      [code_ok source_currency; code_ok exchanged_currency;
       Decimal.is_positive rate_value] in
  match failed with
  | [] =>
      Ok (mk source_currency exchanged_currency valuation_date rate_value
            provider_name)
  | _ :: _ =>
      Raise (ValidationError
               [FInt (Z.of_nat (length failed));
                Lit " validation error(s) for ExchangeRateData"])
  end.

End ExchangeRateData.

(** [CurrencyAdapter]: the interface of an adapter instance. What an adapter
    answers depends on the outside world (the network, the random
    generator), which a call reads and may change. *)
Record CurrencyAdapter (World : Type) := mkAdapter
  { provider_name : string;
    get_exchange_rate_data :
      string -> string -> date -> World ->
      Result ExchangeRateData.t * World }.
Arguments mkAdapter {World} _ _.
Arguments provider_name {World} _.
Arguments get_exchange_rate_data {World} _ _ _ _ _.

(** [MockAdapter] ([adapters/mock.py]); its world is the random generator.
    [fromisoformat] stands for [date.fromisoformat]. *)
Module MockAdapter.

Definition provider_name : string := "mock".

Definition get_exchange_rate_data (fromisoformat : string -> Result date)
    (source_currency exchanged_currency : string)
    (valuation_date : date + string) (rng : PyRandom.RandomState)
  : Result ExchangeRateData.t * PyRandom.RandomState :=
  let normalized :=
    match valuation_date with
    | inl d => Ok d
    | inr s => fromisoformat s
    end in
  match normalized with
  | Raise e => (Raise e, rng)
  | Ok valuation_date =>
      let '(random_rate, rng') :=
        PyRandom.uniform_half_to_one_and_half rng in
      let rate_value := PyRandom.format_6f random_rate in
      (ExchangeRateData.new (upper source_currency)
         (upper exchanged_currency) valuation_date rate_value
         (Some provider_name), rng')
  end.

(** The instance [MockAdapter(api_key=...)]; the key is not used. *)
Definition instance (fromisoformat : string -> Result date)
    (api_key : option string) : CurrencyAdapter PyRandom.RandomState :=
  mkAdapter provider_name
    (fun s t d => get_exchange_rate_data fromisoformat s t (inl d)).

End MockAdapter.

(** ** Process state and the monad of the services

    The state a call can read or change: the database, the adapter cache of the [ProviderManager] instance,
    the outside world, the clock and the log. [st_calls] is an observation
    added by the model: the names of the providers whose adapter was asked
    for a rate, oldest first. *)
Inductive Level := DEBUG | INFO | WARNING | ERROR.

Record LogRecord := mkLog { level : Level; message : Message }.

Record State (World : Type) := mkState
  { st_db : DB;
    st_adapter_cache : gmap string (CurrencyAdapter World);
    st_world : World;
    st_today : date;
    st_log : list LogRecord;
    st_calls : list string }.
Arguments mkState {World} _ _ _ _ _ _.
Arguments st_db {World} _.
Arguments st_adapter_cache {World} _.
Arguments st_world {World} _.
Arguments st_today {World} _.
Arguments st_log {World} _.
Arguments st_calls {World} _.

Definition M (S A : Type) : Type := S -> Result A * S.

Definition ret {S A : Type} (a : A) : M S A := fun s => (Ok a, s).

Definition raise {S A : Type} (e : exn) : M S A := fun s => (Raise e, s).

Definition bind {S A B : Type} (m : M S A) (k : A -> M S B) : M S B :=
  fun s =>
    match m s with
    | (Ok a, s') => k a s'
    | (Raise e, s') => (Raise e, s')
    end.

(** [try: m  except Exception as e: handler e] *)
Definition try_except {S A : Type} (m : M S A) (handler : exn -> M S A)
  : M S A :=
  fun s =>
    match m s with
    | (Ok a, s') => (Ok a, s')
    | (Raise e, s') => handler e s'
    end.

Definition of_result {S A : Type} (r : Result A) : M S A := fun s => (r, s).

Definition gets {S A : Type} (f : S -> A) : M S A := fun s => (Ok (f s), s).

Definition modify {S : Type} (f : S -> S) : M S unit := fun s => (Ok tt, f s).

Notation "x <- c ;; k" := (bind c (fun x => k))
  (at level 100, c at next level, right associativity).
Notation "c ;;; k" := (bind c (fun _ => k))
  (at level 100, right associativity).

Section StateOps.
Context {World : Type}.

Definition set_db (db : DB) (st : State World) : State World :=
  mkState db (st_adapter_cache st) (st_world st)
    (st_today st) (st_log st) (st_calls st).

Definition set_adapter_cache (c : gmap string (CurrencyAdapter World))
    (st : State World) : State World :=
  mkState (st_db st) c (st_world st) (st_today st)
    (st_log st) (st_calls st).

Definition set_world (w : World) (st : State World) : State World :=
  mkState (st_db st) (st_adapter_cache st) w
    (st_today st) (st_log st) (st_calls st).

Definition add_log (r : LogRecord) (st : State World) : State World :=
  mkState (st_db st) (st_adapter_cache st) (st_world st)
    (st_today st) (st_log st ++ [r]) (st_calls st).

Definition add_call (name : string) (st : State World) : State World :=
  mkState (st_db st) (st_adapter_cache st) (st_world st)
    (st_today st) (st_log st) (st_calls st ++ [name]).

(** [logger.debug], [logger.info], [logger.warning]; [logger.exception]
    logs at level [ERROR]. *)
Definition logger (l : Level) (msg : Message) : M (State World) unit :=
  modify (add_log (mkLog l msg)).

End StateOps.

(** [d.get(k)] and [list(d.keys())] on an insertion-ordered dict. *)
Fixpoint dict_get {V : Type} (d : list (string * V)) (k : string) : option V :=
  match d with
  | [] => None
  | (k', v) :: d' => if String.eqb k' k then Some v else dict_get d' k
  end.

Definition dict_keys {V : Type} (d : list (string * V)) : list string :=
  map fst d.

(** [str(n)] for an integer. *)
Definition str_int (z : Z) : string :=
  Stdlib.Numbers.DecimalString.NilZero.string_of_int (Z.to_int z).

(** [if provider_name:] holds for a name that is given and not empty. *)
Definition truthy (s : option string) : option string :=
  match s with
  | Some n => if String.eqb n "" then None else Some n
  | None => None
  end.

(** ** The provider orchestrator
    ([currencies/services/provider_manager.py], class [ProviderManager]) *)
Module ProviderManagerService.
Section WithWorld.
Context {World : Type}.

(** The module-level [ADAPTER_REGISTRY] is read through this accessor: an
    insertion-ordered dict from provider names to adapter classes, a class
    being called with the [api_key]. *)
Variable ADAPTER_REGISTRY :
  list (string * (option string -> CurrencyAdapter World)).

Definition _get_active_providers : M (State World) (list Provider.t) :=
  gets (fun st => ProviderManager.get_active_ordered (st_db st)).

Definition _get_adapter (provider : Provider.t)
  : M (State World) (CurrencyAdapter World) :=
  fun st =>
    let cache_key :=
      (Provider.name provider ++ ":" ++ str_int (Provider.id provider))%string in
    match st_adapter_cache st !! cache_key with
    | Some adapter => (Ok adapter, st)
    | None =>
        match dict_get ADAPTER_REGISTRY (Provider.name provider) with
        | None =>
            (Raise (ValueError
                      [Lit "No adapter registered for provider '";
                       FStr (Provider.name provider);
                       Lit "'. Available: ";
                       FList (dict_keys ADAPTER_REGISTRY)]), st)
        | Some adapter_class =>
            let adapter :=
              adapter_class
                (if String.eqb (Provider.api_key provider) "" then None
                 else Some (Provider.api_key provider)) in
            (Ok adapter,
             set_adapter_cache (<[cache_key := adapter]> (st_adapter_cache st))
               st)
        end
    end.

(** [adapter.get_exchange_rate_data(...)] for the adapter of [provider]. *)
Definition call_adapter (provider : Provider.t)
    (adapter : CurrencyAdapter World)
    (source_currency exchanged_currency : string) (valuation_date : date)
  : M (State World) ExchangeRateData.t :=
  fun st =>
    let st1 := add_call (Provider.name provider) st in
    let '(r, w) :=
      get_exchange_rate_data adapter source_currency exchanged_currency
        valuation_date (st_world st1) in
    (r, set_world w st1).

(** The body of the [try] in the loop over the providers. *)
Definition attempt (provider : Provider.t)
    (source_currency exchanged_currency : string) (valuation_date : date)
  : M (State World) ExchangeRateData.t :=
  logger DEBUG [Lit "Trying provider: "; FStr (Provider.name provider)] ;;;
  adapter <- _get_adapter provider ;;
  result <- call_adapter provider adapter source_currency exchanged_currency
              valuation_date ;;
  logger INFO
    [Lit "Successfully fetched rate from "; FStr (Provider.name provider);
     Lit ": "; FStr source_currency; Lit "→"; FStr exchanged_currency;
     Lit "="; FDecimal (ExchangeRateData.rate result)] ;;;
  ret result.

(** The two [except] clauses of the loop: the reason recorded for the
    provider and the log record. *)
Definition failure_reason (e : exn) : Message :=
  if is_APIClientError e then str_exn e
  else Lit "Unexpected error: " :: str_exn e.

Definition log_failure (provider : Provider.t) (e : exn)
  : M (State World) unit :=
  if is_APIClientError e then
    logger WARNING
      ([Lit "Provider "; FStr (Provider.name provider); Lit " failed: "]
         ++ str_exn e ++ [Lit ". Trying next provider..."])
  else
    logger ERROR
      [Lit "Provider "; FStr (Provider.name provider);
       Lit " failed unexpectedly"].

(** [for provider in providers: ...] followed by the final [raise];
    [n] is [len(providers)] of the whole list. *)
Fixpoint sweep (n : Z) (source_currency exchanged_currency : string)
    (valuation_date : date) (providers : list Provider.t)
    (errors : list (string * Message))
  : M (State World) ExchangeRateData.t :=
  match providers with
  | [] =>
      raise (AllProvidersFailedError
               [Lit "All "; FInt n;
                Lit " providers failed to fetch rate for ";
                FStr source_currency; Lit "→"; FStr exchanged_currency;
                Lit " on "; FDate valuation_date]
               errors)
  | provider :: rest =>
      try_except
        (attempt provider source_currency exchanged_currency valuation_date)
        (fun e =>
           log_failure provider e ;;;
           sweep n source_currency exchanged_currency valuation_date rest
             (dict_set errors (Provider.name provider) (failure_reason e)))
  end.

Definition get_exchange_rate_data
    (source_currency exchanged_currency : string) (valuation_date : date)
    (provider_name : option string)
  : M (State World) ExchangeRateData.t :=
  match truthy provider_name with
  | Some provider_name =>
      provider <-
        try_except
          (fun st =>
             (ProviderManager.get_active_by_name (st_db st) provider_name, st))
          (fun e =>
             match e with
             | DoesNotExist _ =>
                 raise (ValueError
                          [Lit "Provider '"; FStr provider_name;
                           Lit "' not found or not active"])
             | _ => raise e
             end) ;;
      adapter <- _get_adapter provider ;;
      call_adapter provider adapter source_currency exchanged_currency
        valuation_date
  | None =>
      providers <- _get_active_providers ;;
      match providers with
      | [] =>
          raise (AllProvidersFailedError
                   [Lit "No active providers configured"]
                   [("configuration"%string,
                     [Lit "No active providers found in database"])])
      | _ :: _ =>
          sweep (Z.of_nat (length providers)) source_currency
            exchanged_currency valuation_date providers []
      end
  end.

Definition clear_adapter_cache : M (State World) unit :=
  modify (set_adapter_cache ∅).

End WithWorld.
End ProviderManagerService.

(** A [dict[date, V]]: [k in d], [d[k] = v], the in-place change of the
    value [d[k]], and [dict(sorted(d.items()))], which orders the items by
    their keys. *)
Fixpoint date_dict_get {V : Type} (d : list (date * V)) (k : date)
  : option V :=
  match d with
  | [] => None
  | (k', v) :: d' => if k' =? k then Some v else date_dict_get d' k
  end.

Fixpoint date_dict_set {V : Type} (d : list (date * V)) (k : date) (v : V)
  : list (date * V) :=
  match d with
  | [] => [(k, v)]
  | (k', v') :: d' =>
      if k' =? k then (k, v) :: d' else (k', v') :: date_dict_set d' k v
  end.

Fixpoint date_dict_update {V : Type} (d : list (date * V)) (k : date)
    (f : V -> V) : list (date * V) :=
  match d with
  | [] => []
  | (k', v) :: d' =>
      if k' =? k then (k', f v) :: d' else (k', v) :: date_dict_update d' k f
  end.

Fixpoint insert_item {V : Type} (item : date * V) (l : list (date * V))
  : list (date * V) :=
  match l with
  | [] => [item]
  | q :: l' =>
      if fst item <=? fst q then item :: q :: l'
      else q :: insert_item item l'
  end.

Definition sorted_items {V : Type} (d : list (date * V)) : list (date * V) :=
  fold_right insert_item [] d.

(** ** The exchange-rate service
    ([currencies/services/exchange_rate.py]) *)
Module ExchangeRateService.

(** The body of the loop of [get_rates_for_period]. *)
Definition add_rate (result : list (date * list (string * Decimal.t)))
    (rate : CurrencyExchangeRate.t)
  : list (date * list (string * Decimal.t)) :=
  let result :=
    match date_dict_get result (CurrencyExchangeRate.valuation_date rate) with
    | None =>
        date_dict_set result (CurrencyExchangeRate.valuation_date rate) []
    | Some _ => result
    end in
  date_dict_update result (CurrencyExchangeRate.valuation_date rate)
    (fun inner =>
       dict_set inner
         (Currency.code (CurrencyExchangeRate.exchanged_currency rate))
         (CurrencyExchangeRate.rate_value rate)).

Definition get_rates_for_period (db : DB) (source_currency : string)
    (date_from date_to : date)
  : list (date * list (string * Decimal.t)) :=
  let source_currency := upper source_currency in
  let existing_rates :=
    CurrencyExchangeRateManager.get_rates_for_period db source_currency
      date_from date_to in
  let result := fold_left add_rate existing_rates [] in
  sorted_items result.

Record ConversionResult := mkConversionResult
  { source_currency : string; exchanged_currency : string;
    rate : Decimal.t; source_amount : Decimal.t;
    exchanged_amount : Decimal.t; valuation_date : date }.

(** [Decimal(str(amount))] for a [Decimal] or an [int] amount: the text of
    a finite decimal reads back as the same triple. *)
Definition decimal_of_amount (amount : Decimal.t + Z) : Decimal.t :=
  match amount with
  | inl d => d
  | inr n => Decimal.mk (n <? 0) (Z.abs n) 0
  end.

Section WithWorld.
Context {World : Type}.
Variable ADAPTER_REGISTRY :
  list (string * (option string -> CurrencyAdapter World)).

(** [CurrencyExchangeRate.objects.store_rate(...)] on the database of the
    state; no other transaction is interleaved. *)
Definition objects_store_rate (source target : Currency.t) (d : date)
    (rate_value : Decimal.t) (provider : Provider.t)
  : M (State World) (CurrencyExchangeRate.t * bool) :=
  fun st =>
    let '(r, db') :=
      CurrencyExchangeRateManager.store_rate (st_db st) [] source target d
        rate_value provider in
    (r, set_db db' st).

Definition _store_rate (rate_data : ExchangeRateData.t)
    (provider : Provider.t) : M (State World) unit :=
  try_except
    (source <-
       (fun st =>
          (CurrencyManager.get_by_code (st_db st)
             (ExchangeRateData.source_currency rate_data), st)) ;;
     target <-
       (fun st =>
          (CurrencyManager.get_by_code (st_db st)
             (ExchangeRateData.exchanged_currency rate_data), st)) ;;
     objects_store_rate source target
       (ExchangeRateData.valuation_date rate_data)
       (ExchangeRateData.rate rate_data) provider ;;;
     ret tt)
    (fun e =>
       match e with
       | DoesNotExist CurrencyModel =>
           logger WARNING
             (Lit "Could not store rate, currency not found: " :: str_exn e)
       | _ => raise e
       end).

Definition get_exchange_rate
    (source_currency exchanged_currency : string) (valuation_date : date)
    (provider : option string)
  : M (State World) ExchangeRateData.t :=
  let source_currency := upper source_currency in
  let exchanged_currency := upper exchanged_currency in
  db_rate <-
    (fun st =>
       (CurrencyExchangeRateManager.get_rate (st_db st) source_currency
          exchanged_currency valuation_date, st)) ;;
  match db_rate with
  | Some db_rate =>
      logger DEBUG
        [Lit "Found rate in database: "; FStr source_currency; Lit "→";
         FStr exchanged_currency; Lit "="; FDecimal db_rate] ;;;
      of_result
        (ExchangeRateData.new source_currency exchanged_currency
           valuation_date db_rate None)
  | None =>
      logger DEBUG
        [Lit "Rate not in database, fetching from provider: ";
         FStr source_currency; Lit "→"; FStr exchanged_currency] ;;;
      rate_data <-
        ProviderManagerService.get_exchange_rate_data ADAPTER_REGISTRY
          source_currency exchanged_currency valuation_date provider ;;
      let provider :=
        match provider with
        | None => ExchangeRateData.provider_name rate_data
        | Some p => Some p
        end in
      provider <-
        (fun st => (ProviderManager.get_by_name (st_db st) provider, st)) ;;
      _store_rate rate_data provider ;;;
      ret rate_data
  end.

Definition convert_amount (source_currency exchanged_currency : string)
    (amount : Decimal.t + Z) (valuation_date : option date)
  : M (State World) ConversionResult :=
  valuation_date <-
    match valuation_date with
    | None => gets st_today
    | Some d => ret d
    end ;;
  let amount := decimal_of_amount amount in
  rate_data <-
    get_exchange_rate source_currency exchanged_currency valuation_date
      None ;;
  exchanged_amount <-
    of_result
      (of_trapped
         (Decimal.mul Decimal.DefaultContext amount
            (ExchangeRateData.rate rate_data))) ;;
  quantized <-
    of_result
      (of_trapped
         (Decimal.quantize Decimal.DefaultContext exchanged_amount
            Decimal.micro None)) ;;
  ret (mkConversionResult (upper source_currency)
         (upper exchanged_currency) (ExchangeRateData.rate rate_data)
         amount quantized valuation_date).

End WithWorld.
End ExchangeRateService.

(** ** Store invariants and lookups, as the properties below state them *)

(** The key of the constraint [unique_exchange_rate_per_day]. *)
Definition rate_key (r : CurrencyExchangeRate.t) : string * string * date :=
  (Currency.code (CurrencyExchangeRate.source_currency r),
   Currency.code (CurrencyExchangeRate.exchanged_currency r),
   CurrencyExchangeRate.valuation_date r).

Definition unique_exchange_rate_per_day (rows : list CurrencyExchangeRate.t)
  : Prop :=
  List.NoDup (map rate_key rows).

(** The store holds the rate [v] for (s -> t, d); it holds no record for
    (s -> t, d). *)
Definition stored (db : DB) (s t : string) (d : date) (v : Decimal.t) : Prop :=
  exists row, In row (rates db) /\ rate_key row = (s, t, d)
              /\ CurrencyExchangeRate.rate_value row = v.

Definition no_record (db : DB) (s t : string) (d : date) : Prop :=
  forall row, In row (rates db) -> rate_key row <> (s, t, d).

(** What [get_rate] and [_calculate_cross_rate] return for the quotient
    [a / b]. *)
Definition quotient (a b : Decimal.t) : Result (option Decimal.t) :=
  match Decimal.truediv Decimal.DefaultContext a b with
  | Decimal.Value q => Ok (Some q)
  | Decimal.Trap s => Raise (DecimalException s)
  end.

(** ** A failed sweep, as the properties below state it

    [all_fail ps st fs st']: started in [st], the attempts on the providers
    [ps], made one after the other as the loop makes them, all raise; [fs]
    pairs each provider's name with the exception of its attempt, and [st']
    is the state after the last failure was logged. *)
Section FallbackSweep.
Context {World : Type}.
Variable ADAPTER_REGISTRY :
  list (string * (option string -> CurrencyAdapter World)).
Variables (source_currency exchanged_currency : string)
          (valuation_date : date).

Inductive all_fail
  : list Provider.t -> State World -> list (string * exn) -> State World
    -> Prop :=
| all_fail_nil st : all_fail [] st [] st
| all_fail_cons p ps st e st1 fs st2 :
    ProviderManagerService.attempt ADAPTER_REGISTRY p source_currency
      exchanged_currency valuation_date st = (Raise e, st1) ->
    all_fail ps (snd (ProviderManagerService.log_failure p e st1)) fs st2 ->
    all_fail (p :: ps) st ((Provider.name p, e) :: fs) st2.

(** The failure map that the loop builds from such failures. *)
Definition failure_map (fs : list (string * exn)) : list (string * Message) :=
  map (fun f => (fst f, ProviderManagerService.failure_reason (snd f))) fs.

(** The message of the aggregate error for [n] providers. *)
Definition all_failed_message (n : Z) : Message :=
  [Lit "All "; FInt n; Lit " providers failed to fetch rate for ";
   FStr source_currency; Lit "→"; FStr exchanged_currency;
   Lit " on "; FDate valuation_date].

End FallbackSweep.

(** ** States and lookups of the service, as the properties state them *)

(** The state in which the service calls the orchestrator after a miss in
    the store: the miss has been logged. *)
Definition after_miss {World : Type} (source_currency exchanged_currency : string)
    (st : State World) : State World :=
  add_log
    (mkLog DEBUG
       [Lit "Rate not in database, fetching from provider: ";
        FStr (upper source_currency); Lit "→";
        FStr (upper exchanged_currency)])
    st.

(** The name under which the service looks the provider row up: the forced
    name if one was given, else the name the quote carries. *)
Definition provider_to_store (provider : option string)
    (rate_data : ExchangeRateData.t) : option string :=
  match provider with
  | None => ExchangeRateData.provider_name rate_data
  | Some p => Some p
  end.

(** No currency of the store has the code [code]. *)
Definition unknown_currency (db : DB) (code : string) : Prop :=
  forall c, In c (currencies db) -> Currency.code c <> upper code.

(** The record logged when a quote cannot be stored. *)
Definition could_not_store : LogRecord :=
  mkLog WARNING
    (Lit "Could not store rate, currency not found: "
       :: str_exn (DoesNotExist CurrencyModel)).

(** ** Concrete stores, providers and adapters for the examples *)
Module Scenario.

(** 2024-01-01 *)
Definition day : date := 738886.

Definition usd : Currency.t := Currency.mk "USD" "US Dollar" "$" true.
Definition eur : Currency.t := Currency.mk "EUR" "Euro" "E" true.
Definition chf : Currency.t := Currency.mk "CHF" "Swiss Franc" "Fr" true.

Definition row (id : Z) (name : string) (priority : Z) (is_active : bool)
  : Provider.t :=
  Provider.mk id name name "" "" priority is_active 30.

(** Adapters of test providers: one that fails with an [APIClientError], one
    that fails with another exception, and two that answer with a fixed
    rate, the second without naming itself in the quote. *)
Definition failing (name msg : string) (api_key : option string)
  : CurrencyAdapter unit :=
  mkAdapter name (fun _ _ _ w => (Raise (APIClientError [Lit msg]), w)).

Definition crashing (name msg : string) (api_key : option string)
  : CurrencyAdapter unit :=
  mkAdapter name (fun _ _ _ w => (Raise (OtherException [Lit msg]), w)).

Definition succeeding (name : string) (rate : Decimal.t)
    (api_key : option string) : CurrencyAdapter unit :=
  mkAdapter name
    (fun s t d w => (ExchangeRateData.new s t d rate (Some name), w)).

Definition unnamed (name : string) (rate : Decimal.t)
    (api_key : option string) : CurrencyAdapter unit :=
  mkAdapter name (fun s t d w => (ExchangeRateData.new s t d rate None, w)).

Definition r0_9123 : Decimal.t := Decimal.mk false 9123 (-4).
Definition r0_9000 : Decimal.t := Decimal.mk false 9000 (-4).
Definition r1_0832 : Decimal.t := Decimal.mk false 10832 (-4).

Definition state_of (db : DB) : State unit := mkState db ∅ tt day [] [].

(** Three providers, the first in priority failing. *)
Definition fallback_registry
  : list (string * (option string -> CurrencyAdapter unit)) :=
  [("p1"%string, failing "p1" "network error");
   ("p2"%string, succeeding "p2" r0_9123);
   ("p3"%string, succeeding "p3" r0_9000)].

Definition fallback_db : DB :=
  mkDB [usd; eur]
    [row 1 "p3" 3 true; row 2 "p1" 1 true; row 3 "p2" 2 true] [].

(** Two providers of the same priority; the table holds "zeta" first. *)
Definition tie_registry
  : list (string * (option string -> CurrencyAdapter unit)) :=
  [("alpha"%string, succeeding "alpha" r0_9000);
   ("zeta"%string, succeeding "zeta" r0_9123)].

Definition tie_db : DB :=
  mkDB [usd; eur] [row 1 "zeta" 1 true; row 2 "alpha" 1 true] [].

(** Every provider fails; "p3" has no adapter registered, "off" is
    inactive. *)
Definition failing_registry
  : list (string * (option string -> CurrencyAdapter unit)) :=
  [("p1"%string, failing "p1" "network error");
   ("p2"%string, crashing "p2" "boom")].

Definition failing_db : DB :=
  mkDB [usd; eur]
    [row 1 "p2" 2 true; row 2 "p1" 1 true; row 3 "p3" 3 true;
     row 4 "off" 0 false] [].

(** A provider whose adapter does not name itself in its quotes. *)
Definition unnamed_registry
  : list (string * (option string -> CurrencyAdapter unit)) :=
  [("p1"%string, unnamed "p1" r0_9123)].

Definition unnamed_db : DB := mkDB [usd; eur] [row 1 "p1" 1 true] [].

(** A store that does not know the euro. *)
Definition no_euro_db : DB :=
  mkDB [usd] [row 1 "p3" 3 true; row 2 "p1" 1 true; row 3 "p2" 2 true] [].

(** Stored rates: USD->EUR and USD->CHF of the day. *)
Definition usd_eur : CurrencyExchangeRate.t :=
  CurrencyExchangeRate.mk usd eur (row 1 "p1" 1 true) day r0_9123.
Definition usd_chf : CurrencyExchangeRate.t :=
  CurrencyExchangeRate.mk usd chf (row 1 "p1" 1 true) day r1_0832.

Definition rates_db : DB :=
  mkDB [usd; eur; chf] [row 1 "p1" 1 true] [usd_eur; usd_chf].

(** A stored rate of 1.000001 and an amount of 0.5: their product ends in
    a five at the seventh fractional digit. *)
Definition r1_000001 : Decimal.t := Decimal.mk false 1000001 (-6).
Definition half : Decimal.t := Decimal.mk false 5 (-1).

Definition tie_rate_db : DB :=
  mkDB [usd; eur] [row 1 "p1" 1 true]
    [CurrencyExchangeRate.mk usd eur (row 1 "p1" 1 true) day r1_000001].

(** A stored rate of 1.234567. *)
Definition r1_234567 : Decimal.t := Decimal.mk false 1234567 (-6).

Definition example_rate_db : DB :=
  mkDB [usd; eur] [row 1 "p1" 1 true]
    [CurrencyExchangeRate.mk usd eur (row 1 "p1" 1 true) day r1_234567].

(** A generator whose successive draws are 0, 2^50, 2 * 2^50, ... *)
Definition generator : PyRandom.RandomState :=
  PyRandom.mkState (fun n => Z.of_nat n * 2 ^ 50) 0.

(** A parser of ISO dates that knows the text of [day] only. *)
Definition fromisoformat (s : string) : Result date :=
  if String.eqb s "2024-01-01" then Ok day
  else Raise (ValueError [Lit "Invalid isoformat string: "; FStr s]).

End Scenario.

(** ** Decimal values, as the properties state them *)

(** [c / 10^k] rounded to the nearest integer, ties to the even one. *)
Definition round_half_even_div (c k : Z) : Z :=
  let q := c / 10 ^ k in
  let r := c mod 10 ^ k in
  if (10 ^ k <? 2 * r) || ((2 * r =? 10 ^ k) && Z.odd q) then q + 1 else q.

(** A positive decimal that the default context holds exactly and whose
    exponent is far from the context's limits; every positive value of the
    column [rate_value] (18 digits, 6 of them fractional) is one. *)
Definition ordinary (d : Decimal.t) : Prop :=
  Decimal.sign d = false
  /\ 1 <= Decimal.coeff d < 10 ^ 28
  /\ -100000 <= Decimal.exp d <= 100000.

(** [q] is within half a unit of its last digit of the quotient [a / b]:
    [|q * b - a| <= b * 10^(exp q) / 2], written over the integers in units
    of [10^s] for an [s] below the exponents involved. *)
Definition nearest_quotient (q a b : Decimal.t) : Prop :=
  let s := Z.min (Decimal.exp a) (Decimal.exp q + Decimal.exp b) in
  2 * Z.abs (Decimal.coeff q * Decimal.coeff b
               * 10 ^ (Decimal.exp q + Decimal.exp b - s)
             - Decimal.coeff a * 10 ^ (Decimal.exp a - s))
  <= Decimal.coeff b * 10 ^ (Decimal.exp q + Decimal.exp b - s).

(** [q * b = a] exactly. *)
Definition exact_quotient (q a b : Decimal.t) : Prop :=
  let s := Z.min (Decimal.exp a) (Decimal.exp q + Decimal.exp b) in
  Decimal.coeff q * Decimal.coeff b * 10 ^ (Decimal.exp q + Decimal.exp b - s)
  = Decimal.coeff a * 10 ^ (Decimal.exp a - s).

(** [q] is the quotient [a / b] to the 28 significant digits of the default
    context: positive, of at most 28 digits, within half a unit of its last
    digit of [a / b], and exact whenever it has fewer than 28 digits. *)
Definition correctly_rounded (q a b : Decimal.t) : Prop :=
  Decimal.is_positive q = true
  /\ Decimal.coeff q < 10 ^ 28
  /\ nearest_quotient q a b
  /\ (Decimal.ndigits (Decimal.coeff q) = 28 \/ exact_quotient q a b).

(** The decimal [c * 10^e] as a whole number of millionths: exact when it
    has at most six fractional digits, rounded to the nearest millionth
    otherwise, a tie going to the even one. *)
Definition millionths (c e : Z) : Z :=
  if -6 <=? e then c * 10 ^ (e + 6) else round_half_even_div c (-6 - e).

(** ** Date ranges and series, as the properties state them *)

(** [d] lies within the bounds that are given. *)
Definition within (date_from date_to : option date) (d : date) : Prop :=
  match date_from with Some f => f <= d | None => True end
  /\ match date_to with Some u => d <= u | None => True end.

(** The store holds a rate for [source_currency] on [d]. *)
Definition has_rate_on (db : DB) (source_currency : string) (d : date)
  : Prop :=
  exists row, In row (rates db)
              /\ Currency.code (CurrencyExchangeRate.source_currency row)
                 = source_currency
              /\ CurrencyExchangeRate.valuation_date row = d.

(** [result[d][code]] on the value of [get_rates_for_period], when both
    keys are present. *)
Definition period_lookup (result : list (date * list (string * Decimal.t)))
    (d : date) (code : string) : option Decimal.t :=
  match date_dict_get result d with
  | Some inner => dict_get inner code
  | None => None
  end.

(** ** Further concrete stores for the examples *)
Module Cases.

(** A store whose USD->EUR rate of the day is zero. *)
Definition zero : Decimal.t := Decimal.mk false 0 (-6).

Definition zero_rate_db : DB :=
  mkDB [Scenario.usd; Scenario.eur] [Scenario.row 1 "p1" 1 true]
    [CurrencyExchangeRate.mk Scenario.usd Scenario.eur
       (Scenario.row 1 "p1" 1 true) Scenario.day zero].

(** A store that holds EUR->CHF and nothing that involves the dollar. *)
Definition eur_chf : CurrencyExchangeRate.t :=
  CurrencyExchangeRate.mk Scenario.eur Scenario.chf
    (Scenario.row 1 "p1" 1 true) Scenario.day Scenario.r1_0832.

Definition no_dollar_db : DB :=
  mkDB [Scenario.usd; Scenario.eur; Scenario.chf]
    [Scenario.row 1 "p1" 1 true] [eur_chf].

(** An amount of 10^23 dollars. *)
Definition huge : Decimal.t := Decimal.mk false 1 23.

Definition r0_0000004 : Decimal.t := Decimal.mk false 4 (-7).

(** Rows as the column holds them: USD->EUR = 0.912300 and
    USD->CHF = 1.083200 of the day. *)
Definition r0_912300 : Decimal.t := Decimal.mk false 912300 (-6).
Definition r1_083200 : Decimal.t := Decimal.mk false 1083200 (-6).

Definition usd_eur_row : CurrencyExchangeRate.t :=
  CurrencyExchangeRate.mk Scenario.usd Scenario.eur
    (Scenario.row 1 "p1" 1 true) Scenario.day r0_912300.
Definition usd_chf_row : CurrencyExchangeRate.t :=
  CurrencyExchangeRate.mk Scenario.usd Scenario.chf
    (Scenario.row 1 "p1" 1 true) Scenario.day r1_083200.

Definition column_db : DB :=
  mkDB [Scenario.usd; Scenario.eur; Scenario.chf]
    [Scenario.row 1 "p1" 1 true] [usd_eur_row; usd_chf_row].

(** A store whose USD->EUR leg of the day is zero, beside USD->CHF. *)
Definition zero_leg_db : DB :=
  mkDB [Scenario.usd; Scenario.eur; Scenario.chf]
    [Scenario.row 1 "p1" 1 true]
    [CurrencyExchangeRate.mk Scenario.usd Scenario.eur
       (Scenario.row 1 "p1" 1 true) Scenario.day zero;
     usd_chf_row].

(** A store that knows the dollar and the euro and holds no rate. *)
Definition empty_db : DB :=
  mkDB [Scenario.usd; Scenario.eur] [Scenario.row 1 "p1" 1 true] [].

(** [ADAPTER_REGISTRY] as [_initialize_adapters] fills it. The class of the
    CurrencyBeacon adapter, which asks the network, is left open. *)
Definition initialized_registry
    (CurrencyBeaconAdapter
       : option string -> CurrencyAdapter PyRandom.RandomState)
  : list (string
          * (option string -> CurrencyAdapter PyRandom.RandomState)) :=
  [("currencybeacon"%string, CurrencyBeaconAdapter);
   ("mock"%string, MockAdapter.instance Scenario.fromisoformat)].

(** A deployment whose only provider is the mock one, with an empty rate
    table. *)
Definition mock_row : Provider.t := Scenario.row 1 "mock" 1 true.

Definition mock_db : DB := mkDB [Scenario.usd; Scenario.eur] [mock_row] [].

Definition mock_state : State PyRandom.RandomState :=
  mkState mock_db ∅ Scenario.generator Scenario.day [] [].

(** The quote of the mock adapter for the first draw of
    [Scenario.generator]: a rate of 0.500000. *)
Definition mock_quote : ExchangeRateData.t :=
  ExchangeRateData.mk "USD" "EUR" Scenario.day
    (Decimal.mk false 500000 (-6)) (Some "mock"%string).

End Cases.

(** ** Proof automation *)

(** Distinctness of the elements of a concrete list. *)
Ltac solve_NoDup :=
  vm_compute;
  repeat (constructor; [simpl; intuition congruence|]); constructor.

(** * Properties *)

(** ** Lookups in the rate table *)

Lemma matches_rate_key s t d r :
  CurrencyExchangeRateManager.matches s t d r = true <-> rate_key r = (s, t, d).
Proof.
  unfold CurrencyExchangeRateManager.matches, rate_key.
  rewrite !andb_true_iff, !String.eqb_eq, Z.eqb_eq.
  split.
  - intros [[-> ->] ->]. reflexivity.
  - intros H. injection H as -> -> ->. auto.
Qed.

Lemma same_key_rate_key s t d r :
  CurrencyExchangeRateManager.same_key s t d r = true
  <-> rate_key r = (Currency.code s, Currency.code t, d).
Proof.
  unfold CurrencyExchangeRateManager.same_key, rate_key.
  rewrite !andb_true_iff, !String.eqb_eq, Z.eqb_eq.
  split.
  - intros [[-> ->] ->]. reflexivity.
  - intros H. injection H as -> -> ->. auto.
Qed.

Lemma filter_key_absent (f : CurrencyExchangeRate.t -> bool) k rows :
  (forall r, f r = true <-> rate_key r = k) ->
  (forall row, In row rows -> rate_key row <> k) ->
  List.filter f rows = [].
Proof.
  intros Hf. induction rows as [|r rows IH]; intros Hno; simpl; [reflexivity|].
  destruct (f r) eqn:E.
  - exfalso. apply (Hno r); [now left | now apply Hf].
  - apply IH. intros row Hin. apply Hno. now right.
Qed.

Lemma filter_key_unique (f : CurrencyExchangeRate.t -> bool) k rows row :
  (forall r, f r = true <-> rate_key r = k) ->
  unique_exchange_rate_per_day rows ->
  In row rows -> rate_key row = k ->
  List.filter f rows = [row].
Proof.
  intros Hf. unfold unique_exchange_rate_per_day.
  induction rows as [|r rows IH]; intros Hnd Hin Hk; [destruct Hin|].
  simpl in Hnd. apply List.NoDup_cons_iff in Hnd as [Hnotin Hnd].
  simpl. destruct Hin as [-> | Hin].
  - assert (f row = true) as -> by now apply Hf.
    f_equal. apply filter_key_absent with (k := k); [exact Hf|].
    intros r' Hr' Heq. apply Hnotin. rewrite Hk, <- Heq. now apply in_map.
  - destruct (f r) eqn:E.
    + exfalso. apply Hnotin. apply Hf in E. rewrite E, <- Hk. now apply in_map.
    + now apply IH.
Qed.

Lemma filter_pair_stored db s t d v :
  unique_exchange_rate_per_day (rates db) ->
  stored db s t d v ->
  exists row, CurrencyExchangeRateManager.filter_pair db s t d = [row]
              /\ CurrencyExchangeRate.rate_value row = v.
Proof.
  intros Hu (row & Hin & Hk & Hv). exists row. split; [|exact Hv].
  unfold CurrencyExchangeRateManager.filter_pair.
  apply filter_key_unique with (k := (s, t, d)); auto.
  intros r. apply matches_rate_key.
Qed.

Lemma filter_pair_no_record db s t d :
  no_record db s t d -> CurrencyExchangeRateManager.filter_pair db s t d = [].
Proof.
  intros Hno. unfold CurrencyExchangeRateManager.filter_pair.
  apply filter_key_absent with (k := (s, t, d)); auto.
  intros r. apply matches_rate_key.
Qed.

Lemma get_rate_inverse db a b d r :
  unique_exchange_rate_per_day (rates db) ->
  a <> b -> stored db a b d r -> no_record db b a d ->
  CurrencyExchangeRateManager.get_rate db b a d = quotient Decimal.one r.
Proof.
  intros Hu Hab Hst Hno. unfold CurrencyExchangeRateManager.get_rate.
  destruct (String.eqb b a) eqn:E; [apply String.eqb_eq in E; congruence|].
  rewrite (filter_pair_no_record _ _ _ _ Hno). simpl.
  destruct (filter_pair_stored _ _ _ _ _ Hu Hst) as (row & -> & <-).
  reflexivity.
Qed.

Lemma get_rate_cross db x y d p q :
  unique_exchange_rate_per_day (rates db) ->
  x <> y ->
  x <> CurrencyExchangeRateManager.BASE_CURRENCY_CODE ->
  y <> CurrencyExchangeRateManager.BASE_CURRENCY_CODE ->
  no_record db x y d -> no_record db y x d ->
  stored db CurrencyExchangeRateManager.BASE_CURRENCY_CODE x d p ->
  stored db CurrencyExchangeRateManager.BASE_CURRENCY_CODE y d q ->
  CurrencyExchangeRateManager.get_rate db x y d = quotient q p.
Proof.
  intros Hu Hxy Hxb Hyb Hno1 Hno2 Hp Hq.
  unfold CurrencyExchangeRateManager.get_rate.
  apply String.eqb_neq in Hxy, Hxb, Hyb. rewrite Hxy.
  rewrite (filter_pair_no_record _ _ _ _ Hno1),
          (filter_pair_no_record _ _ _ _ Hno2). simpl.
  unfold CurrencyExchangeRateManager._calculate_cross_rate.
  rewrite Hxb, Hyb.
  destruct (filter_pair_stored _ _ _ _ _ Hu Hp) as (rp & -> & <-).
  destruct (filter_pair_stored _ _ _ _ _ Hu Hq) as (rq & -> & <-).
  reflexivity.
Qed.

Lemma get_rate_cross_missing db x y d :
  x <> y ->
  x <> CurrencyExchangeRateManager.BASE_CURRENCY_CODE ->
  y <> CurrencyExchangeRateManager.BASE_CURRENCY_CODE ->
  no_record db x y d -> no_record db y x d ->
  no_record db CurrencyExchangeRateManager.BASE_CURRENCY_CODE x d
  \/ no_record db CurrencyExchangeRateManager.BASE_CURRENCY_CODE y d ->
  CurrencyExchangeRateManager.get_rate db x y d = Ok None.
Proof.
  intros Hxy Hxb Hyb Hno1 Hno2 Hleg.
  unfold CurrencyExchangeRateManager.get_rate.
  apply String.eqb_neq in Hxy, Hxb, Hyb. rewrite Hxy.
  rewrite (filter_pair_no_record _ _ _ _ Hno1),
          (filter_pair_no_record _ _ _ _ Hno2). simpl.
  unfold CurrencyExchangeRateManager._calculate_cross_rate.
  rewrite Hxb, Hyb.
  destruct Hleg as [H | H]; rewrite (filter_pair_no_record _ _ _ _ H); simpl.
  - reflexivity.
  - now destruct (first _).
Qed.

(** ** [store_rate]: insert if absent *)



Lemma unique_snoc rows r :
  unique_exchange_rate_per_day rows ->
  (forall row, In row rows -> rate_key row <> rate_key r) ->
  unique_exchange_rate_per_day (rows ++ [r]).
Proof.
  unfold unique_exchange_rate_per_day. intros Hu Hno.
  rewrite map_app. simpl.
  apply List.NoDup_app; [exact Hu | repeat constructor; intros [] |].
  intros k Hk [<- | []].
  apply in_map_iff in Hk as (row & Hrow & Hin). now apply (Hno row).
Qed.

Lemma existsb_same_key s t d rows :
  existsb (CurrencyExchangeRateManager.same_key s t d) rows = true
  <-> exists row, In row rows
                  /\ rate_key row = (Currency.code s, Currency.code t, d).
Proof.
  rewrite existsb_exists. split; intros (row & Hin & H); exists row;
    (split; [exact Hin | now apply same_key_rate_key]).
Qed.





(** No row for the key at the [INSERT]: the new row is appended, with the
    value as the column holds it; the object returned keeps the value
    given. *)
Lemma store_rate_fresh db racing s t d v p v' :
  (forall r, In r (rates db ++ racing) ->
     rate_key r <> (Currency.code s, Currency.code t, d)) ->
  CurrencyExchangeRateManager.format_number v
    CurrencyExchangeRateManager.rate_value_max_digits
    CurrencyExchangeRateManager.rate_value_decimal_places
  = Decimal.Value v' ->
  CurrencyExchangeRateManager.store_rate db racing s t d v p
  = (Ok (CurrencyExchangeRate.mk s t p d v, true),
     mkDB (currencies db) (providers db)
       ((rates db ++ racing) ++ [CurrencyExchangeRate.mk s t p d v'])).
Proof.
  intros Hno Hfit.
  unfold CurrencyExchangeRateManager.store_rate,
    CurrencyExchangeRateManager.get_or_create.
  rewrite (filter_key_absent _ (Currency.code s, Currency.code t, d) (rates db));
    [| intros r; apply same_key_rate_key
     | intros r Hr; apply Hno, in_or_app; now left].
  simpl. unfold CurrencyExchangeRateManager.create. simpl. rewrite Hfit.
  destruct (existsb _ _) eqn:E; [|reflexivity].
  apply existsb_same_key in E as (row & Hin & Hk). now destruct (Hno row Hin).
Qed.

(** ** The fallback sweep *)

Lemma dict_set_fresh {V : Type} (d : list (string * V)) k v :
  ~ In k (map fst d) -> dict_set d k v = d ++ [(k, v)].
Proof.
  induction d as [|[k' v'] d IH]; simpl; intros Hk; [reflexivity|].
  destruct (String.eqb k' k) eqn:E.
  - apply String.eqb_eq in E. tauto.
  - f_equal. apply IH. tauto.
Qed.

Section SweepFacts.
Context {World : Type}.
Variable ADAPTER_REGISTRY :
  list (string * (option string -> CurrencyAdapter World)).
Variables (src tgt : string) (d : date).

#[local] Abbreviation attempt := (ProviderManagerService.attempt ADAPTER_REGISTRY).
#[local] Abbreviation sweep := (ProviderManagerService.sweep ADAPTER_REGISTRY).
#[local] Abbreviation all_fail := (all_fail ADAPTER_REGISTRY src tgt d).

Lemma log_failure_ok p e (st : State World) :
  fst (ProviderManagerService.log_failure p e st) = Ok tt.
Proof.
  unfold ProviderManagerService.log_failure.
  now destruct (is_APIClientError e).
Qed.

Lemma sweep_cons_fail n p ps errs e (st st1 : State World) :
  attempt p src tgt d st = (Raise e, st1) ->
  sweep n src tgt d (p :: ps) errs st
  = sweep n src tgt d ps
      (dict_set errs (Provider.name p)
         (ProviderManagerService.failure_reason e))
      (snd (ProviderManagerService.log_failure p e st1)).
Proof.
  intros H. simpl. unfold try_except. rewrite H. unfold bind.
  pose proof (log_failure_ok p e st1) as Hl.
  destruct (ProviderManagerService.log_failure p e st1) as [r s].
  simpl in *. now subst r.
Qed.

Lemma sweep_cons_ok n p ps errs q (st st1 : State World) :
  attempt p src tgt d st = (Ok q, st1) ->
  sweep n src tgt d (p :: ps) errs st = (Ok q, st1).
Proof. intros H. simpl. unfold try_except. now rewrite H. Qed.

Lemma all_fail_names ps (st st' : State World) fs :
  all_fail ps st fs st' -> map fst fs = map Provider.name ps.
Proof. induction 1; simpl; congruence. Qed.

Lemma sweep_all_fail n ps (st st' : State World) fs :
  all_fail ps st fs st' ->
  forall errs,
    sweep n src tgt d ps errs st
    = (Raise (AllProvidersFailedError (all_failed_message src tgt d n)
                (fold_left
                   (fun acc f =>
                      dict_set acc (fst f)
                        (ProviderManagerService.failure_reason (snd f)))
                   fs errs)), st').
Proof.
  induction 1 as [st | p ps st e st1 fs st2 Hatt Hrest IH]; intros errs.
  - reflexivity.
  - rewrite (sweep_cons_fail _ _ _ _ _ _ _ Hatt). apply IH.
Qed.

Lemma fold_dict_set_fresh (fs : list (string * exn)) :
  forall errs : list (string * Message),
    List.NoDup (map fst errs ++ map fst fs) ->
    fold_left
      (fun acc f =>
         dict_set acc (fst f) (ProviderManagerService.failure_reason (snd f)))
      fs errs
    = errs ++ failure_map fs.
Proof.
  induction fs as [|[k e] fs IH]; intros errs Hnd; simpl.
  - now rewrite app_nil_r.
  - simpl in Hnd. rewrite dict_set_fresh.
    + rewrite IH.
      * now rewrite <- app_assoc.
      * rewrite map_app. simpl. now rewrite <- app_assoc.
    + intros Hin. apply List.NoDup_remove_2 in Hnd. apply Hnd.
      apply in_or_app. now left.
Qed.

(** When every attempt fails the loop ends in the aggregate error, whose
    failure map lists the providers in the order of the attempts. *)
Lemma sweep_all_fail_map n ps (st st' : State World) fs :
  List.NoDup (map Provider.name ps) ->
  all_fail ps st fs st' ->
  sweep n src tgt d ps [] st
  = (Raise (AllProvidersFailedError (all_failed_message src tgt d n)
              (failure_map fs)), st').
Proof.
  intros Hnd Hall. rewrite (sweep_all_fail n _ _ _ _ Hall).
  rewrite fold_dict_set_fresh; [reflexivity|].
  simpl. now rewrite (all_fail_names _ _ _ _ Hall).
Qed.

(** The first provider whose attempt succeeds ends the loop: its quote is
    the result, whatever follows it in the list. *)
Lemma sweep_first_success n pre p post (st st1 st2 : State World) fs q :
  all_fail pre st fs st1 ->
  attempt p src tgt d st1 = (Ok q, st2) ->
  forall errs, sweep n src tgt d (pre ++ p :: post) errs st = (Ok q, st2).
Proof.
  induction 1 as [st | p0 ps st e st1' fs st1 Hatt Hrest IH];
    intros Hok errs; simpl app.
  - now apply sweep_cons_ok.
  - rewrite (sweep_cons_fail _ _ _ _ _ _ _ Hatt). now apply IH.
Qed.

End SweepFacts.

(** ** The order of the active providers *)

Lemma insert_by_priority_perm p l :
  Permutation (ProviderManager.insert_by_priority p l) (p :: l).
Proof.
  induction l as [|q l IH]; simpl; [reflexivity|].
  destruct (Provider.priority p <=? Provider.priority q); [reflexivity|].
  rewrite IH. apply perm_swap.
Qed.

Lemma order_by_priority_perm l :
  Permutation (ProviderManager.order_by_priority l) l.
Proof.
  induction l as [|p l IH]; simpl; [reflexivity|].
  rewrite insert_by_priority_perm. now constructor.
Qed.

Lemma insert_by_priority_sorted p l :
  Sorted (fun a b => Provider.priority a <= Provider.priority b) l ->
  Sorted (fun a b => Provider.priority a <= Provider.priority b)
    (ProviderManager.insert_by_priority p l).
Proof.
  induction 1 as [|q l Hs IH Hhd]; simpl.
  - repeat constructor.
  - destruct (Provider.priority p <=? Provider.priority q) eqn:E.
    + apply Z.leb_le in E. repeat constructor; assumption.
    + apply Z.leb_gt in E. constructor; [exact IH|].
      destruct l as [|r l]; simpl.
      * constructor. lia.
      * destruct (Provider.priority p <=? Provider.priority r);
          constructor; [lia|]. now inversion Hhd.
Qed.

(** [get_active_ordered] returns the active rows, each once, in ascending
    priority. *)
Lemma get_active_ordered_sorted db :
  Sorted (fun a b => Provider.priority a <= Provider.priority b)
    (ProviderManager.get_active_ordered db).
Proof.
  unfold ProviderManager.get_active_ordered, ProviderManager.order_by_priority.
  induction (List.filter Provider.is_active (providers db)); simpl.
  - constructor.
  - now apply insert_by_priority_sorted.
Qed.

Lemma get_active_ordered_perm db :
  Permutation (ProviderManager.get_active_ordered db)
    (List.filter Provider.is_active (providers db)).
Proof. apply order_by_priority_perm. Qed.

Lemma get_active_ordered_In db p :
  In p (ProviderManager.get_active_ordered db)
  <-> In p (providers db) /\ Provider.is_active p = true.
Proof.
  rewrite <- filter_In. split; apply Permutation_in;
    [| symmetry]; apply get_active_ordered_perm.
Qed.

Lemma NoDup_map_filter {A B : Type} (f : A -> B) (g : A -> bool) l :
  List.NoDup (map f l) -> List.NoDup (map f (List.filter g l)).
Proof.
  induction l as [|a l IH]; simpl; intros H; [constructor|].
  apply List.NoDup_cons_iff in H as [Hnotin Hnd].
  destruct (g a); simpl; [|now apply IH].
  constructor; [|now apply IH].
  intros Hin. apply Hnotin. apply in_map_iff in Hin as (x & Hx & Hin).
  apply filter_In in Hin as [Hin _]. rewrite <- Hx. now apply in_map.
Qed.

Lemma get_active_ordered_NoDup db :
  List.NoDup (map Provider.name (providers db)) ->
  List.NoDup (map Provider.name (ProviderManager.get_active_ordered db)).
Proof.
  intros H.
  apply (Permutation_NoDup
           (l := map Provider.name
                   (List.filter Provider.is_active (providers db)))).
  - apply Permutation_map. symmetry. apply get_active_ordered_perm.
  - now apply NoDup_map_filter.
Qed.

(** Rows of equal priority keep the order of the table. *)
Lemma insert_by_priority_stable k p l :
  Sorted (fun a b => Provider.priority a <= Provider.priority b) l ->
  List.filter (fun q => Provider.priority q =? k)
    (ProviderManager.insert_by_priority p l)
  = List.filter (fun q => Provider.priority q =? k) (p :: l).
Proof.
  induction 1 as [|q l Hs IH Hhd]; [reflexivity|].
  simpl ProviderManager.insert_by_priority.
  destruct (Provider.priority p <=? Provider.priority q) eqn:E; [reflexivity|].
  apply Z.leb_gt in E.
  simpl. rewrite IH. simpl.
  destruct (Provider.priority p =? k) eqn:Ep;
    destruct (Provider.priority q =? k) eqn:Eq; try reflexivity.
  apply Z.eqb_eq in Ep, Eq. lia.
Qed.

Lemma get_active_ordered_stable db k :
  List.filter (fun q => Provider.priority q =? k)
    (ProviderManager.get_active_ordered db)
  = List.filter (fun q => Provider.priority q =? k)
      (List.filter Provider.is_active (providers db)).
Proof.
  unfold ProviderManager.get_active_ordered, ProviderManager.order_by_priority.
  induction (List.filter Provider.is_active (providers db)) as [|p l IH];
    [reflexivity|].
  simpl fold_right. rewrite insert_by_priority_stable.
  - simpl. now rewrite IH.
  - clear IH. induction l; simpl; [constructor|].
    now apply insert_by_priority_sorted.
Qed.

(** ** What an attempt changes *)

Section AttemptFacts.
Context {World : Type}.
Variable ADAPTER_REGISTRY :
  list (string * (option string -> CurrencyAdapter World)).
Variables (src tgt : string) (d : date).

#[local] Abbreviation get_adapter :=
  (ProviderManagerService._get_adapter ADAPTER_REGISTRY).
#[local] Abbreviation call_adapter := (ProviderManagerService.call_adapter).
#[local] Abbreviation attempt1 :=
  (ProviderManagerService.attempt ADAPTER_REGISTRY).

Lemma get_adapter_state p (st : State World) :
  st_db (snd (get_adapter p st)) = st_db st
  /\ st_calls (snd (get_adapter p st)) = st_calls st
  /\ st_world (snd (get_adapter p st)) = st_world st
  /\ st_log (snd (get_adapter p st)) = st_log st.
Proof.
  unfold ProviderManagerService._get_adapter.
  destruct (st_adapter_cache st !! _); [now simpl|].
  destruct (dict_get _ _); now simpl.
Qed.

Lemma call_adapter_state p a (st : State World) :
  fst (call_adapter p a src tgt d st)
  = fst (get_exchange_rate_data a src tgt d (st_world st))
  /\ st_world (snd (call_adapter p a src tgt d st))
     = snd (get_exchange_rate_data a src tgt d (st_world st))
  /\ st_db (snd (call_adapter p a src tgt d st)) = st_db st
  /\ st_calls (snd (call_adapter p a src tgt d st))
     = st_calls st ++ [Provider.name p].
Proof.
  unfold ProviderManagerService.call_adapter. simpl.
  destruct (get_exchange_rate_data a src tgt d (st_world st)). now simpl.
Qed.

(** An attempt asks at most the adapter of its own provider, and leaves the
    database alone. *)
Lemma attempt_state p (st : State World) :
  st_db (snd (attempt1 p src tgt d st)) = st_db st
  /\ (st_calls (snd (attempt1 p src tgt d st)) = st_calls st
      \/ st_calls (snd (attempt1 p src tgt d st))
         = st_calls st ++ [Provider.name p]).
Proof.
  unfold ProviderManagerService.attempt, bind, logger, modify, ret.
  pose proof (get_adapter_state p (add_log
    (mkLog DEBUG [Lit "Trying provider: "; FStr (Provider.name p)]) st))
    as (Hdb & Hc & _).
  destruct (get_adapter p _) as [[a|e] st1]; simpl in *.
  - pose proof (call_adapter_state p a st1) as (_ & _ & Hdb' & Hc').
    destruct (call_adapter p a src tgt d st1) as [[q|e] st2]; simpl in *.
    + split; [congruence|]. right. congruence.
    + split; [congruence|]. right. congruence.
  - split; [congruence|]. left. congruence.
Qed.

Lemma log_failure_state p e (st : State World) :
  st_db (snd (ProviderManagerService.log_failure p e st)) = st_db st
  /\ st_calls (snd (ProviderManagerService.log_failure p e st)) = st_calls st.
Proof.
  unfold ProviderManagerService.log_failure.
  now destruct (is_APIClientError e).
Qed.

Lemma all_fail_state ps (st st' : State World) fs :
  all_fail ADAPTER_REGISTRY src tgt d ps st fs st' ->
  st_db st' = st_db st
  /\ exists called, st_calls st' = st_calls st ++ called
                    /\ incl called (map Provider.name ps).
Proof.
  induction 1 as [st | p ps st e st1 fs st2 Hatt Hrest [IHdb (called & IHc & IHi)]].
  - split; [reflexivity|]. exists []. split; [now rewrite app_nil_r|].
    intros x [].
  - pose proof (attempt_state p st) as (Hdb & Hc). rewrite Hatt in Hdb, Hc.
    simpl in Hdb, Hc.
    pose proof (log_failure_state p e st1) as (Hdb' & Hc').
    split; [congruence|].
    rewrite IHc, Hc'. destruct Hc as [-> | ->].
    + exists called. split; [reflexivity|]. now apply incl_tl.
    + exists (Provider.name p :: called). split; [now rewrite <- app_assoc|].
      simpl. apply incl_cons; [now left | now apply incl_tl].
Qed.

End AttemptFacts.

(** The reasons of the failure map, read off the two [except] clauses of
    the loop: the text of an [APIClientError] as it is, the text of any
    other exception after the words "Unexpected error: ". *)
Lemma failure_map_reasons (fs : list (string * exn)) :
  Forall2
    (fun f entry =>
       fst entry = fst f
       /\ match snd f with
          | APIClientError msg => snd entry = msg
          | e => snd entry = Lit "Unexpected error: " :: str_exn e
          end)
    fs (failure_map fs).
Proof.
  induction fs as [|[name e] fs IH]; simpl; constructor; [|exact IH].
  simpl. split; [reflexivity|]. now destruct e.
Qed.

(** C2. A fetch with no forced provider. If no provider is active, the
    orchestrator raises the "No active providers configured" error and the
    state is untouched: no adapter was asked. If there are [n >= 1] active
    providers and the attempt on each of them raises ([fs] lists the names
    with the exceptions, in the order of the attempts), it raises the
    aggregate error "All n providers failed ..." whose failure map [errors]
    has, in that order, exactly one entry per provider, keyed by the
    provider's name and holding the reason of that provider's failure: the
    text of its exception if it is an [APIClientError], and that text after
    the words "Unexpected error: " otherwise. Provider names are unique, as
    the column is. *)
Theorem all_providers_failed_aggregate {World : Type}
    (reg : list (string * (option string -> CurrencyAdapter World)))
    src tgt d pn (st : State World) :
  truthy pn = None ->
  List.NoDup (map Provider.name (providers (st_db st))) ->
  (ProviderManager.get_active_ordered (st_db st) = [] ->
   ProviderManagerService.get_exchange_rate_data reg src tgt d pn st
   = (Raise (AllProvidersFailedError
               [Lit "No active providers configured"]
               [("configuration"%string,
                 [Lit "No active providers found in database"])]), st))
  /\ (forall fs st',
        ProviderManager.get_active_ordered (st_db st) <> [] ->
        all_fail reg src tgt d (ProviderManager.get_active_ordered (st_db st))
          st fs st' ->
        exists errors,
          ProviderManagerService.get_exchange_rate_data reg src tgt d pn st
          = (Raise (AllProvidersFailedError
                      [Lit "All ";
                       FInt (Z.of_nat
                               (length (ProviderManager.get_active_ordered
                                          (st_db st))));
                       Lit " providers failed to fetch rate for ";
                       FStr src; Lit "→"; FStr tgt; Lit " on "; FDate d]
                      errors), st')
          /\ length errors
             = length (ProviderManager.get_active_ordered (st_db st))
          /\ map fst errors
             = map Provider.name (ProviderManager.get_active_ordered (st_db st))
          /\ Forall2
               (fun f entry =>
                  fst entry = fst f
                  /\ match snd f with
                     | APIClientError msg => snd entry = msg
                     | e => snd entry = Lit "Unexpected error: " :: str_exn e
                     end)
               fs errors).
Proof.
  intros Hpn Hnd.
  unfold ProviderManagerService.get_exchange_rate_data. rewrite Hpn.
  unfold bind, ProviderManagerService._get_active_providers, gets.
  split.
  - intros ->. reflexivity.
  - intros fs st' Hne Hall. exists (failure_map fs).
    pose proof (all_fail_names _ _ _ _ _ _ _ _ Hall) as Hnames.
    destruct (ProviderManager.get_active_ordered (st_db st)) as [|p ps] eqn:E;
      [congruence|].
    split; [|split; [|split]].
    + apply sweep_all_fail_map; [|exact Hall].
      rewrite <- E. now apply get_active_ordered_NoDup.
    + unfold failure_map. rewrite length_map.
      rewrite <- (length_map fst fs), Hnames. apply length_map.
    + rewrite <- Hnames. unfold failure_map. rewrite map_map. reflexivity.
    + apply failure_map_reasons.
Qed.

(** ** A forced provider *)

Lemma truthy_nonempty name : name <> ""%string -> truthy (Some name) = Some name.
Proof.
  intros H. unfold truthy. apply String.eqb_neq in H. now rewrite H.
Qed.

Lemma get_active_by_name_absent db name :
  (forall p, In p (providers db) -> Provider.name p = name ->
             Provider.is_active p = false) ->
  ProviderManager.get_active_by_name db name = Raise (DoesNotExist ProviderModel).
Proof.
  intros H. unfold ProviderManager.get_active_by_name.
  induction (providers db) as [|p l IH]; [reflexivity|]. simpl.
  destruct (String.eqb (Provider.name p) name) eqn:E; simpl.
  - apply String.eqb_eq in E. rewrite (H p (or_introl eq_refl) E).
    apply IH. intros q Hq. apply H. now right.
  - apply IH. intros q Hq. apply H. now right.
Qed.

Lemma get_active_by_name_found db name p :
  List.NoDup (map Provider.name (providers db)) ->
  In p (providers db) -> Provider.name p = name ->
  Provider.is_active p = true ->
  ProviderManager.get_active_by_name db name = Ok p.
Proof.
  intros Hnd Hin Hn Ha. unfold ProviderManager.get_active_by_name.
  assert (List.filter
            (fun q => String.eqb (Provider.name q) name && Provider.is_active q)
            (providers db) = [p]) as ->; [|reflexivity].
  induction (providers db) as [|q l IH]; [destruct Hin|].
  simpl in Hnd. apply List.NoDup_cons_iff in Hnd as [Hnotin Hnd]. simpl.
  destruct Hin as [-> | Hin].
  - rewrite Hn, String.eqb_refl, Ha. simpl. f_equal.
    clear IH. induction l as [|r l IH]; [reflexivity|]. simpl.
    destruct (String.eqb (Provider.name r) name) eqn:E.
    + apply String.eqb_eq in E. exfalso. apply Hnotin. left. congruence.
    + simpl. apply IH.
      * intros H. apply Hnotin. now right.
      * now apply List.NoDup_cons_iff in Hnd.
  - destruct (String.eqb (Provider.name q) name) eqn:E.
    + apply String.eqb_eq in E. exfalso. apply Hnotin.
      rewrite E, <- Hn. now apply in_map.
    + simpl. now apply IH.
Qed.

(** C3, as amended. A call that forces a provider by a non-empty name
    [name]: if no active provider has that name, the call raises
    [ValueError] at once and the state is untouched, so no adapter was
    asked; otherwise only the adapter of that provider is asked, and what it
    returns or raises is the outcome of the call as it is: an exception of
    the adapter reaches the caller unchanged, and so is not the aggregate
    error of the sweep. A forced name that is empty is no forced provider:
    the call is the sweep over the active providers. *)
Theorem forced_provider_only {World : Type}
    (reg : list (string * (option string -> CurrencyAdapter World)))
    src tgt d name (st : State World) :
  name <> ""%string ->
  List.NoDup (map Provider.name (providers (st_db st))) ->
  ((forall p, In p (providers (st_db st)) -> Provider.name p = name ->
              Provider.is_active p = false) ->
   ProviderManagerService.get_exchange_rate_data reg src tgt d (Some name) st
   = (Raise (ValueError
               [Lit "Provider '"; FStr name; Lit "' not found or not active"]),
      st))
  /\ (forall p,
        In p (providers (st_db st)) -> Provider.name p = name ->
        Provider.is_active p = true ->
        (forall e st1,
           ProviderManagerService._get_adapter reg p st = (Raise e, st1) ->
           ProviderManagerService.get_exchange_rate_data reg src tgt d
             (Some name) st = (Raise e, st1)
           /\ st_calls st1 = st_calls st)
        /\ (forall a st1,
              ProviderManagerService._get_adapter reg p st = (Ok a, st1) ->
              let answer :=
                get_exchange_rate_data a src tgt d (st_world st) in
              let run :=
                ProviderManagerService.get_exchange_rate_data reg src tgt d
                  (Some name) st in
              fst run = fst answer
              /\ (forall e, fst answer = Raise e -> fst run = Raise e)
              /\ st_world (snd run) = snd answer
              /\ st_db (snd run) = st_db st
              /\ st_calls (snd run) = st_calls st ++ [name]))
  /\ ProviderManagerService.get_exchange_rate_data reg src tgt d
       (Some ""%string) st
     = ProviderManagerService.get_exchange_rate_data reg src tgt d None st.
Proof.
  intros Hname Hnd.
  split; [|split]; [| |reflexivity];
    unfold ProviderManagerService.get_exchange_rate_data;
    rewrite (truthy_nonempty _ Hname); unfold bind, try_except.
  - intros Habs. now rewrite (get_active_by_name_absent _ _ Habs).
  - intros p Hin Hn Ha.
    rewrite (get_active_by_name_found _ _ _ Hnd Hin Hn Ha).
    pose proof (get_adapter_state reg p st) as (Hdb & Hc & Hw & _).
    split.
    + intros e st1 Hget. rewrite Hget in *. now simpl in *.
    + intros a st1 Hget. rewrite Hget in *. simpl in Hdb, Hc, Hw.
      pose proof (call_adapter_state src tgt d p a st1) as (Hr & Hw' & Hdb' & Hc').
      rewrite Hw in Hr, Hw'. rewrite Hc, Hn in Hc'.
      cbv zeta. repeat split; congruence.
Qed.

(** ** Quotes answered from the store *)

Lemma upper_ascii_idempotent c : upper_ascii (upper_ascii c) = upper_ascii c.
Proof.
  destruct c as [[] [] [] [] [] [] [] []]; vm_compute; reflexivity.
Qed.

Lemma upper_idempotent s : upper (upper s) = upper s.
Proof.
  induction s as [|c s IH]; simpl; [reflexivity|].
  now rewrite upper_ascii_idempotent, IH.
Qed.

Lemma upper_length s : String.length (upper s) = String.length s.
Proof. induction s as [|c s IH]; simpl; congruence. Qed.

Lemma new_valid s t d rate pn :
  String.length s = 3%nat -> String.length t = 3%nat ->
  Decimal.is_positive rate = true ->
  ExchangeRateData.new s t d rate pn
  = Ok (ExchangeRateData.mk (upper s) (upper t) d rate pn).
Proof.
  intros Hs Ht Hr. unfold ExchangeRateData.new, ExchangeRateData.code_ok.
  rewrite !upper_length, Hs, Ht, Hr. reflexivity.
Qed.

Lemma new_provider_name s t d rate pn q :
  ExchangeRateData.new s t d rate pn = Ok q ->
  ExchangeRateData.provider_name q = pn
  /\ ExchangeRateData.rate_value q = rate
  /\ ExchangeRateData.valuation_date q = d.
Proof.
  unfold ExchangeRateData.new.
  destruct (List.filter _ _); [|discriminate].
  intros H. injection H as <-. now simpl.
Qed.

(** On a hit in the store the service builds its answer from the stored
    value and asks no provider. *)
Lemma get_exchange_rate_hit {World : Type}
    (reg : list (string * (option string -> CurrencyAdapter World)))
    src tgt d provider (st : State World) rate :
  CurrencyExchangeRateManager.get_rate (st_db st) (upper src) (upper tgt) d
  = Ok (Some rate) ->
  let run := ExchangeRateService.get_exchange_rate reg src tgt d provider st in
  fst run = ExchangeRateData.new (upper src) (upper tgt) d rate None
  /\ st_db (snd run) = st_db st
  /\ st_world (snd run) = st_world st
  /\ st_calls (snd run) = st_calls st.
Proof.
  intros H. unfold ExchangeRateService.get_exchange_rate, bind.
  rewrite H. simpl. now repeat split.
Qed.

(** Conversely, an answer that names a provider was fetched: the store had
    no direct, inverse or cross rate for the pair. *)
Lemma named_quote_was_fetched {World : Type}
    (reg : list (string * (option string -> CurrencyAdapter World)))
    src tgt d provider (st st' : State World) q n :
  ExchangeRateService.get_exchange_rate reg src tgt d provider st = (Ok q, st') ->
  ExchangeRateData.provider_name q = Some n ->
  CurrencyExchangeRateManager.get_rate (st_db st) (upper src) (upper tgt) d
  = Ok None.
Proof.
  intros Hrun Hn.
  destruct (CurrencyExchangeRateManager.get_rate (st_db st) (upper src)
              (upper tgt) d) as [[rate|]|e] eqn:E; [exfalso | reflexivity | exfalso].
  - pose proof (get_exchange_rate_hit reg src tgt d provider st rate E)
      as (Hfst & _). rewrite Hrun in Hfst. simpl in Hfst. symmetry in Hfst.
    apply new_provider_name in Hfst as (Hpn & _). congruence.
  - unfold ExchangeRateService.get_exchange_rate, bind in Hrun.
    rewrite E in Hrun. discriminate.
Qed.

(** C10. When the store answers a request (by a direct, an inverse or a
    cross rate), the quote that [get_exchange_rate] returns has
    [provider_name = None]; it carries the stored value, and neither the
    providers nor the database are touched. The codes have three characters
    and the rate is positive, as the quote's validation requires. *)
Theorem store_answer_has_no_provider_name {World : Type}
    (reg : list (string * (option string -> CurrencyAdapter World)))
    src tgt d provider (st : State World) rate :
  CurrencyExchangeRateManager.get_rate (st_db st) (upper src) (upper tgt) d
  = Ok (Some rate) ->
  String.length src = 3%nat -> String.length tgt = 3%nat ->
  Decimal.is_positive rate = true ->
  exists q st',
    ExchangeRateService.get_exchange_rate reg src tgt d provider st
    = (Ok q, st')
    /\ ExchangeRateData.provider_name q = None
    /\ q = ExchangeRateData.mk (upper src) (upper tgt) d rate None
    /\ st_db st' = st_db st
    /\ st_world st' = st_world st
    /\ st_calls st' = st_calls st.
Proof.
  intros Hhit Hs Ht Hr.
  pose proof (get_exchange_rate_hit reg src tgt d provider st rate Hhit)
    as (Hfst & Hdb & Hw & Hc).
  rewrite new_valid in Hfst by (rewrite ?upper_length; assumption).
  rewrite !upper_idempotent in Hfst.
  destruct (ExchangeRateService.get_exchange_rate reg src tgt d provider st)
    as [r st'].
  simpl in *. subst r.
  exists (ExchangeRateData.mk (upper src) (upper tgt) d rate None), st'.
  now repeat split.
Qed.

(** ** Persisting a fetched quote *)

Lemma get_by_code_cases db code :
  List.NoDup (map Currency.code (currencies db)) ->
  (CurrencyManager.get_by_code db code = Raise (DoesNotExist CurrencyModel)
   /\ unknown_currency db code)
  \/ (exists c, CurrencyManager.get_by_code db code = Ok c
                /\ In c (currencies db) /\ Currency.code c = upper code).
Proof.
  unfold CurrencyManager.get_by_code, unknown_currency.
  induction (currencies db) as [|c l IH]; simpl; intros Hnd.
  - left. split; [reflexivity | intros c []].
  - apply List.NoDup_cons_iff in Hnd as [Hnotin Hnd].
    destruct (String.eqb (Currency.code c) (upper code)) eqn:E.
    + apply String.eqb_eq in E. right. exists c.
      assert (List.filter
                (fun c0 => String.eqb (Currency.code c0) (upper code)) l = [])
        as ->.
      { clear IH Hnd. induction l as [|c' l IH]; [reflexivity|]. simpl.
        destruct (String.eqb (Currency.code c') (upper code)) eqn:E'.
        - apply String.eqb_eq in E'. exfalso. apply Hnotin. left. congruence.
        - apply IH. intros H. apply Hnotin. now right. }
      simpl. auto.
    + apply String.eqb_neq in E.
      destruct (IH Hnd) as [[Hget Hno] | (c' & Hget & Hin & Hc)].
      * left. split; [exact Hget|]. intros c0 [<- | H0]; auto.
      * right. exists c'. auto.
Qed.

(** ** The theorems at concrete inputs *)

Lemma forced_provider_only_witness :
  ProviderManagerService.get_exchange_rate_data Scenario.fallback_registry
    "USD" "EUR" Scenario.day (Some "nope"%string)
    (Scenario.state_of Scenario.fallback_db)
  = (Raise (ValueError
              [Lit "Provider '"; FStr "nope"; Lit "' not found or not active"]),
     Scenario.state_of Scenario.fallback_db).
Proof.
  apply (forced_provider_only Scenario.fallback_registry "USD" "EUR"
           Scenario.day "nope" (Scenario.state_of Scenario.fallback_db)).
  - discriminate.
  - simpl. solve_NoDup.
  - simpl. intros p [<- | [<- | [<- | []]]]; discriminate.
Defined.

(** C3, the claim as stated fails for the empty name: no active provider
    is named [""], yet the call does not fail. It sweeps the active
    providers in their order, asks the adapters of "p1" (which fails) and
    of "p2", and returns the quote of "p2". *)
Lemma empty_forced_name_is_swept :
  (forall p, In p (providers Scenario.fallback_db) ->
             Provider.name p <> ""%string)
  /\ fst (ProviderManagerService.get_exchange_rate_data
            Scenario.fallback_registry "USD" "EUR" Scenario.day
            (Some ""%string) (Scenario.state_of Scenario.fallback_db))
     = Ok (ExchangeRateData.mk "USD" "EUR" Scenario.day Scenario.r0_9123
             (Some "p2"%string))
  /\ st_calls
       (snd (ProviderManagerService.get_exchange_rate_data
               Scenario.fallback_registry "USD" "EUR" Scenario.day
               (Some ""%string) (Scenario.state_of Scenario.fallback_db)))
     = ["p1"; "p2"]%string.
Proof.
  split; [|split]; [|vm_compute; reflexivity ..].
  simpl. intros p [<- | [<- | [<- | []]]]; discriminate.
Qed.

Lemma store_answer_has_no_provider_name_witness :
  exists q st',
    ExchangeRateService.get_exchange_rate Scenario.fallback_registry
      "eur" "chf" Scenario.day None (Scenario.state_of Scenario.rates_db)
    = (Ok q, st')
    /\ ExchangeRateData.provider_name q = None.
Proof.
  destruct (store_answer_has_no_provider_name Scenario.fallback_registry
              "eur" "chf" Scenario.day None
              (Scenario.state_of Scenario.rates_db)
              (Decimal.mk false 1187328729584566480324454675 (-27)))
    as (q & st' & Hrun & Hn & _); try reflexivity.
  exists q, st'. split; assumption.
Defined.

Lemma all_providers_failed_aggregate_witness :
  let fs :=
    [("p1"%string, APIClientError [Lit "network error"]);
     ("p2"%string, OtherException [Lit "boom"]);
     ("p3"%string,
      ValueError [Lit "No adapter registered for provider '"; FStr "p3";
                  Lit "'. Available: "; FList ["p1"; "p2"]%string])] in
  exists st',
    all_fail Scenario.failing_registry "USD" "EUR" Scenario.day
      (ProviderManager.get_active_ordered Scenario.failing_db)
      (Scenario.state_of Scenario.failing_db) fs st'
    /\ ProviderManagerService.get_exchange_rate_data Scenario.failing_registry
         "USD" "EUR" Scenario.day None (Scenario.state_of Scenario.failing_db)
       = (Raise (AllProvidersFailedError
                   [Lit "All "; FInt 3;
                    Lit " providers failed to fetch rate for ";
                    FStr "USD"; Lit "→"; FStr "EUR"; Lit " on ";
                    FDate Scenario.day]
                   [("p1"%string, [Lit "network error"]);
                    ("p2"%string, [Lit "Unexpected error: "; Lit "boom"]);
                    ("p3"%string,
                     [Lit "Unexpected error: ";
                      Lit "No adapter registered for provider '"; FStr "p3";
                      Lit "'. Available: "; FList ["p1"; "p2"]%string])]),
          st').
Proof.
  intros fs.
  assert (Hall : exists st',
             all_fail Scenario.failing_registry "USD" "EUR" Scenario.day
               (ProviderManager.get_active_ordered Scenario.failing_db)
               (Scenario.state_of Scenario.failing_db) fs st').
  { change (ProviderManager.get_active_ordered Scenario.failing_db)
      with [Scenario.row 2 "p1" 1 true; Scenario.row 1 "p2" 2 true;
            Scenario.row 3 "p3" 3 true].
    eexists.
    eapply all_fail_cons; [reflexivity|].
    eapply all_fail_cons; [reflexivity|].
    eapply all_fail_cons; [reflexivity|].
    apply all_fail_nil. }
  destruct Hall as (st' & Hall). exists st'.
  split; [exact Hall|].
  destruct (all_providers_failed_aggregate Scenario.failing_registry
              "USD" "EUR" Scenario.day None
              (Scenario.state_of Scenario.failing_db)) as [_ H].
  - reflexivity.
  - simpl. solve_NoDup.
  - destruct (H fs st') as (errors & Hrun & _ & _ & Hreasons).
    + discriminate.
    + exact Hall.
    + rewrite Hrun. clear Hrun Hall H.
      inversion Hreasons as [|f1 e1 l1 r1 [Hk1 Hv1] H1]; subst.
      inversion H1 as [|f2 e2 l2 r2 [Hk2 Hv2] H2]; subst.
      inversion H2 as [|f3 e3 l3 r3 [Hk3 Hv3] H3]; subst.
      inversion H3; subst.
      destruct e1, e2, e3. simpl in Hk1, Hv1, Hk2, Hv2, Hk3, Hv3. subst.
      reflexivity.
Defined.

(** ** The fallback order *)

(** With no provider forced, the providers are tried in the order of
    [get_active_ordered] (ascending priority); the first whose attempt
    succeeds gives the result, and no adapter of a later provider is
    asked. *)
Lemma fallback_first_success {World : Type}
    (reg : list (string * (option string -> CurrencyAdapter World)))
    src tgt d pn (st st1 st2 : State World) pre p post fs q :
  truthy pn = None ->
  ProviderManager.get_active_ordered (st_db st) = pre ++ p :: post ->
  all_fail reg src tgt d pre st fs st1 ->
  ProviderManagerService.attempt reg p src tgt d st1 = (Ok q, st2) ->
  ProviderManagerService.get_exchange_rate_data reg src tgt d pn st
  = (Ok q, st2)
  /\ exists called,
       st_calls st2 = st_calls st ++ called
       /\ incl called (map Provider.name (pre ++ [p])).
Proof.
  intros Hpn Hord Hall Hok. split.
  - unfold ProviderManagerService.get_exchange_rate_data. rewrite Hpn.
    unfold bind, ProviderManagerService._get_active_providers, gets.
    rewrite Hord. destruct (pre ++ p :: post) eqn:E.
    + now destruct pre.
    + rewrite <- E. now apply sweep_first_success with (st1 := st1) (fs := fs).
  - destruct (all_fail_state reg src tgt d pre st st1 fs Hall)
      as (_ & called & Hc & Hi).
    pose proof (attempt_state reg src tgt d p st1) as (_ & Hc').
    rewrite Hok in Hc'. simpl in Hc'. rewrite map_app. simpl.
    destruct Hc' as [-> | ->]; rewrite Hc.
    + exists called. split; [reflexivity|]. now apply incl_appl.
    + exists (called ++ [Provider.name p]). split; [now rewrite app_assoc|].
      apply incl_app; [now apply incl_appl | now apply incl_appr].
Qed.

(** The scenario of the specification: P1 (priority 1) fails, P2
    (priority 2) answers; the result is P2's quote and P3 is not asked. *)
Lemma fallback_scenario :
  let run :=
    ProviderManagerService.get_exchange_rate_data Scenario.fallback_registry
      "USD" "EUR" Scenario.day None (Scenario.state_of Scenario.fallback_db) in
  map Provider.name (ProviderManager.get_active_ordered Scenario.fallback_db)
  = ["p1"; "p2"; "p3"]%string
  /\ fst run
     = Ok (ExchangeRateData.mk "USD" "EUR" Scenario.day Scenario.r0_9123
             (Some "p2"%string))
  /\ st_calls (snd run) = ["p1"; "p2"]%string.
Proof. now vm_compute. Qed.

(** C1, at the failing input. "zeta" and "alpha" are active and have the
    same priority; the table holds "zeta" first. [get_active_ordered] sorts
    by priority only, so "zeta" is tried first although "alpha" comes first
    by name: the result is the quote of "zeta" and "alpha" is never asked. *)
Theorem equal_priority_not_ordered_by_name :
  let run :=
    ProviderManagerService.get_exchange_rate_data Scenario.tie_registry
      "USD" "EUR" Scenario.day None (Scenario.state_of Scenario.tie_db) in
  map (fun p => (Provider.priority p, Provider.name p))
    (ProviderManager.get_active_ordered Scenario.tie_db)
  = [(1, "zeta"%string); (1, "alpha"%string)]
  /\ String.ltb "alpha" "zeta" = true
  /\ fst run
     = Ok (ExchangeRateData.mk "USD" "EUR" Scenario.day Scenario.r0_9123
             (Some "zeta"%string))
  /\ st_calls (snd run) = ["zeta"%string].
Proof. now vm_compute. Qed.

(** ** Conversion *)

(** The example of the specification: 100 at the rate 1.234567 gives
    123.456700. *)
Lemma convert_amount_example :
  fst (ExchangeRateService.convert_amount Scenario.fallback_registry
         "usd" "eur" (inr 100) (Some Scenario.day)
         (Scenario.state_of Scenario.example_rate_db))
  = Ok (ExchangeRateService.mkConversionResult "USD" "EUR"
          Scenario.r1_234567 (Decimal.mk false 100 0)
          (Decimal.mk false 123456700 (-6)) Scenario.day).
Proof. now vm_compute. Qed.

(** C7, at the failing input. Converting 0.5 at the stored rate 1.000001:
    the product is 0.5000005 exactly, and [convert_amount] returns 0.500000,
    the product rounded half-even by [quantize] under the default context;
    rounding the same product half-up, as the claim (and the conversion
    view) has it, gives 0.500001. *)
Theorem convert_amount_rounds_half_even :
  fst (ExchangeRateService.convert_amount Scenario.fallback_registry
         "usd" "eur" (inl Scenario.half) (Some Scenario.day)
         (Scenario.state_of Scenario.tie_rate_db))
  = Ok (ExchangeRateService.mkConversionResult "USD" "EUR"
          Scenario.r1_000001 Scenario.half
          (Decimal.mk false 500000 (-6)) Scenario.day)
  /\ Decimal.mul Decimal.DefaultContext Scenario.half Scenario.r1_000001
     = Decimal.Value (Decimal.mk false 5000005 (-7))
  /\ Decimal.quantize Decimal.DefaultContext (Decimal.mk false 5000005 (-7))
       Decimal.micro (Some Decimal.ROUND_HALF_UP)
     = Decimal.Value (Decimal.mk false 500001 (-6)).
Proof. now vm_compute. Qed.

(** ** The mock adapter *)

(** C9, the claim as stated fails: two invocations with the same input,
    one after the other, return different rates (0.500000, then
    0.625000). *)
Lemma mock_is_not_deterministic :
  let first_run :=
    MockAdapter.get_exchange_rate_data Scenario.fromisoformat "USD" "EUR"
      (inl Scenario.day) Scenario.generator in
  let second_run :=
    MockAdapter.get_exchange_rate_data Scenario.fromisoformat "USD" "EUR"
      (inl Scenario.day) (snd first_run) in
  fst first_run
  = Ok (ExchangeRateData.mk "USD" "EUR" Scenario.day
          (Decimal.mk false 500000 (-6)) (Some "mock"%string))
  /\ fst second_run
     = Ok (ExchangeRateData.mk "USD" "EUR" Scenario.day
             (Decimal.mk false 625000 (-6)) (Some "mock"%string))
  /\ fst first_run <> fst second_run.
Proof. vm_compute. repeat split; discriminate. Qed.

(** Rounding a quotient half-even keeps it between integer bounds. *)
Lemma round_half_even_bounds n den lo hi :
  0 < den -> lo * den <= n <= hi * den ->
  let q := n / den in
  let r := n mod den in
  lo <= (if (den <? 2 * r) || ((2 * r =? den) && Z.odd q) then q + 1 else q)
     <= hi.
Proof.
  intros Hden Hn q r.
  pose proof (Z.div_mod n den ltac:(lia)) as Hdm.
  pose proof (Z.mod_pos_bound n den Hden) as Hr.
  fold q r in Hdm, Hr.
  assert (lo <= q) by (apply Z.div_le_lower_bound; lia).
  assert (q <= hi) by (subst q; apply Z.div_le_upper_bound; lia).
  destruct ((den <? 2 * r) || ((2 * r =? den) && Z.odd q)) eqn:E; [|lia].
  assert (0 < r).
  { apply orb_true_iff in E as [E | E].
    - apply Z.ltb_lt in E. lia.
    - apply andb_true_iff in E as [E _]. apply Z.eqb_eq in E. lia. }
  split; [lia|]. nia.
Qed.

Lemma uniform_range (st : PyRandom.RandomState) :
  let x := fst (PyRandom.uniform_half_to_one_and_half st) in
  0 < PyRandom.scale x
  /\ 2 ^ (PyRandom.scale x - 1) <= PyRandom.num x
     <= 3 * 2 ^ (PyRandom.scale x - 1).
Proof.
  unfold PyRandom.uniform_half_to_one_and_half, PyRandom.random.
  cbn [fst snd PyRandom.scale PyRandom.num].
  set (k := PyRandom.draws st (PyRandom.position st) mod 2 ^ 53).
  assert (Hk : 0 <= k < 2 ^ 53) by (apply Z.mod_pos_bound; lia).
  unfold PyRandom.to_binary64.
  change (2 ^ (53 - 1)) with 4503599627370496 in *.
  change (2 ^ 53) with 9007199254740992 in *.
  destruct (Z_lt_le_dec (4503599627370496 + k) 9007199254740992) as [Hlt | Hge].
  - assert (Z.log2 (4503599627370496 + k) = 52) as ->.
    { apply Z.log2_unique; [lia|].
      change (2 ^ 52) with 4503599627370496.
      change (2 ^ (52 + 1)) with 9007199254740992. lia. }
    change (52 + 1 <=? 53) with true.
    cbn [fst snd PyRandom.scale PyRandom.num].
    change (2 ^ (53 - 1)) with 4503599627370496. lia.
  - assert (Z.log2 (4503599627370496 + k) = 53) as ->.
    { apply Z.log2_unique; [lia|].
      change (2 ^ 53) with 9007199254740992.
      change (2 ^ (53 + 1)) with 18014398509481984. lia. }
    change (53 + 1 <=? 53) with false.
    cbn [fst snd PyRandom.scale PyRandom.num].
    change (53 + 1 - 53) with 1. change (53 - 1 - 1) with 51.
    change (53 - 1) with 52.
    change (2 ^ 51) with 2251799813685248.
    split; [lia|].
    unfold PyRandom.rne_shift. change (2 ^ 1) with 2.
    pose proof (round_half_even_bounds (4503599627370496 + k) 2
                  2251799813685248 (3 * 2251799813685248)
                  ltac:(lia) ltac:(lia)) as H.
    cbv zeta in H. exact H.
Qed.

Lemma format_6f_range x :
  0 < PyRandom.scale x ->
  2 ^ (PyRandom.scale x - 1) <= PyRandom.num x
    <= 3 * 2 ^ (PyRandom.scale x - 1) ->
  exists c, PyRandom.format_6f x = Decimal.mk false c (-6)
            /\ 500000 <= c <= 1500000.
Proof.
  intros Hs Hn. unfold PyRandom.format_6f. eexists. split; [reflexivity|].
  assert (Hp : 2 ^ PyRandom.scale x = 2 * 2 ^ (PyRandom.scale x - 1)).
  { rewrite <- Z.pow_succ_r by lia. f_equal. lia. }
  assert (0 < 2 ^ (PyRandom.scale x - 1)) by (apply Z.pow_pos_nonneg; lia).
  change (10 ^ 6) with 1000000.
  apply (round_half_even_bounds (PyRandom.num x * 1000000)
           (2 ^ PyRandom.scale x) 500000 1500000); lia.
Qed.

(** C9, as amended. The mock adapter makes its quote from the input and the
    next draw of the random generator, and from nothing else (no network):
    for codes of three characters it returns a quote with the upper-cased
    codes, the given date, the provider name "mock" and a rate of six
    fractional digits between 0.500000 and 1.500000; the generator advances
    by one draw; and two generator states with the same next draw give the
    same quote. Successive invocations use successive draws, so they need
    not agree. *)
Theorem mock_quote_from_next_draw (fromisoformat : string -> Result date)
    s t d (g : PyRandom.RandomState) :
  String.length s = 3%nat -> String.length t = 3%nat ->
  exists c,
    MockAdapter.get_exchange_rate_data fromisoformat s t (inl d) g
    = (Ok (ExchangeRateData.mk (upper s) (upper t) d (Decimal.mk false c (-6))
             (Some "mock"%string)),
       PyRandom.mkState (PyRandom.draws g) (S (PyRandom.position g)))
    /\ 500000 <= c <= 1500000
    /\ forall g',
         PyRandom.draws g' (PyRandom.position g') mod 2 ^ 53
         = PyRandom.draws g (PyRandom.position g) mod 2 ^ 53 ->
         fst (MockAdapter.get_exchange_rate_data fromisoformat s t (inl d) g')
         = fst (MockAdapter.get_exchange_rate_data fromisoformat s t (inl d) g).
Proof.
  intros Hs Ht.
  pose proof (uniform_range g) as (Hscale & Hnum). cbv zeta in Hscale, Hnum.
  destruct (format_6f_range _ Hscale Hnum) as (c & Hc & Hrange).
  exists c. split; [|split; [exact Hrange|]].
  - unfold MockAdapter.get_exchange_rate_data.
    destruct (PyRandom.uniform_half_to_one_and_half g) as [x g'] eqn:E.
    simpl in Hc. rewrite Hc.
    rewrite new_valid.
    + rewrite !upper_idempotent.
      unfold PyRandom.uniform_half_to_one_and_half, PyRandom.random in E.
      injection E as _ <-. reflexivity.
    + now rewrite upper_length.
    + now rewrite upper_length.
    + unfold Decimal.is_positive. simpl. apply Z.ltb_lt. lia.
  - intros g' Hdraw. unfold MockAdapter.get_exchange_rate_data,
      PyRandom.uniform_half_to_one_and_half, PyRandom.random.
    cbn [fst snd]. now rewrite Hdraw.
Qed.

Lemma mock_quote_from_next_draw_witness :
  exists c,
    fst (MockAdapter.get_exchange_rate_data Scenario.fromisoformat "usd" "eur"
           (inl Scenario.day) Scenario.generator)
    = Ok (ExchangeRateData.mk "USD" "EUR" Scenario.day
            (Decimal.mk false c (-6)) (Some "mock"%string))
    /\ 500000 <= c <= 1500000.
Proof.
  destruct (mock_quote_from_next_draw Scenario.fromisoformat "usd" "eur"
              Scenario.day Scenario.generator) as (c & Hrun & Hc & _);
    try reflexivity.
  exists c. rewrite Hrun. split; [reflexivity | exact Hc].
Defined.


(** * Further properties of the managers and the services *)

(** ** Decimal division in the default context *)


(** ** Decimal arithmetic *)

Lemma ndigits_aux_spec fuel c :
  1 <= c < 10 ^ (Z.of_nat fuel + 1) ->
  10 ^ (Decimal.ndigits_aux fuel c - 1) <= c < 10 ^ Decimal.ndigits_aux fuel c
  /\ 1 <= Decimal.ndigits_aux fuel c.
Proof.
  revert c. induction fuel as [|fuel IH]; intros c Hc.
  - simpl in *. change (10 ^ 1) with 10 in *. change (10 ^ (1 - 1)) with 1. lia.
  - cbn [Decimal.ndigits_aux]. destruct (c <? 10) eqn:E.
    + apply Z.ltb_lt in E. change (10 ^ 1) with 10.
      change (10 ^ (1 - 1)) with 1. lia.
    + apply Z.ltb_ge in E.
      assert (Hpow : 10 ^ (Z.of_nat (S fuel) + 1) = 10 * 10 ^ (Z.of_nat fuel + 1)).
      { rewrite <- Z.pow_succ_r by lia. f_equal. lia. }
      destruct (IH (c / 10)) as ((Hlo & Hhi) & Hn).
      { split; [apply Z.div_le_lower_bound; lia|].
        apply Z.div_lt_upper_bound; lia. }
      set (n := Decimal.ndigits_aux fuel (c / 10)) in *.
      replace (1 + n - 1) with (Z.succ (n - 1)) by lia.
      replace (1 + n) with (Z.succ n) by lia.
      rewrite !Z.pow_succ_r by lia.
      pose proof (Z.div_mod c 10 ltac:(lia)).
      pose proof (Z.mod_pos_bound c 10 ltac:(lia)).
      lia.
Qed.

Lemma ndigits_spec c :
  1 <= c ->
  10 ^ (Decimal.ndigits c - 1) <= c < 10 ^ Decimal.ndigits c
  /\ 1 <= Decimal.ndigits c.
Proof.
  intros Hc. unfold Decimal.ndigits. apply ndigits_aux_spec.
  split; [exact Hc|].
  rewrite Z2Nat.id by apply Z.log2_nonneg.
  pose proof (Z.log2_spec c ltac:(lia)) as [_ Hlt].
  eapply Z.lt_le_trans; [exact Hlt|].
  replace (Z.succ (Z.log2 c)) with (Z.log2 c + 1) by lia.
  apply Z.pow_le_mono_l. lia.
Qed.

Lemma ndigits_unique c n :
  1 <= n -> 10 ^ (n - 1) <= c < 10 ^ n -> Decimal.ndigits c = n.
Proof.
  intros Hn [Hlo Hhi].
  assert (Hc : 1 <= c).
  { pose proof (Z.pow_pos_nonneg 10 (n - 1) ltac:(lia) ltac:(lia)). lia. }
  destruct (ndigits_spec c Hc) as ((Hlo' & Hhi') & Hn').
  set (m := Decimal.ndigits c) in *.
  destruct (Z.lt_trichotomy m n) as [H | [H | H]]; [exfalso | exact H | exfalso].
  - assert (10 ^ m <= 10 ^ (n - 1)) by (apply Z.pow_le_mono_r; lia). lia.
  - assert (10 ^ n <= 10 ^ (m - 1)) by (apply Z.pow_le_mono_r; lia). lia.
Qed.

Lemma ndigits_le c n :
  1 <= c -> c < 10 ^ n -> Decimal.ndigits c <= n.
Proof.
  intros Hc Hhi.
  destruct (ndigits_spec c Hc) as ((Hlo' & Hhi') & Hn').
  destruct (Z_le_gt_dec (Decimal.ndigits c) n) as [H | H]; [exact H | exfalso].
  assert (0 <= n).
  { destruct (Z_le_gt_dec 0 n); [assumption|].
    rewrite Z.pow_neg_r in Hhi by lia. lia. }
  assert (10 ^ n <= 10 ^ (Decimal.ndigits c - 1))
    by (apply Z.pow_le_mono_r; lia).
  lia.
Qed.

Lemma pow10_pos k : 0 <= k -> 0 < 10 ^ k.
Proof. intros. apply Z.pow_pos_nonneg; lia. Qed.

Lemma pow10_split k : 1 <= k -> 10 ^ k = 10 * 10 ^ (k - 1).
Proof.
  intros Hk. rewrite <- Z.pow_succ_r by lia. f_equal. lia.
Qed.

(** The first dropped digit is at least five exactly when the dropped part
    is at least half a unit of the kept one. *)
Lemma first_dropped_digit c k :
  0 <= c -> 1 <= k ->
  (5 <=? (c / 10 ^ (k - 1)) mod 10) = (10 ^ k <=? 2 * (c mod 10 ^ k)).
Proof.
  intros Hc Hk.
  pose proof (pow10_pos (k - 1) ltac:(lia)) as Hp.
  rewrite (pow10_split k Hk).
  rewrite (Z.mul_comm 10), Z.rem_mul_r by lia.
  pose proof (Z.mod_pos_bound c (10 ^ (k - 1)) Hp).
  pose proof (Z.mod_pos_bound (c / 10 ^ (k - 1)) 10 ltac:(lia)).
  set (lo := c mod 10 ^ (k - 1)) in *.
  set (dg := (c / 10 ^ (k - 1)) mod 10) in *.
  destruct (5 <=? dg) eqn:E; symmetry.
  - apply Z.leb_le in E. apply Z.leb_le. nia.
  - apply Z.leb_gt in E. apply Z.leb_gt. nia.
Qed.

Lemma even_last_digit q : Z.even (q mod 10) = Z.even q.
Proof.
  rewrite (Z.div_mod q 10) at 2 by lia.
  rewrite Z.even_add, Z.even_mul. simpl.
  now destruct (Z.even (q mod 10)).
Qed.

(** [_round_half_even] rounds up exactly when [round_half_even_div] does. *)
Lemma round_half_even_up c n i :
  0 <= c -> 1 <= i -> i < n ->
  (0 <? Decimal._round_half_even c n i)
  = ((10 ^ (n - i) <? 2 * (c mod 10 ^ (n - i)))
     || ((2 * (c mod 10 ^ (n - i)) =? 10 ^ (n - i))
         && Z.odd (c / 10 ^ (n - i)))).
Proof.
  intros Hc Hi Hin.
  unfold Decimal._round_half_even, Decimal._round_half_up,
    Decimal.exact_half, Decimal.all_zeros, Decimal.digit_at.
  replace (n - (i - 1) - 1) with (n - i) by lia.
  set (k := n - i) in *.
  assert (Hk : 1 <= k) by lia.
  rewrite first_dropped_digit by lia.
  rewrite even_last_digit.
  assert ((i =? 0) = false) as -> by (apply Z.eqb_neq; lia). simpl orb.
  pose proof (pow10_pos (k - 1) ltac:(lia)) as Hp.
  pose proof (pow10_split k Hk) as Hs.
  pose proof (Z.mod_pos_bound c (10 ^ k) ltac:(lia)) as Hr.
  set (r := c mod 10 ^ k) in *.
  rewrite <- Z.negb_even.
  destruct (r =? 5 * 10 ^ (k - 1)) eqn:Eh.
  - apply Z.eqb_eq in Eh.
    assert ((10 ^ k <? 2 * r) = false) as -> by (apply Z.ltb_ge; lia).
    assert ((2 * r =? 10 ^ k) = true) as -> by (apply Z.eqb_eq; lia).
    assert ((10 ^ k <=? 2 * r) = true) as -> by (apply Z.leb_le; lia).
    simpl. now destruct (Z.even (c / 10 ^ k)).
  - apply Z.eqb_neq in Eh. simpl.
    assert ((2 * r =? 10 ^ k) = false) as -> by (apply Z.eqb_neq; lia).
    simpl. rewrite orb_false_r.
    destruct (10 ^ k <=? 2 * r) eqn:E.
    + apply Z.leb_le in E. simpl. symmetry. apply Z.ltb_lt. lia.
    + apply Z.leb_gt in E.
      assert ((10 ^ k <? 2 * r) = false) as -> by (apply Z.ltb_ge; lia).
      now destruct (r =? 0).
Qed.

Lemma round_half_even_div_bounds c k :
  0 <= c -> 0 <= k ->
  c / 10 ^ k <= round_half_even_div c k <= c / 10 ^ k + 1
  /\ 2 * Z.abs (round_half_even_div c k * 10 ^ k - c) <= 10 ^ k.
Proof.
  intros Hc Hk. unfold round_half_even_div.
  pose proof (pow10_pos k Hk) as Hp.
  pose proof (Z.div_mod c (10 ^ k) ltac:(lia)) as Hdm.
  pose proof (Z.mod_pos_bound c (10 ^ k) Hp) as Hr.
  set (q := c / 10 ^ k) in *. set (r := c mod 10 ^ k) in *.
  destruct ((10 ^ k <? 2 * r) || ((2 * r =? 10 ^ k) && Z.odd q)) eqn:E.
  - split; [lia|].
    assert (10 ^ k <= 2 * r).
    { apply orb_true_iff in E as [E | E].
      - apply Z.ltb_lt in E. lia.
      - apply andb_true_iff in E as [E _]. apply Z.eqb_eq in E. lia. }
    rewrite Z.abs_eq by nia. nia.
  - split; [lia|].
    apply orb_false_iff in E as [E _]. apply Z.ltb_ge in E.
    rewrite Z.abs_neq by nia. nia.
Qed.

(** [_fix] under the default rounding, for a non-zero coefficient whose
    result stays inside the exponent range: a coefficient of at most [prec]
    digits is kept, a longer one is rounded half-even to [prec] digits. *)
Lemma fix_rounds ctx s c e :
  Decimal.rounding ctx = Decimal.ROUND_HALF_EVEN ->
  1 <= Decimal.prec ctx -> 1 <= c ->
  Decimal.Etiny ctx <= Decimal.ndigits c + e - Decimal.prec ctx
    < Decimal.Etop ctx ->
  Decimal._fix ctx (Decimal.mk s c e)
  = Decimal.Value
      (if Decimal.ndigits c <=? Decimal.prec ctx then Decimal.mk s c e
       else
         let k := Decimal.ndigits c - Decimal.prec ctx in
         let m := round_half_even_div c k in
         if m =? 10 ^ Decimal.prec ctx
         then Decimal.mk s (10 ^ (Decimal.prec ctx - 1)) (e + k + 1)
         else Decimal.mk s m (e + k)).
Proof.
  intros Hround Hprec Hc Hrange.
  destruct (ndigits_spec c Hc) as ((Hlo & Hhi) & Hn).
  unfold Decimal._fix. cbn [Decimal.coeff Decimal.exp Decimal.sign].
  set (n := Decimal.ndigits c) in *. set (P := Decimal.prec ctx) in *.
  assert ((c =? 0) = false) as -> by (apply Z.eqb_neq; lia).
  assert ((Decimal.Etop ctx <? n + e - P) = false) as ->
    by (apply Z.ltb_ge; lia).
  assert ((n + e - P <? Decimal.Etiny ctx) = false) as ->
    by (apply Z.ltb_ge; lia).
  destruct (n <=? P) eqn:EnP.
  - apply Z.leb_le in EnP.
    assert ((e <? n + e - P) = false) as -> by (apply Z.ltb_ge; lia).
    reflexivity.
  - apply Z.leb_gt in EnP.
    assert ((e <? n + e - P) = true) as -> by (apply Z.ltb_lt; lia).
    replace (n + e - (n + e - P)) with P by lia.
    assert ((P <? 0) = false) as -> by (apply Z.ltb_ge; lia).
    fold n. rewrite Hround. cbn [Decimal._pick_rounding_function].
    rewrite round_half_even_up by lia.
    unfold Decimal.leading. cbv zeta.
    set (k := n - P) in *.
    assert (Hk : 1 <= k) by lia.
    pose proof (pow10_pos k ltac:(lia)) as Hpk.
    pose proof (Z.div_mod c (10 ^ k) ltac:(lia)) as Hdm.
    pose proof (Z.mod_pos_bound c (10 ^ k) Hpk) as Hr.
    assert (Hq : 10 ^ (P - 1) <= c / 10 ^ k < 10 ^ P).
    { split.
      - apply Z.div_le_lower_bound; [lia|].
        rewrite <- Z.pow_add_r by lia. replace (k + (P - 1)) with (n - 1) by lia.
        exact Hlo.
      - apply Z.div_lt_upper_bound; [lia|].
        rewrite <- Z.pow_add_r by lia. replace (k + P) with n by lia.
        exact Hhi. }
    pose proof (pow10_pos (P - 1) ltac:(lia)) as HpP.
    pose proof (pow10_split P Hprec) as HsP.
    unfold round_half_even_div.
    set (q := c / 10 ^ k) in *. set (r := c mod 10 ^ k) in *.
    destruct ((10 ^ k <? 2 * r) || ((2 * r =? 10 ^ k) && Z.odd q)) eqn:Eup.
    + destruct (Z.eq_dec (q + 1) (10 ^ P)) as [Heq | Hne].
      * assert (Decimal.ndigits (q + 1) = P + 1) as ->.
        { apply ndigits_unique; [lia|]. replace (P + 1 - 1) with P by lia.
          rewrite Heq. split; [lia|].
          rewrite (pow10_split (P + 1)) by lia.
          replace (P + 1 - 1) with P by lia. lia. }
        assert ((P <? P + 1) = true) as -> by (apply Z.ltb_lt; lia).
        assert ((Decimal.Etop ctx <? n + e - P + 1) = false) as ->
          by (apply Z.ltb_ge; lia).
        assert ((q + 1 =? 10 ^ P) = true) as -> by (apply Z.eqb_eq; lia).
        rewrite Heq, HsP, Z.mul_comm, Z.div_mul by lia.
        f_equal. f_equal. lia.
      * assert (Decimal.ndigits (q + 1) = P) as ->
          by (apply ndigits_unique; lia).
        rewrite Z.ltb_irrefl.
        assert ((Decimal.Etop ctx <? n + e - P) = false) as ->
          by (apply Z.ltb_ge; lia).
        assert ((q + 1 =? 10 ^ P) = false) as -> by (apply Z.eqb_neq; lia).
        f_equal. f_equal. lia.
    + assert ((Decimal.Etop ctx <? n + e - P) = false) as ->
        by (apply Z.ltb_ge; lia).
      assert ((q =? 10 ^ P) = false) as -> by (apply Z.eqb_neq; lia).
      f_equal. f_equal. lia.
Qed.

Lemma strip_zeros_spec fuel c e ideal :
  exists j, 0 <= j <= Z.of_nat fuel
            /\ c = fst (Decimal.strip_zeros fuel c e ideal) * 10 ^ j
            /\ snd (Decimal.strip_zeros fuel c e ideal) = e + j.
Proof.
  revert c e. induction fuel as [|fuel IH]; intros c e.
  - exists 0. simpl. lia.
  - cbn [Decimal.strip_zeros].
    destruct ((e <? ideal) && (c mod 10 =? 0)) eqn:E.
    + apply andb_true_iff in E as [_ E]. apply Z.eqb_eq in E.
      destruct (IH (c / 10) (e + 1)) as (j & Hj & Hc & He).
      exists (j + 1). split; [lia|]. split; [|lia].
      rewrite Z.pow_add_r by lia. change (10 ^ 1) with 10.
      pose proof (Z.div_mod c 10 ltac:(lia)). lia.
    + exists 0. simpl. lia.
Qed.

(** The inequality of [nearest_quotient] may be checked in units of any
    power of ten below the exponents. *)
Lemma nearest_quotient_at q a b s0 :
  s0 <= Decimal.exp a -> s0 <= Decimal.exp q + Decimal.exp b ->
  2 * Z.abs (Decimal.coeff q * Decimal.coeff b
               * 10 ^ (Decimal.exp q + Decimal.exp b - s0)
             - Decimal.coeff a * 10 ^ (Decimal.exp a - s0))
  <= Decimal.coeff b * 10 ^ (Decimal.exp q + Decimal.exp b - s0) ->
  nearest_quotient q a b.
Proof.
  intros Ha Hq H. unfold nearest_quotient. cbv zeta.
  set (s := Z.min (Decimal.exp a) (Decimal.exp q + Decimal.exp b)).
  assert (Hs : s0 <= s) by (subst s; lia).
  assert (Hs1 : s <= Decimal.exp a) by (subst s; lia).
  assert (Hs2 : s <= Decimal.exp q + Decimal.exp b) by (subst s; lia).
  set (t := s - s0).
  replace (Decimal.exp q + Decimal.exp b - s0)
    with ((Decimal.exp q + Decimal.exp b - s) + t) in H by (subst t; lia).
  replace (Decimal.exp a - s0) with ((Decimal.exp a - s) + t) in H
    by (subst t; lia).
  rewrite !Z.pow_add_r in H by (subst t; lia).
  pose proof (pow10_pos t ltac:(subst t; lia)) as Ht.
  set (X := Decimal.coeff q * Decimal.coeff b
            * 10 ^ (Decimal.exp q + Decimal.exp b - s)) in *.
  set (Y := Decimal.coeff a * 10 ^ (Decimal.exp a - s)) in *.
  set (W := Decimal.coeff b * 10 ^ (Decimal.exp q + Decimal.exp b - s)) in *.
  assert (HX : Decimal.coeff q * Decimal.coeff b
               * (10 ^ (Decimal.exp q + Decimal.exp b - s) * 10 ^ t)
               - Decimal.coeff a * (10 ^ (Decimal.exp a - s) * 10 ^ t)
               = (X - Y) * 10 ^ t) by (subst X Y; ring).
  rewrite HX in H.
  assert (HW : Decimal.coeff b
               * (10 ^ (Decimal.exp q + Decimal.exp b - s) * 10 ^ t)
               = W * 10 ^ t) by (subst W; ring).
  rewrite HW in H.
  rewrite Z.abs_mul, (Z.abs_eq (10 ^ t)) in H by lia.
  nia.
Qed.

Lemma exact_quotient_at q a b s0 :
  s0 <= Decimal.exp a -> s0 <= Decimal.exp q + Decimal.exp b ->
  Decimal.coeff q * Decimal.coeff b
    * 10 ^ (Decimal.exp q + Decimal.exp b - s0)
  = Decimal.coeff a * 10 ^ (Decimal.exp a - s0) ->
  exact_quotient q a b.
Proof.
  intros Ha Hq H. unfold exact_quotient. cbv zeta.
  set (s := Z.min (Decimal.exp a) (Decimal.exp q + Decimal.exp b)).
  assert (Hs : s0 <= s) by (subst s; lia).
  assert (Hs1 : s <= Decimal.exp a) by (subst s; lia).
  assert (Hs2 : s <= Decimal.exp q + Decimal.exp b) by (subst s; lia).
  set (t := s - s0).
  replace (Decimal.exp q + Decimal.exp b - s0)
    with ((Decimal.exp q + Decimal.exp b - s) + t) in H by (subst t; lia).
  replace (Decimal.exp a - s0) with ((Decimal.exp a - s) + t) in H
    by (subst t; lia).
  rewrite !Z.pow_add_r in H by (subst t; lia).
  pose proof (pow10_pos t ltac:(subst t; lia)) as Ht.
  nia.
Qed.

(** Rounding the quotient with its sticky digit is rounding the exact
    quotient. *)
Lemma sticky_rounding cb N q0 rem k :
  1 <= cb -> N = q0 * cb + rem -> 0 < rem < cb -> 0 <= q0 -> 1 <= k ->
  let q' := if q0 mod 5 =? 0 then q0 + 1 else q0 in
  2 * Z.abs (round_half_even_div q' k * 10 ^ k * cb - N) <= cb * 10 ^ k.
Proof.
  intros Hcb HN Hrem Hq0 Hk q'.
  assert (Hq5 : q' mod 5 <> 0).
  { subst q'. destruct (q0 mod 5 =? 0) eqn:E.
    - apply Z.eqb_eq in E.
      rewrite Z.add_mod, E by lia. now vm_compute.
    - now apply Z.eqb_neq in E. }
  assert (Hq' : q0 <= q' <= q0 + 1) by (subst q'; destruct (q0 mod 5 =? 0); lia).
  clearbody q'.
  pose proof (pow10_pos (k - 1) ltac:(lia)) as Hp1.
  pose proof (pow10_split k Hk) as Hs.
  pose proof (Z.div_mod q' (10 ^ k) ltac:(lia)) as Hdm.
  pose proof (Z.mod_pos_bound q' (10 ^ k) ltac:(lia)) as Hr.
  unfold round_half_even_div.
  set (qq := q' / 10 ^ k) in *. set (r := q' mod 10 ^ k) in *.
  assert (Hr5 : r mod 5 = q' mod 5).
  { rewrite Hdm, Hs.
    replace (10 * 10 ^ (k - 1) * qq + r)
      with (r + (2 * 10 ^ (k - 1) * qq) * 5) by ring.
    now rewrite Z.mod_add by lia. }
  assert (Hr0 : r <> 0) by (intros ->; apply Hq5; rewrite <- Hr5; reflexivity).
  assert (Hrh : 2 * r <> 10 ^ k).
  { intros Heq. apply Hq5. rewrite <- Hr5.
    assert (r = 10 ^ (k - 1) * 5) as -> by lia.
    apply Z.mod_mul. lia. }
  assert ((2 * r =? 10 ^ k) = false) as -> by now apply Z.eqb_neq.
  simpl andb. rewrite orb_false_r.
  destruct (10 ^ k <? 2 * r) eqn:E.
  - apply Z.ltb_lt in E.
    assert (Hge : 0 <= (qq + 1) * 10 ^ k * cb - N) by nia.
    rewrite Z.abs_eq by exact Hge.
    assert (r - 5 * 10 ^ (k - 1) >= 1) by lia.
    nia.
  - apply Z.ltb_ge in E.
    assert (Hle : qq * 10 ^ k * cb - N <= 0) by nia.
    rewrite Z.abs_neq by exact Hle.
    assert (5 * 10 ^ (k - 1) - r >= 1) by lia.
    nia.
Qed.

(** [_fix] on a positive coefficient of at most 30 digits, far from the
    exponent limits: the value is kept when it fits the precision and is
    rounded half-even to 28 digits otherwise. *)
Lemma fix_quotient s c e :
  1 <= c < 10 ^ 30 -> -300000 <= e <= 300000 ->
  exists q,
    Decimal._fix Decimal.DefaultContext (Decimal.mk s c e) = Decimal.Value q
    /\ Decimal.sign q = s
    /\ 1 <= Decimal.coeff q < 10 ^ 28
    /\ e <= Decimal.exp q <= e + 3
    /\ ((Decimal.ndigits c <= 28 /\ q = Decimal.mk s c e)
        \/ (exists k, 1 <= k /\ k = Decimal.ndigits c - 28
            /\ e + k <= Decimal.exp q
            /\ Decimal.coeff q * 10 ^ (Decimal.exp q - e)
               = round_half_even_div c k * 10 ^ k
            /\ Decimal.ndigits (Decimal.coeff q) = 28)).
Proof.
  intros Hc He.
  destruct (ndigits_spec c ltac:(lia)) as [Hn Hn1].
  pose proof (ndigits_le c 30 ltac:(lia) ltac:(lia)) as Hn30.
  set (n := Decimal.ndigits c) in *.
  assert (Hrange : Decimal.Etiny Decimal.DefaultContext
                   <= n + e - Decimal.prec Decimal.DefaultContext
                   < Decimal.Etop Decimal.DefaultContext).
  { unfold Decimal.Etiny, Decimal.Etop. cbn. lia. }
  rewrite (fix_rounds Decimal.DefaultContext s c e eq_refl
             ltac:(cbn; lia) ltac:(lia) Hrange).
  fold n. cbn [Decimal.prec Decimal.DefaultContext].
  destruct (n <=? 28) eqn:E.
  - apply Z.leb_le in E. eexists. split; [reflexivity|].
    cbn [Decimal.sign Decimal.coeff Decimal.exp].
    split; [reflexivity|].
    assert (10 ^ n <= 10 ^ 28) by (apply Z.pow_le_mono_r; lia).
    split; [lia|]. split; [lia|]. left. split; [exact E|reflexivity].
  - apply Z.leb_gt in E. cbv zeta.
    set (k := n - 28).
    assert (Hk : 1 <= k <= 2) by (subst k; lia).
    pose proof (pow10_pos k ltac:(lia)) as Hpk.
    assert (Hlo : 10 ^ (n - 1) = 10 ^ 27 * 10 ^ k).
    { rewrite <- Z.pow_add_r by lia. f_equal. subst k. lia. }
    assert (Hhi : 10 ^ n = 10 ^ 28 * 10 ^ k).
    { rewrite <- Z.pow_add_r by lia. f_equal. subst k. lia. }
    assert (Hd : 10 ^ 27 <= c / 10 ^ k < 10 ^ 28).
    { split.
      - apply Z.div_le_lower_bound; [lia|]. rewrite Z.mul_comm. lia.
      - apply Z.div_lt_upper_bound; [lia|]. rewrite Z.mul_comm. lia. }
    destruct (round_half_even_div_bounds c k ltac:(lia) ltac:(lia))
      as [Hm _].
    set (m := round_half_even_div c k) in *.
    assert (H2728 : 10 ^ 28 = 10 * 10 ^ 27) by reflexivity.
    destruct (m =? 10 ^ 28) eqn:Em.
    + apply Z.eqb_eq in Em. eexists. split; [reflexivity|].
      cbn [Decimal.sign Decimal.coeff Decimal.exp].
      split; [reflexivity|]. split; [lia|]. split; [lia|].
      right. exists k. split; [lia|]. split; [reflexivity|].
      split; [lia|]. split.
      * replace (e + k + 1 - e) with (k + 1) by lia.
        rewrite Z.pow_add_r by lia. fold m. rewrite Em, H2728.
        change (28 - 1) with 27. change (10 ^ 1) with 10. ring.
      * apply ndigits_unique; [lia|]. change (28 - 1) with 27. lia.
    + apply Z.eqb_neq in Em. eexists. split; [reflexivity|].
      cbn [Decimal.sign Decimal.coeff Decimal.exp].
      split; [reflexivity|]. split; [lia|]. split; [lia|].
      right. exists k. split; [lia|]. split; [reflexivity|].
      split; [lia|]. split.
      * replace (e + k - e) with k by lia. reflexivity.
      * apply ndigits_unique; [lia|]. change (28 - 1) with 27. lia.
Qed.

(** The integer quotient that [truediv] computes has 29 or 30 digits. *)
Lemma quotient_digits ca cb :
  1 <= ca < 10 ^ 28 -> 1 <= cb < 10 ^ 28 ->
  let shift := Decimal.ndigits cb - Decimal.ndigits ca + 28 + 1 in
  2 <= shift <= 56 /\ 10 ^ 28 <= ca * 10 ^ shift / cb < 10 ^ 30.
Proof.
  intros Ha Hb shift.
  destruct (ndigits_spec ca ltac:(lia)) as [Hna Hna1].
  destruct (ndigits_spec cb ltac:(lia)) as [Hnb Hnb1].
  pose proof (ndigits_le ca 28 ltac:(lia) ltac:(lia)) as Hna28.
  pose proof (ndigits_le cb 28 ltac:(lia) ltac:(lia)) as Hnb28.
  subst shift.
  set (na := Decimal.ndigits ca) in *. set (nb := Decimal.ndigits cb) in *.
  split; [lia|].
  pose proof (pow10_pos (na - 1) ltac:(lia)) as Hpa.
  pose proof (pow10_pos (nb - 1) ltac:(lia)) as Hpb.
  pose proof (pow10_split na Hna1) as Hsa.
  pose proof (pow10_split nb Hnb1) as Hsb.
  assert (Hsh : 10 ^ (nb - na + 28 + 1) * 10 ^ (na - 1) = 10 ^ 28 * 10 ^ (nb - 1) * 10).
  { replace (10 ^ 28 * 10 ^ (nb - 1) * 10) with (10 ^ (28 + (nb - 1) + 1))
      by (rewrite !Z.pow_add_r by lia; reflexivity).
    rewrite <- Z.pow_add_r by lia. f_equal. lia. }
  pose proof (pow10_pos (nb - na + 28 + 1) ltac:(lia)) as Hps.
  set (S := 10 ^ (nb - na + 28 + 1)) in *.
  assert (H30 : 10 ^ 30 = 100 * 10 ^ 28) by reflexivity.
  set (P := 10 ^ 28) in *.
  assert (0 < P) by (subst P; reflexivity).
  split.
  - apply Z.div_le_lower_bound; [lia|]. nia.
  - apply Z.div_lt_upper_bound; [lia|]. rewrite H30. nia.
Qed.

(** Three facts of integer arithmetic used below. *)
Lemma stripped_bounds q2 J lo hi :
  0 < J -> 0 < lo -> lo <= q2 * J < hi -> 1 <= q2 < hi.
Proof.
  intros HJ Hlo H. assert (1 <= q2) by nia. split; [assumption|nia].
Qed.

Lemma rounded_exact_within cq cb E J K m q2 N :
  2 * Z.abs (m * K - q2) <= K -> 0 < J -> 1 <= cb -> K <= E ->
  cq * E = m * K -> N = q2 * J * cb ->
  2 * Z.abs (cq * cb * (E * J) - N) <= cb * (E * J).
Proof.
  intros Hb HJ Hcb HKE Hm HN.
  replace (cq * cb * (E * J)) with (cq * E * (J * cb)) by ring.
  rewrite Hm, HN.
  replace (m * K * (J * cb) - q2 * J * cb) with ((m * K - q2) * (J * cb))
    by ring.
  assert (HJc : 0 <= J * cb) by (apply Z.mul_nonneg_nonneg; lia).
  rewrite Z.abs_mul, (Z.abs_eq (J * cb)) by exact HJc.
  set (A := Z.abs (m * K - q2)) in *.
  assert (2 * A * (J * cb) <= E * (J * cb))
    by (apply Z.mul_le_mono_nonneg_r; lia).
  lia.
Qed.

Lemma rounded_sticky_within cq cb E K m N :
  2 * Z.abs (m * K * cb - N) <= cb * K -> 1 <= cb -> K <= E ->
  cq * E = m * K ->
  2 * Z.abs (cq * cb * E - N) <= cb * E.
Proof.
  intros Hb Hcb HKE Hm.
  replace (cq * cb * E) with (cq * E * cb) by ring. rewrite Hm.
  assert (cb * K <= cb * E) by (apply Z.mul_le_mono_nonneg_l; lia).
  lia.
Qed.

(** Division of two ordinary decimals in the default context: no signal is
    trapped, the quotient is positive, and it is the exact quotient rounded
    to 28 significant digits. *)
Lemma truediv_ordinary a b :
  ordinary a -> ordinary b ->
  exists q,
    Decimal.truediv Decimal.DefaultContext a b = Decimal.Value q
    /\ Decimal.is_positive q = true
    /\ Decimal.coeff q < 10 ^ 28
    /\ nearest_quotient q a b
    /\ (Decimal.ndigits (Decimal.coeff q) = 28 \/ exact_quotient q a b).
Proof.
  destruct a as [sa ca ea], b as [sb cb eb].
  intros (Hsa & Hca & Hea) (Hsb & Hcb & Heb).
  cbn [Decimal.sign Decimal.coeff Decimal.exp] in *. subst sa sb.
  unfold Decimal.truediv.
  cbn [Decimal.sign Decimal.coeff Decimal.exp Decimal.prec
       Decimal.DefaultContext xorb].
  assert ((cb =? 0) = false) as -> by (apply Z.eqb_neq; lia).
  assert ((ca =? 0) = false) as -> by (apply Z.eqb_neq; lia).
  cbv zeta.
  destruct (quotient_digits ca cb Hca Hcb) as [Hshift Hq0].
  cbv zeta in Hshift, Hq0.
  remember (Decimal.ndigits cb - Decimal.ndigits ca + 28 + 1) as shift
    eqn:Hsh.
  clear Hsh.
  assert ((0 <=? shift) = true) as -> by (apply Z.leb_le; lia).
  assert (Hcb0 : cb <> 0) by lia.
  assert (Hcbpos : 0 < cb) by lia.
  pose proof (Z.div_mod (ca * 10 ^ shift) cb Hcb0) as Hdm.
  pose proof (Z.mod_pos_bound (ca * 10 ^ shift) cb Hcbpos) as Hrem.
  remember (ca * 10 ^ shift) as N eqn:HN.
  remember (N / cb) as q0 eqn:Hq0def.
  remember (N mod cb) as rem eqn:Hremdef.
  clear Hq0def Hremdef.
  remember (ea - eb - shift) as exp0 eqn:Hexp0.
  destruct (rem =? 0) eqn:Erem.
  - (* the division is exact *)
    apply Z.eqb_eq in Erem.
    destruct (strip_zeros_spec (Z.to_nat (ea - eb - exp0)) q0 exp0 (ea - eb))
      as (j & Hj & Hcj & Hej).
    destruct (Decimal.strip_zeros (Z.to_nat (ea - eb - exp0)) q0 exp0 (ea - eb))
      as [q2 exp1].
    cbn [fst snd] in Hcj, Hej.
    assert (Hjs : 0 <= j <= shift) by lia.
    pose proof (pow10_pos j ltac:(lia)) as Hpj.
    assert (Hq2 : 1 <= q2 < 10 ^ 30).
    { apply (stripped_bounds q2 (10 ^ j) (10 ^ 28));
        [exact Hpj|reflexivity|]. rewrite <- Hcj. exact Hq0. }
    assert (HNq : N = q2 * 10 ^ j * cb).
    { rewrite Hdm, Erem, Hcj. ring. }
    assert (He1 : -300000 <= exp1 <= 300000) by lia.
    destruct (fix_quotient false q2 exp1 Hq2 He1)
      as (q & Hfix & Hs & Hcq & Heq & Hcase).
    exists q. split; [exact Hfix|].
    split; [unfold Decimal.is_positive; rewrite Hs; simpl;
            apply Z.ltb_lt; lia|].
    split; [lia|].
    assert (Hs0a : ea - shift <= ea) by lia.
    assert (Hs0q : ea - shift <= Decimal.exp q + eb) by lia.
    destruct Hcase as [[Hn ->] | (k & Hk & Hkn & Hek & Hm & Hn)].
    + assert (Hexact : q2 * cb * 10 ^ (exp1 + eb - (ea - shift))
                       = ca * 10 ^ (ea - (ea - shift))).
      { replace (exp1 + eb - (ea - shift)) with j by lia.
        replace (ea - (ea - shift)) with shift by lia.
        rewrite <- HN, HNq. ring. }
      split.
      * apply (nearest_quotient_at _ _ _ (ea - shift));
          cbn [Decimal.coeff Decimal.exp]; [lia|lia|].
        rewrite Hexact, Z.sub_diag. change (Z.abs 0) with 0.
        rewrite Z.mul_0_r.
        apply Z.mul_nonneg_nonneg; [lia|]. apply Z.pow_nonneg. lia.
      * right. apply (exact_quotient_at _ _ _ (ea - shift));
          cbn [Decimal.coeff Decimal.exp]; [lia|lia|]. exact Hexact.
    + split; [|left; exact Hn].
      apply (nearest_quotient_at _ _ _ (ea - shift));
        cbn [Decimal.coeff Decimal.exp]; [lia|lia|].
      replace (ea - (ea - shift)) with shift by lia. rewrite <- HN.
      replace (Decimal.exp q + eb - (ea - shift))
        with ((Decimal.exp q - exp1) + j) by lia.
      rewrite Z.pow_add_r by lia.
      destruct (round_half_even_div_bounds q2 k ltac:(lia) ltac:(lia))
        as [_ Hb].
      apply (rounded_exact_within _ _ _ _ (10 ^ k)
               (round_half_even_div q2 k) q2);
        [exact Hb|exact Hpj|lia| |exact Hm|exact HNq].
      apply Z.pow_le_mono_r; lia.
  - (* a remainder is left: the sticky digit *)
    apply Z.eqb_neq in Erem.
    remember (if q0 mod 5 =? 0 then q0 + 1 else q0) as q1 eqn:Hq1def.
    assert (Hq1 : 10 ^ 28 <= q1 < 10 ^ 30).
    { assert (H5 : q0 mod 5 = 0 -> q0 + 1 < 10 ^ 30).
      { intros H5. assert (Hne : q0 <> 10 ^ 30 - 1); [|lia].
        intros Heq. rewrite Heq in H5. now vm_compute in H5. }
      subst q1. destruct (q0 mod 5 =? 0) eqn:E5; [|lia].
      apply Z.eqb_eq in E5. specialize (H5 E5). lia. }
    assert (Hq1' : 1 <= q1 < 10 ^ 30) by lia.
    assert (He0 : -300000 <= exp0 <= 300000) by lia.
    destruct (fix_quotient false q1 exp0 Hq1' He0)
      as (q & Hfix & Hs & Hcq & Heq & Hcase).
    exists q. split; [exact Hfix|].
    split; [unfold Decimal.is_positive; rewrite Hs; simpl;
            apply Z.ltb_lt; lia|].
    split; [lia|].
    destruct Hcase as [[Hn _] | (k & Hk & Hkn & Hek & Hm & Hn)].
    + exfalso.
      destruct (ndigits_spec q1 ltac:(lia)) as [[_ Hlt] _].
      assert (10 ^ Decimal.ndigits q1 <= 10 ^ 28)
        by (apply Z.pow_le_mono_r; lia).
      lia.
    + split; [|left; exact Hn].
      apply (nearest_quotient_at _ _ _ (ea - shift));
        cbn [Decimal.coeff Decimal.exp]; [lia|lia|].
      replace (ea - (ea - shift)) with shift by lia. rewrite <- HN.
      replace (Decimal.exp q + eb - (ea - shift))
        with (Decimal.exp q - exp0) by lia.
      assert (Hq0nn : 0 <= q0) by lia.
      assert (HNr : N = q0 * cb + rem) by (rewrite Hdm at 1; ring).
      assert (Hrem' : 0 < rem < cb) by lia.
      pose proof (sticky_rounding cb N q0 rem k ltac:(lia)
                    HNr Hrem' Hq0nn Hk) as Hst.
      cbv zeta in Hst. rewrite <- Hq1def in Hst.
      apply (rounded_sticky_within _ _ _ (10 ^ k)
               (round_half_even_div q1 k));
        [exact Hst|lia| |exact Hm].
      apply Z.pow_le_mono_r; lia.
Qed.

(** ** Resolution from the store

    What [get_rate] answers beyond the cases of the claims: the accuracy of
    the two divisions, a stored rate of zero, and the pairs that involve the
    base currency. *)

Lemma ordinary_one : ordinary Decimal.one.
Proof. repeat split; now vm_compute. Qed.

Lemma quotient_ordinary a b :
  ordinary a -> ordinary b ->
  exists q, quotient a b = Ok (Some q) /\ correctly_rounded q a b.
Proof.
  intros Ha Hb.
  destruct (truediv_ordinary a b Ha Hb) as (q & Hq & Hpos & Hlt & Hn & Hd).
  exists q. unfold quotient. rewrite Hq. split; [reflexivity|].
  repeat split; assumption.
Qed.

(** X1. An inverse lookup does not raise and is accurate: when the store
    holds a positive rate [r] of at most 28 digits for (A -> B, d) and no
    record for (B -> A, d), [get_rate] for (B -> A, d) returns a positive
    decimal that is [1 / r] rounded to the 28 significant digits of the
    default context (within half a unit of the last digit, and exact when the
    quotient has fewer than 28 digits); the six fractional digits of the
    column do not limit it. *)
Theorem inverse_rate_correctly_rounded db a b d r :
  unique_exchange_rate_per_day (rates db) ->
  a <> b -> stored db a b d r -> no_record db b a d -> ordinary r ->
  exists q,
    CurrencyExchangeRateManager.get_rate db b a d = Ok (Some q)
    /\ correctly_rounded q Decimal.one r.
Proof.
  intros Hu Hab Hst Hno Hr.
  rewrite (get_rate_inverse db a b d r Hu Hab Hst Hno).
  apply quotient_ordinary; [exact ordinary_one | exact Hr].
Qed.

(** X2. A cross rate does not raise and is accurate: with no direct or
    inverse record for a pair (X, Y) of non-base currencies and positive
    rates [p], [q] of at most 28 digits stored for (base -> X, d) and
    (base -> Y, d), [get_rate] returns for (X -> Y, d) the quotient [q / p]
    and for (Y -> X, d) the quotient [p / q], each rounded once to 28
    significant digits. *)
Theorem cross_rate_correctly_rounded db x y d p q :
  unique_exchange_rate_per_day (rates db) ->
  x <> y ->
  x <> CurrencyExchangeRateManager.BASE_CURRENCY_CODE ->
  y <> CurrencyExchangeRateManager.BASE_CURRENCY_CODE ->
  no_record db x y d -> no_record db y x d ->
  stored db CurrencyExchangeRateManager.BASE_CURRENCY_CODE x d p ->
  stored db CurrencyExchangeRateManager.BASE_CURRENCY_CODE y d q ->
  ordinary p -> ordinary q ->
  exists u v,
    CurrencyExchangeRateManager.get_rate db x y d = Ok (Some u)
    /\ correctly_rounded u q p
    /\ CurrencyExchangeRateManager.get_rate db y x d = Ok (Some v)
    /\ correctly_rounded v p q.
Proof.
  intros Hu Hxy Hxb Hyb Hno1 Hno2 Hp Hq Hop Hoq.
  rewrite (get_rate_cross db x y d p q) by auto.
  rewrite (get_rate_cross db y x d q p) by auto.
  destruct (quotient_ordinary q p Hoq Hop) as (u & -> & Hu').
  destruct (quotient_ordinary p q Hop Hoq) as (v & -> & Hv').
  exists u, v. auto.
Qed.

(** X3. A stored rate of zero makes the inverse lookup raise: when the
    store holds the value zero for (A -> B, d) and no record for
    (B -> A, d), [get_rate] for (B -> A, d) raises [decimal.DivisionByZero];
    it neither returns a value nor reports the rate as not found. *)
Theorem inverse_of_zero_rate_raises db a b d r :
  unique_exchange_rate_per_day (rates db) ->
  a <> b -> stored db a b d r -> no_record db b a d ->
  Decimal.coeff r = 0 ->
  CurrencyExchangeRateManager.get_rate db b a d
  = Raise (DecimalException Decimal.DivisionByZero).
Proof.
  intros Hu Hab Hst Hno Hr.
  rewrite (get_rate_inverse db a b d r Hu Hab Hst Hno).
  unfold quotient, Decimal.truediv. rewrite Hr. reflexivity.
Qed.

(** X4. The base currency is never triangulated: for a pair made of the
    base currency and another currency X, with neither (base -> X, d) nor
    (X -> base, d) stored, [get_rate] returns not-found in both directions,
    whatever other rates of X the store holds; the two base-currency
    branches of [_calculate_cross_rate] repeat lookups that [get_rate] has
    already made. *)
Theorem base_currency_is_not_triangulated db x d :
  x <> CurrencyExchangeRateManager.BASE_CURRENCY_CODE ->
  no_record db CurrencyExchangeRateManager.BASE_CURRENCY_CODE x d ->
  no_record db x CurrencyExchangeRateManager.BASE_CURRENCY_CODE d ->
  CurrencyExchangeRateManager.get_rate db
    CurrencyExchangeRateManager.BASE_CURRENCY_CODE x d = Ok None
  /\ CurrencyExchangeRateManager.get_rate db x
       CurrencyExchangeRateManager.BASE_CURRENCY_CODE d = Ok None.
Proof.
  intros Hxb Hbx Hxb'.
  unfold CurrencyExchangeRateManager.get_rate,
    CurrencyExchangeRateManager._calculate_cross_rate.
  assert (Hbx' : x <> CurrencyExchangeRateManager.BASE_CURRENCY_CODE) by exact Hxb.
  apply String.eqb_neq in Hxb. rewrite Hxb.
  rewrite String.eqb_sym in Hxb. rewrite Hxb.
  rewrite String.eqb_refl.
  rewrite (filter_pair_no_record _ _ _ _ Hbx),
          (filter_pair_no_record _ _ _ _ Hxb').
  simpl. split; reflexivity.
Qed.

(** X5. A direct record takes precedence: when the store holds [r] for
    (A -> B, d), [get_rate] returns [r] itself for (A -> B, d), whether or
    not an inverse record or the legs of a cross rate are stored as well;
    no division takes place. *)
Theorem direct_record_takes_precedence db a b d r :
  unique_exchange_rate_per_day (rates db) ->
  a <> b -> stored db a b d r ->
  CurrencyExchangeRateManager.get_rate db a b d = Ok (Some r).
Proof.
  intros Hu Hab Hst. unfold CurrencyExchangeRateManager.get_rate.
  apply String.eqb_neq in Hab. rewrite Hab.
  destruct (filter_pair_stored _ _ _ _ _ Hu Hst) as (row & -> & <-).
  reflexivity.
Qed.

Lemma inverse_rate_correctly_rounded_witness :
  exists q,
    CurrencyExchangeRateManager.get_rate Scenario.rates_db "EUR" "USD"
      Scenario.day = Ok (Some q)
    /\ correctly_rounded q Decimal.one Scenario.r0_9123.
Proof.
  apply (inverse_rate_correctly_rounded Scenario.rates_db "USD" "EUR"
           Scenario.day).
  - unfold unique_exchange_rate_per_day. simpl. solve_NoDup.
  - discriminate.
  - exists Scenario.usd_eur. simpl. auto.
  - intros row [<- | [<- | []]]; discriminate.
  - repeat split; now vm_compute.
Defined.

Lemma cross_rate_correctly_rounded_witness :
  exists u v,
    CurrencyExchangeRateManager.get_rate Scenario.rates_db "EUR" "CHF"
      Scenario.day = Ok (Some u)
    /\ correctly_rounded u Scenario.r1_0832 Scenario.r0_9123
    /\ CurrencyExchangeRateManager.get_rate Scenario.rates_db "CHF" "EUR"
         Scenario.day = Ok (Some v)
    /\ correctly_rounded v Scenario.r0_9123 Scenario.r1_0832.
Proof.
  apply (cross_rate_correctly_rounded Scenario.rates_db "EUR" "CHF"
           Scenario.day).
  - unfold unique_exchange_rate_per_day. simpl. solve_NoDup.
  - discriminate.
  - discriminate.
  - discriminate.
  - intros row [<- | [<- | []]]; discriminate.
  - intros row [<- | [<- | []]]; discriminate.
  - exists Scenario.usd_eur. simpl. auto.
  - exists Scenario.usd_chf. simpl. auto.
  - repeat split; now vm_compute.
  - repeat split; now vm_compute.
Defined.

Lemma inverse_of_zero_rate_raises_witness :
  CurrencyExchangeRateManager.get_rate Cases.zero_rate_db "EUR" "USD"
    Scenario.day
  = Raise (DecimalException Decimal.DivisionByZero).
Proof.
  apply (inverse_of_zero_rate_raises Cases.zero_rate_db "USD" "EUR"
           Scenario.day Cases.zero).
  - unfold unique_exchange_rate_per_day. simpl. solve_NoDup.
  - discriminate.
  - eexists. simpl. split; [left; reflexivity|]. split; reflexivity.
  - intros row [<- | []]; discriminate.
  - reflexivity.
Defined.

Lemma base_currency_is_not_triangulated_witness :
  CurrencyExchangeRateManager.get_rate Cases.no_dollar_db "USD" "EUR"
    Scenario.day = Ok None
  /\ CurrencyExchangeRateManager.get_rate Cases.no_dollar_db "EUR" "USD"
       Scenario.day = Ok None.
Proof.
  apply (base_currency_is_not_triangulated Cases.no_dollar_db "EUR"
           Scenario.day).
  - discriminate.
  - intros row [<- | []]; discriminate.
  - intros row [<- | []]; discriminate.
Defined.

Lemma direct_record_takes_precedence_witness :
  CurrencyExchangeRateManager.get_rate Scenario.rates_db "USD" "EUR"
    Scenario.day = Ok (Some Scenario.r0_9123).
Proof.
  apply (direct_record_takes_precedence Scenario.rates_db "USD" "EUR"
           Scenario.day).
  - unfold unique_exchange_rate_per_day. simpl. solve_NoDup.
  - discriminate.
  - exists Scenario.usd_eur. simpl. auto.
Defined.

(** ** The orchestrator and the database *)

Section OrchestratorFacts.
Context {World : Type}.
Variable reg : list (string * (option string -> CurrencyAdapter World)).
Variables (src tgt : string) (d : date).

Lemma sweep_db n ps : forall errs (st : State World),
  st_db (snd (ProviderManagerService.sweep reg n src tgt d ps errs st))
  = st_db st.
Proof.
  induction ps as [|p ps IH]; intros errs st; [reflexivity|].
  cbn [ProviderManagerService.sweep]. unfold try_except.
  pose proof (attempt_state reg src tgt d p st) as [Hdb _].
  destruct (ProviderManagerService.attempt reg p src tgt d st)
    as [[q|e] st1]; simpl in Hdb; [exact Hdb|].
  unfold bind.
  pose proof (log_failure_state p e st1) as [Hdb' _].
  destruct (ProviderManagerService.log_failure p e st1) as [[u|e'] st2];
    simpl in Hdb'.
  - rewrite IH. congruence.
  - simpl. congruence.
Qed.

(** Whatever it returns or raises, the orchestrator leaves the database as
    it found it. *)
Lemma orchestrator_db pn (st : State World) :
  st_db (snd (ProviderManagerService.get_exchange_rate_data reg src tgt d pn st))
  = st_db st.
Proof.
  unfold ProviderManagerService.get_exchange_rate_data.
  destruct (truthy pn) as [name|].
  - unfold bind, try_except.
    destruct (ProviderManager.get_active_by_name (st_db st) name) as [p|e].
    + pose proof (get_adapter_state reg p st) as (Hdb & _).
      destruct (ProviderManagerService._get_adapter reg p st) as [[a|e] st1];
        simpl in Hdb; [|exact Hdb].
      pose proof (call_adapter_state src tgt d p a st1) as (_ & _ & Hdb' & _).
      congruence.
    + now destruct e.
  - unfold bind, ProviderManagerService._get_active_providers, gets.
    destruct (ProviderManager.get_active_ordered (st_db st)) as [|p ps];
      [reflexivity|].
    apply sweep_db.
Qed.

End OrchestratorFacts.

(** ** The service on a hit in the store *)

(** X6. A pair of equal codes is answered with the rate one: when the two
    codes agree up to case and have three characters,
    [get_exchange_rate] returns the quote (S, S, d, 1) with no provider
    name, whatever the store holds and whether or not S is a currency of
    the store; no provider is asked and the database is not changed. *)
Theorem same_currency_is_answered_with_one {World : Type}
    (reg : list (string * (option string -> CurrencyAdapter World)))
    src tgt d provider (st : State World) :
  upper src = upper tgt -> String.length src = 3%nat ->
  let run := ExchangeRateService.get_exchange_rate reg src tgt d provider st in
  fst run
  = Ok (ExchangeRateData.mk (upper src) (upper src) d Decimal.one None)
  /\ st_db (snd run) = st_db st
  /\ st_world (snd run) = st_world st
  /\ st_calls (snd run) = st_calls st.
Proof.
  intros Heq Hlen.
  assert (Hhit : CurrencyExchangeRateManager.get_rate (st_db st) (upper src)
                   (upper tgt) d = Ok (Some Decimal.one)).
  { unfold CurrencyExchangeRateManager.get_rate.
    now rewrite Heq, String.eqb_refl. }
  pose proof (get_exchange_rate_hit reg src tgt d provider st _ Hhit)
    as (Hfst & Hrest).
  cbv zeta. split; [|exact Hrest].
  rewrite Hfst, <- Heq.
  rewrite new_valid by (rewrite ?upper_length; auto).
  now rewrite !upper_idempotent.
Qed.

Lemma same_currency_is_answered_with_one_witness :
  fst (ExchangeRateService.get_exchange_rate Scenario.fallback_registry
         "xau" "XAU" Scenario.day None
         (Scenario.state_of Scenario.fallback_db))
  = Ok (ExchangeRateData.mk "XAU" "XAU" Scenario.day Decimal.one None).
Proof.
  apply (same_currency_is_answered_with_one Scenario.fallback_registry
           "xau" "XAU" Scenario.day None
           (Scenario.state_of Scenario.fallback_db));
    reflexivity.
Defined.

(** X7. A stored rate that is not positive cannot be served: when the
    store answers a request with a value that is zero or negative,
    [get_exchange_rate] raises the validation error of [ExchangeRateData]
    (whose rate must be greater than zero); it does not return the stored
    value, asks no provider and leaves the database as it is. *)
Theorem stored_rate_not_positive_is_rejected {World : Type}
    (reg : list (string * (option string -> CurrencyAdapter World)))
    src tgt d provider (st : State World) rate :
  CurrencyExchangeRateManager.get_rate (st_db st) (upper src) (upper tgt) d
  = Ok (Some rate) ->
  String.length src = 3%nat -> String.length tgt = 3%nat ->
  Decimal.is_positive rate = false ->
  let run := ExchangeRateService.get_exchange_rate reg src tgt d provider st in
  fst run
  = Raise (ValidationError
             [FInt 1; Lit " validation error(s) for ExchangeRateData"])
  /\ st_db (snd run) = st_db st
  /\ st_calls (snd run) = st_calls st.
Proof.
  intros Hhit Hs Ht Hneg.
  pose proof (get_exchange_rate_hit reg src tgt d provider st _ Hhit)
    as (Hfst & Hdb & _ & Hc).
  cbv zeta. split; [|split; assumption].
  rewrite Hfst. unfold ExchangeRateData.new, ExchangeRateData.code_ok.
  rewrite !upper_length, Hs, Ht, Hneg. reflexivity.
Qed.

Lemma stored_rate_not_positive_is_rejected_witness :
  let run :=
    ExchangeRateService.get_exchange_rate Scenario.fallback_registry
      "USD" "EUR" Scenario.day None
      (Scenario.state_of Cases.zero_rate_db) in
  fst run
  = Raise (ValidationError
             [FInt 1; Lit " validation error(s) for ExchangeRateData"])
  /\ st_db (snd run) = Cases.zero_rate_db
  /\ st_calls (snd run) = [].
Proof.
  apply (stored_rate_not_positive_is_rejected Scenario.fallback_registry
           "USD" "EUR" Scenario.day None
           (Scenario.state_of Cases.zero_rate_db) Cases.zero);
    reflexivity.
Defined.

(** ** The service after a fetch *)

(** X8. An empty provider name is "no provider" for the orchestrator but a
    name for the service: called with [provider = ""] on a miss in the
    store, [get_exchange_rate] lets the orchestrator sweep the active
    providers as if none were forced, and then looks up the provider row
    named [""]; when the sweep has fetched a quote and no provider row has
    the empty name, the call raises [Provider.DoesNotExist], the fetched
    quote is neither returned nor stored. *)
Theorem empty_provider_name_loses_the_quote {World : Type}
    (reg : list (string * (option string -> CurrencyAdapter World)))
    src tgt d (st st1 : State World) q :
  CurrencyExchangeRateManager.get_rate (st_db st) (upper src) (upper tgt) d
  = Ok None ->
  ProviderManagerService.get_exchange_rate_data reg (upper src) (upper tgt) d
    None (after_miss src tgt st) = (Ok q, st1) ->
  (forall p, In p (providers (st_db st)) -> Provider.name p <> ""%string) ->
  ExchangeRateService.get_exchange_rate reg src tgt d (Some ""%string) st
  = (Raise (DoesNotExist ProviderModel), st1)
  /\ st_db st1 = st_db st.
Proof.
  intros Hmiss Hfetch Hnames.
  assert (Hdb : st_db st1 = st_db st).
  { pose proof (orchestrator_db reg (upper src) (upper tgt) d None
                  (after_miss src tgt st)) as H.
    rewrite Hfetch in H. exact H. }
  split; [|exact Hdb].
  unfold ExchangeRateService.get_exchange_rate, bind. rewrite Hmiss.
  unfold logger, modify. fold (after_miss src tgt st).
  change (ProviderManagerService.get_exchange_rate_data reg (upper src)
            (upper tgt) d (Some ""%string))
    with (ProviderManagerService.get_exchange_rate_data reg (upper src)
            (upper tgt) d None).
  rewrite Hfetch.
  unfold ProviderManager.get_by_name. rewrite Hdb.
  assert (List.filter (fun p => String.eqb (Provider.name p) "")
            (providers (st_db st)) = []) as ->; [|reflexivity].
  induction (providers (st_db st)) as [|p l IH]; [reflexivity|].
  simpl. destruct (String.eqb (Provider.name p) "") eqn:E.
  - apply String.eqb_eq in E. destruct (Hnames p (or_introl eq_refl) E).
  - apply IH. intros p' Hin. apply Hnames. now right.
Qed.

Lemma empty_provider_name_loses_the_quote_witness :
  exists st1,
    ExchangeRateService.get_exchange_rate Scenario.fallback_registry
      "usd" "eur" Scenario.day (Some ""%string)
      (Scenario.state_of Scenario.fallback_db)
    = (Raise (DoesNotExist ProviderModel), st1)
    /\ st_db st1 = Scenario.fallback_db
    /\ st_calls st1 = ["p1"; "p2"]%string.
Proof.
  pose (run := ProviderManagerService.get_exchange_rate_data
                 Scenario.fallback_registry (upper "usd") (upper "eur")
                 Scenario.day None
                 (after_miss "usd" "eur"
                    (Scenario.state_of Scenario.fallback_db))).
  pose (q := ExchangeRateData.mk "USD" "EUR" Scenario.day Scenario.r0_9123
               (Some "p2"%string)).
  destruct (empty_provider_name_loses_the_quote Scenario.fallback_registry
              "usd" "eur" Scenario.day
              (Scenario.state_of Scenario.fallback_db) (snd run) q)
    as (Hrun & Hdb).
  - reflexivity.
  - vm_compute. reflexivity.
  - intros p [<- | [<- | [<- | []]]]; discriminate.
  - exists (snd run). split; [exact Hrun|]. split; [exact Hdb|reflexivity].
Defined.

Lemma miss_has_no_direct_record db s t d :
  CurrencyExchangeRateManager.get_rate db s t d = Ok None ->
  s <> t /\ no_record db s t d.
Proof.
  unfold CurrencyExchangeRateManager.get_rate.
  destruct (String.eqb s t) eqn:E; [discriminate|].
  apply String.eqb_neq in E. intros H. split; [exact E|].
  unfold CurrencyExchangeRateManager.filter_pair in H.
  intros row Hin Hk. apply matches_rate_key in Hk.
  assert (Hf : In row (List.filter (CurrencyExchangeRateManager.matches s t d)
                         (rates db)))
    by (apply List.filter_In; auto).
  destruct (List.filter _ _) as [|r l]; [destruct Hf | discriminate].
Qed.

Lemma get_by_code_known db code c :
  List.NoDup (map Currency.code (currencies db)) ->
  In c (currencies db) -> Currency.code c = upper code ->
  CurrencyManager.get_by_code db code = Ok c.
Proof.
  intros Hnd Hin Hc.
  destruct (get_by_code_cases db code Hnd)
    as [[_ Hno] | (c' & Hget & Hin' & Hc')].
  - destruct (Hno c Hin Hc).
  - rewrite Hget. f_equal.
    clear Hget. revert Hnd Hin Hin'. generalize (currencies db).
    induction l as [|x l IH]; simpl; intros Hnd Hin Hin'; [destruct Hin|].
    apply List.NoDup_cons_iff in Hnd as [Hnotin Hnd].
    destruct Hin as [-> | Hin], Hin' as [-> | Hin']; auto.
    + exfalso. apply Hnotin. apply in_map_iff. exists c'. split; congruence.
    + exfalso. apply Hnotin. apply in_map_iff. exists c. split; congruence.
Qed.

(** ** The default provider *)

(** X10. [get_default] returns an active provider of the least priority
    number: it is [None] exactly when no provider is active, and otherwise
    an active row of the table whose priority is at most that of every
    active provider. *)
Theorem get_default_has_least_priority db :
  match ProviderManager.get_default db with
  | None => forall p, In p (providers db) -> Provider.is_active p = false
  | Some p0 =>
      In p0 (providers db) /\ Provider.is_active p0 = true
      /\ forall p, In p (providers db) -> Provider.is_active p = true ->
                   Provider.priority p0 <= Provider.priority p
  end.
Proof.
  unfold ProviderManager.get_default, first.
  pose proof (get_active_ordered_sorted db) as Hs.
  pose proof (get_active_ordered_In db) as Hin.
  destruct (ProviderManager.get_active_ordered db) as [|p0 l] eqn:E; simpl.
  - intros p Hp. destruct (Provider.is_active p) eqn:Ea; [|reflexivity].
    assert (H : In p []) by (apply Hin; auto). destruct H.
  - assert (H0 : In p0 (providers db) /\ Provider.is_active p0 = true)
      by (apply Hin; now left).
    destruct H0 as [H0 H0']. split; [exact H0|]. split; [exact H0'|].
    intros p Hp Ha.
    assert (Hp' : In p (p0 :: l)) by (apply Hin; auto).
    destruct Hp' as [-> | Hp']; [lia|].
    apply Sorted_StronglySorted in Hs.
    + apply StronglySorted_inv in Hs as [_ Hall].
      rewrite List.Forall_forall in Hall. now apply Hall.
    + intros a b c Hab Hbc. lia.
Qed.

(** ** The adapter cache *)

(** X11. The adapter cache is keyed by the provider's name and id only:
    once [_get_adapter] has returned an adapter for a provider, every later
    call for a provider row with the same name and id returns that same
    instance and changes nothing, also when the row's API key or the
    registry entry has changed in the meantime; after
    [clear_adapter_cache] the next call builds a new instance from the
    current registry entry and the row's current API key. *)
Theorem adapter_cache_serves_the_first_instance {World : Type}
    (reg reg' : list (string * (option string -> CurrencyAdapter World)))
    p p' (st st1 : State World) a :
  ProviderManagerService._get_adapter reg p st = (Ok a, st1) ->
  Provider.name p' = Provider.name p -> Provider.id p' = Provider.id p ->
  ProviderManagerService._get_adapter reg' p' st1 = (Ok a, st1)
  /\ forall adapter_class,
       dict_get reg' (Provider.name p') = Some adapter_class ->
       fst (ProviderManagerService._get_adapter reg' p'
              (snd (ProviderManagerService.clear_adapter_cache st1)))
       = Ok (adapter_class
               (if String.eqb (Provider.api_key p') "" then None
                else Some (Provider.api_key p'))).
Proof.
  intros Hget Hname Hid. split.
  - unfold ProviderManagerService._get_adapter in *. rewrite Hname, Hid.
    destruct (st_adapter_cache st !! _) as [a0|] eqn:E.
    + injection Hget as <- <-. now rewrite E.
    + destruct (dict_get reg (Provider.name p)) as [cls|]; [|discriminate].
      injection Hget as <- <-. simpl. now rewrite lookup_insert_eq.
  - intros cls Hcls.
    unfold ProviderManagerService._get_adapter,
      ProviderManagerService.clear_adapter_cache, modify. simpl.
    rewrite lookup_empty, Hcls. reflexivity.
Qed.

Lemma adapter_cache_serves_the_first_instance_witness :
  let st1 :=
    snd (ProviderManagerService._get_adapter Scenario.fallback_registry
           (Scenario.row 2 "p1" 1 true)
           (Scenario.state_of Scenario.fallback_db)) in
  fst (ProviderManagerService._get_adapter Scenario.unnamed_registry
         (Provider.mk 2 "p1" "p1" "a-new-key" "" 1 true 30) st1)
  = Ok (Scenario.failing "p1" "network error" None).
Proof.
  cbv zeta.
  destruct (adapter_cache_serves_the_first_instance
              Scenario.fallback_registry Scenario.unnamed_registry
              (Scenario.row 2 "p1" 1 true)
              (Provider.mk 2 "p1" "p1" "a-new-key" "" 1 true 30)
              (Scenario.state_of Scenario.fallback_db)
              (snd (ProviderManagerService._get_adapter
                      Scenario.fallback_registry (Scenario.row 2 "p1" 1 true)
                      (Scenario.state_of Scenario.fallback_db)))
              (Scenario.failing "p1" "network error" None)) as [H _].
  - reflexivity.
  - reflexivity.
  - reflexivity.
  - rewrite H. reflexivity.
Defined.

(** ** Dates without a rate *)

Lemma all_dates_loop_spec fuel : forall current date_to acc,
  date_to < CurrencyExchangeRateManager.MAXORDINAL ->
  date_to - current + 1 < Z.of_nat fuel ->
  CurrencyExchangeRateManager.all_dates_loop fuel current date_to acc
  = Ok (acc ++ seqZ current (date_to - current + 1)).
Proof.
  induction fuel as [|fuel IH]; intros current date_to acc Hmax Hfuel.
  - simpl. rewrite seqZ_nil by lia. now rewrite app_nil_r.
  - cbn [CurrencyExchangeRateManager.all_dates_loop].
    destruct (current <=? date_to) eqn:E.
    + apply Z.leb_le in E. unfold CurrencyExchangeRateManager.add_one_day.
      assert ((current + 1 <=? CurrencyExchangeRateManager.MAXORDINAL) = true)
        as -> by (apply Z.leb_le; lia).
      rewrite IH by lia.
      rewrite (seqZ_cons current) by lia. rewrite <- app_assoc. simpl.
      repeat f_equal; lia.
    + apply Z.leb_gt in E. rewrite seqZ_nil by lia. now rewrite app_nil_r.
Qed.

Lemma all_dates_loop_overflow fuel : forall current acc,
  current <= CurrencyExchangeRateManager.MAXORDINAL ->
  CurrencyExchangeRateManager.MAXORDINAL - current < Z.of_nat fuel ->
  CurrencyExchangeRateManager.all_dates_loop fuel current
    CurrencyExchangeRateManager.MAXORDINAL acc
  = Raise (OtherException [Lit "date value out of range"]).
Proof.
  induction fuel as [|fuel IH]; intros current acc Hle Hfuel; [simpl in *; lia|].
  cbn [CurrencyExchangeRateManager.all_dates_loop].
  assert ((current <=? CurrencyExchangeRateManager.MAXORDINAL) = true) as ->
    by (apply Z.leb_le; lia).
  unfold CurrencyExchangeRateManager.add_one_day.
  destruct (current + 1 <=? CurrencyExchangeRateManager.MAXORDINAL) eqn:E;
    [|reflexivity].
  apply Z.leb_le in E. apply IH; lia.
Qed.

Lemma StronglySorted_seqZ n : forall m, StronglySorted Z.lt (seqZ m (Z.of_nat n)).
Proof.
  induction n as [|n IH]; intros m.
  - rewrite seqZ_nil by lia. constructor.
  - rewrite seqZ_cons by lia.
    replace (Z.pred (Z.of_nat (S n))) with (Z.of_nat n) by lia.
    constructor; [apply IH|].
    apply List.Forall_forall. intros x Hx.
    apply list_elem_of_In, elem_of_seqZ in Hx. lia.
Qed.

Lemma StronglySorted_filter {A : Type} (R : A -> A -> Prop) (f : A -> bool) l :
  StronglySorted R l -> StronglySorted R (List.filter f l).
Proof.
  induction 1 as [|a l Hs IH Hall]; simpl; [constructor|].
  destruct (f a); [|exact IH].
  constructor; [exact IH|].
  rewrite List.Forall_forall in *. intros x Hx.
  apply List.filter_In in Hx as [Hx _]. now apply Hall.
Qed.

(** X12. Below [date.max], [get_missing_dates] returns exactly the gaps of
    the range: the dates from [date_from] to [date_to] (both included) on
    which the store holds no rate whose source currency has the given code,
    each once and in ascending order; the list is empty when [date_from] is
    after [date_to]. The code is compared as it is given, without
    upper-casing. *)
Theorem get_missing_dates_lists_the_gaps db source_currency date_from date_to :
  date_to < CurrencyExchangeRateManager.MAXORDINAL ->
  exists l,
    CurrencyExchangeRateManager.get_missing_dates db source_currency
      date_from date_to = Ok l
    /\ (forall d, In d l <->
                  date_from <= d <= date_to
                  /\ ~ has_rate_on db source_currency d)
    /\ StronglySorted Z.lt l.
Proof.
  intros Hmax. unfold CurrencyExchangeRateManager.get_missing_dates.
  rewrite all_dates_loop_spec by lia. simpl app.
  eexists. split; [reflexivity|]. split.
  - intros d. rewrite List.filter_In, bool_decide_eq_true.
    rewrite <- list_elem_of_In, elem_of_seqZ, elem_of_list_to_set.
    split; intros [Hr Hn]; (split; [lia|]).
    + intros (row & Hin & Hs & Hd). apply Hn.
      apply list_elem_of_In, in_map_iff. exists row. split; [exact Hd|].
      apply List.filter_In. split; [exact Hin|].
      rewrite Hs, Hd, String.eqb_refl. simpl.
      apply andb_true_iff; split; apply Z.leb_le; lia.
    + intros Hel. apply list_elem_of_In, in_map_iff in Hel as (row & Hd & Hin).
      apply List.filter_In in Hin as [Hin Hc].
      apply andb_true_iff in Hc as [Hc _]. apply andb_true_iff in Hc as [Hc _].
      apply String.eqb_eq in Hc. apply Hn. exists row. auto.
  - apply StronglySorted_filter.
    destruct (Z_le_gt_dec 0 (date_to - date_from + 1)) as [Hpos | Hneg].
    + rewrite <- (Z2Nat.id (date_to - date_from + 1)) by exact Hpos.
      apply StronglySorted_seqZ.
    + rewrite seqZ_nil by lia. constructor.
Qed.

Lemma get_missing_dates_lists_the_gaps_witness :
  exists l,
    CurrencyExchangeRateManager.get_missing_dates Scenario.rates_db "USD"
      (Scenario.day - 1) (Scenario.day + 1) = Ok l
    /\ (forall d, In d l <->
                  Scenario.day - 1 <= d <= Scenario.day + 1
                  /\ ~ has_rate_on Scenario.rates_db "USD" d)
    /\ StronglySorted Z.lt l.
Proof.
  apply (get_missing_dates_lists_the_gaps Scenario.rates_db "USD"
           (Scenario.day - 1) (Scenario.day + 1)).
  reflexivity.
Defined.

(** X13. At [date.max] the loop of [get_missing_dates] overflows: when
    [date_to] is [date.max] and [date_from] is not after it, the call raises
    the [OverflowError] of the last [current += timedelta(days=1)], whatever
    the store holds, instead of returning the gaps. *)
Theorem get_missing_dates_overflows_at_date_max db source_currency date_from :
  date_from <= CurrencyExchangeRateManager.MAXORDINAL ->
  CurrencyExchangeRateManager.get_missing_dates db source_currency date_from
    CurrencyExchangeRateManager.MAXORDINAL
  = Raise (OtherException [Lit "date value out of range"]).
Proof.
  intros Hle. unfold CurrencyExchangeRateManager.get_missing_dates.
  rewrite all_dates_loop_overflow by lia. reflexivity.
Qed.

Lemma get_missing_dates_overflows_at_date_max_witness :
  CurrencyExchangeRateManager.get_missing_dates Scenario.rates_db "USD"
    (CurrencyExchangeRateManager.MAXORDINAL - 2)
    CurrencyExchangeRateManager.MAXORDINAL
  = Raise (OtherException [Lit "date value out of range"]).
Proof.
  apply (get_missing_dates_overflows_at_date_max Scenario.rates_db "USD"
           (CurrencyExchangeRateManager.MAXORDINAL - 2)).
  now vm_compute.
Defined.

(** ** Time series *)

Lemma insert_by_date_perm r l :
  Permutation (CurrencyExchangeRateManager.insert_by_date r l) (r :: l).
Proof.
  induction l as [|q l IH]; simpl; [reflexivity|].
  destruct (_ <=? _); [reflexivity|].
  rewrite IH. apply perm_swap.
Qed.

Lemma order_by_valuation_date_perm l :
  Permutation (CurrencyExchangeRateManager.order_by_valuation_date l) l.
Proof.
  induction l as [|r l IH]; simpl; [reflexivity|].
  rewrite insert_by_date_perm. now constructor.
Qed.

#[local] Abbreviation by_date :=
  (fun a b : CurrencyExchangeRate.t =>
     CurrencyExchangeRate.valuation_date a
     <= CurrencyExchangeRate.valuation_date b).

Lemma insert_by_date_sorted r l :
  StronglySorted by_date l ->
  StronglySorted by_date (CurrencyExchangeRateManager.insert_by_date r l).
Proof.
  induction 1 as [|q l Hs IH Hall]; simpl.
  - repeat constructor.
  - destruct (_ <=? _) eqn:E.
    + apply Z.leb_le in E. constructor; [now constructor|].
      constructor; [exact E|].
      rewrite List.Forall_forall in *. intros x Hx.
      specialize (Hall x Hx). simpl in *. lia.
    + apply Z.leb_gt in E. constructor; [exact IH|].
      rewrite List.Forall_forall in *. intros x Hx.
      apply (Permutation_in _ (insert_by_date_perm r l)) in Hx.
      destruct Hx as [<- | Hx]; [simpl; lia | now apply Hall].
Qed.

Lemma order_by_valuation_date_sorted l :
  StronglySorted by_date (CurrencyExchangeRateManager.order_by_valuation_date l).
Proof.
  induction l as [|r l IH]; simpl; [constructor|].
  now apply insert_by_date_sorted.
Qed.

Section SeriesRows.
Variables (db : DB) (s t : string) (date_from date_to : option date).

(** The rows that a series is made of. *)
#[local] Abbreviation series_rows :=
  (CurrencyExchangeRateManager.filter_to date_to
     (CurrencyExchangeRateManager.filter_from date_from
        (CurrencyExchangeRateManager.order_by_valuation_date
           (List.filter (CurrencyExchangeRateManager.pair_matches s t)
              (rates db))))).

Lemma series_rows_In r :
  In r series_rows
  <-> In r (rates db)
      /\ CurrencyExchangeRateManager.pair_matches s t r = true
      /\ within date_from date_to (CurrencyExchangeRate.valuation_date r).
Proof.
  unfold CurrencyExchangeRateManager.filter_to,
    CurrencyExchangeRateManager.filter_from, within.
  assert (Hord : forall x,
            In x (CurrencyExchangeRateManager.order_by_valuation_date
                    (List.filter (CurrencyExchangeRateManager.pair_matches s t)
                       (rates db)))
            <-> In x (rates db)
                /\ CurrencyExchangeRateManager.pair_matches s t x = true).
  { intros x. rewrite <- List.filter_In.
    split; apply Permutation_in;
      [| symmetry]; apply order_by_valuation_date_perm. }
  destruct date_to as [u|], date_from as [f|];
    rewrite ?List.filter_In, Hord, ?Z.leb_le; tauto.
Qed.

Lemma series_rows_sorted : StronglySorted by_date series_rows.
Proof.
  unfold CurrencyExchangeRateManager.filter_to,
    CurrencyExchangeRateManager.filter_from.
  destruct date_to, date_from;
    repeat apply StronglySorted_filter; apply order_by_valuation_date_sorted.
Qed.

End SeriesRows.

Lemma values_sorted rows :
  StronglySorted by_date rows ->
  StronglySorted Z.le (map fst (CurrencyExchangeRateManager.values rows)).
Proof.
  induction 1 as [|r l Hs IH Hall]; simpl; constructor; [exact IH|].
  rewrite List.Forall_forall in *. intros x Hx.
  unfold CurrencyExchangeRateManager.values in Hx. rewrite map_map in Hx.
  apply in_map_iff in Hx as (r' & <- & Hr'). simpl. now apply Hall.
Qed.

Lemma values_In rows d v :
  In (d, v) (CurrencyExchangeRateManager.values rows)
  <-> exists r, In r rows /\ CurrencyExchangeRate.valuation_date r = d
                /\ CurrencyExchangeRate.rate_value r = v.
Proof.
  unfold CurrencyExchangeRateManager.values. rewrite in_map_iff.
  split; intros (r & H1 & H2); exists r.
  - injection H1 as <- <-. auto.
  - destruct H2 as [<- <-]. auto.
Qed.

Lemma pair_matches_rate_key s t r :
  CurrencyExchangeRateManager.pair_matches s t r = true
  <-> rate_key r = (s, t, CurrencyExchangeRate.valuation_date r).
Proof.
  unfold CurrencyExchangeRateManager.pair_matches, rate_key.
  rewrite andb_true_iff, !String.eqb_eq. split.
  - intros [-> ->]. reflexivity.
  - intros H. injection H as -> ->. auto.
Qed.

Lemma reciprocals_In l : forall l',
  CurrencyExchangeRateManager.reciprocals l = Ok l' ->
  forall d v, In (d, v) l' ->
  exists r, In (d, r) l
            /\ Decimal.truediv Decimal.DefaultContext Decimal.one r
               = Decimal.Value v.
Proof.
  induction l as [|[d0 r0] l IH]; simpl; intros l' H d v Hin.
  - injection H as <-. destruct Hin.
  - destruct (Decimal.truediv _ _ r0) as [q|sg] eqn:E; [|discriminate].
    destruct (CurrencyExchangeRateManager.reciprocals l) as [l0|e];
      [|discriminate].
    injection H as <-. destruct Hin as [Heq | Hin].
    + injection Heq as <- <-. exists r0. auto.
    + destruct (IH l0 eq_refl d v Hin) as (r & Hr & Hq). exists r. auto.
Qed.

Lemma reciprocals_ordinary l :
  (forall item, In item l -> ordinary (snd item)) ->
  exists l',
    CurrencyExchangeRateManager.reciprocals l = Ok l'
    /\ Forall2 (fun item' item =>
                  fst item' = fst item
                  /\ correctly_rounded (snd item') Decimal.one (snd item))
         l' l.
Proof.
  induction l as [|[d0 r0] l IH]; simpl; intros Hord.
  - exists []. split; [reflexivity | constructor].
  - destruct (truediv_ordinary Decimal.one r0 ordinary_one
                (Hord (d0, r0) (or_introl eq_refl)))
      as (q & Hq & Hpos & Hlt & Hn & Hd).
    rewrite Hq.
    destruct IH as (l' & -> & Hall); [intros item Hi; apply Hord; now right|].
    exists ((d0, q) :: l'). split; [reflexivity|].
    constructor; [|exact Hall]. simpl. repeat split; assumption.
Qed.

Lemma get_rate_direct db a b d r :
  unique_exchange_rate_per_day (rates db) ->
  a <> b -> stored db a b d r ->
  CurrencyExchangeRateManager.get_rate db a b d = Ok (Some r).
Proof.
  intros Hu Hab Hst. unfold CurrencyExchangeRateManager.get_rate.
  apply String.eqb_neq in Hab. rewrite Hab.
  destruct (filter_pair_stored _ _ _ _ _ Hu Hst) as (row & -> & <-).
  reflexivity.
Qed.

Lemma reciprocals_fst l : forall l',
  CurrencyExchangeRateManager.reciprocals l = Ok l' -> map fst l' = map fst l.
Proof.
  induction l as [|[d0 r0] l IH]; simpl; intros l' H.
  - now injection H as <-.
  - destruct (Decimal.truediv _ _ r0) as [q|sg]; [|discriminate].
    destruct (CurrencyExchangeRateManager.reciprocals l) as [l0|e];
      [|discriminate].
    injection H as <-. simpl. f_equal. now apply IH.
Qed.

Lemma Forall2_In_left {A B : Type} (P : A -> B -> Prop) l' l :
  Forall2 P l' l -> forall x, In x l' -> exists y, In y l /\ P x y.
Proof.
  induction 1 as [|x0 y0 l' l H0 H IH]; intros x Hin; [destruct Hin|].
  destruct Hin as [<- | Hin].
  - exists y0. split; [now left | exact H0].
  - destruct (IH x Hin) as (y & Hy & Hp). exists y. split; [now right | exact Hp].
Qed.

#[local] Abbreviation series_of db s t date_from date_to :=
  (CurrencyExchangeRateManager.filter_to date_to
     (CurrencyExchangeRateManager.filter_from date_from
        (CurrencyExchangeRateManager.order_by_valuation_date
           (List.filter (CurrencyExchangeRateManager.pair_matches s t)
              (rates db))))).

Lemma series_row_stored db s t date_from date_to r :
  In r (series_of db s t date_from date_to) ->
  stored db s t (CurrencyExchangeRate.valuation_date r)
    (CurrencyExchangeRate.rate_value r)
  /\ within date_from date_to (CurrencyExchangeRate.valuation_date r).
Proof.
  intros Hr. apply series_rows_In in Hr as (Hin & Hm & Hw).
  split; [|exact Hw]. exists r. split; [exact Hin|].
  split; [now apply pair_matches_rate_key | reflexivity].
Qed.

(** X14. A series agrees with the lookup of single rates: whenever
    [get_timeseries] returns a list for a pair of different codes, its
    dates are in ascending order and within the bounds that were given, and
    for every item (d, v) of it [get_rate] returns [v] for the pair on [d]:
    the stored value when the series was read from direct records, the
    reciprocal when it was computed from inverse ones. The uniqueness
    constraint of the table holds. *)
Theorem timeseries_agrees_with_get_rate db s t date_from date_to data :
  unique_exchange_rate_per_day (rates db) -> s <> t ->
  CurrencyExchangeRateManager.get_timeseries db s t date_from date_to
  = Ok data ->
  StronglySorted Z.le (map fst data)
  /\ forall d v, In (d, v) data ->
       within date_from date_to d
       /\ CurrencyExchangeRateManager.get_rate db s t d = Ok (Some v).
Proof.
  intros Hu Hst. unfold CurrencyExchangeRateManager.get_timeseries.
  pose proof (series_rows_sorted db s t date_from date_to) as Hsorted.
  pose proof (series_row_stored db s t date_from date_to) as Hrows.
  pose proof (series_rows_In db s t date_from date_to) as HIn.
  set (rows := series_of db s t date_from date_to) in *.
  destruct (CurrencyExchangeRateManager.values rows) as [|item l] eqn:Ev.
  - pose proof (series_rows_sorted db t s date_from date_to) as Hsorted'.
    pose proof (series_row_stored db t s date_from date_to) as Hrows'.
    set (rows' := series_of db t s date_from date_to) in *.
    assert (Hempty : rows = []).
    { destruct rows; [reflexivity | discriminate]. }
    assert (Hrec : CurrencyExchangeRateManager.reciprocals
                     (CurrencyExchangeRateManager.values rows') = Ok data ->
                   StronglySorted Z.le (map fst data)
                   /\ forall d v, In (d, v) data ->
                        within date_from date_to d
                        /\ CurrencyExchangeRateManager.get_rate db s t d
                           = Ok (Some v)).
    { intros Hrec. split.
      - rewrite (reciprocals_fst _ _ Hrec). now apply values_sorted.
      - intros d v Hin.
        destruct (reciprocals_In _ _ Hrec d v Hin) as (r & Hr & Hq).
        apply values_In in Hr as (row & Hrow & <- & <-).
        destruct (Hrows' row Hrow) as [Hstored Hw]. split; [exact Hw|].
        rewrite (get_rate_inverse db t s _ _ Hu (not_eq_sym Hst) Hstored).
        + unfold quotient. now rewrite Hq.
        + intros row0 Hin0 Hk.
          assert (Hin1 : In row0 rows).
          { apply HIn. split; [exact Hin0|].
            assert (Hd : CurrencyExchangeRate.valuation_date row0
                         = CurrencyExchangeRate.valuation_date row)
              by (unfold rate_key in Hk; congruence).
            split; [|now rewrite Hd].
            apply pair_matches_rate_key. now rewrite Hd. }
          rewrite Hempty in Hin1. destruct Hin1. }
    destruct (CurrencyExchangeRateManager.values rows') as [|item' l'] eqn:Ev'.
    + intros H. injection H as <-. split; [constructor | intros d v []].
    + exact Hrec.
  - intros H. injection H as <-. rewrite <- Ev. split.
    + now apply values_sorted.
    + intros d v Hin. apply values_In in Hin as (row & Hrow & <- & <-).
      destruct (Hrows row Hrow) as [Hstored Hw]. split; [exact Hw|].
      now apply get_rate_direct.
Qed.

Lemma timeseries_agrees_with_get_rate_witness :
  exists data,
    CurrencyExchangeRateManager.get_timeseries Scenario.rates_db "EUR" "USD"
      (Some Scenario.day) None = Ok data
    /\ StronglySorted Z.le (map fst data)
    /\ forall d v, In (d, v) data ->
         within (Some Scenario.day) None d
         /\ CurrencyExchangeRateManager.get_rate Scenario.rates_db
              "EUR" "USD" d = Ok (Some v).
Proof.
  exists [(Scenario.day,
           Decimal.mk false 1096130658774525923490080018 (-27))].
  split; [vm_compute; reflexivity|].
  apply (timeseries_agrees_with_get_rate Scenario.rates_db "EUR" "USD"
           (Some Scenario.day) None).
  - unfold unique_exchange_rate_per_day. simpl. solve_NoDup.
  - discriminate.
  - vm_compute. reflexivity.
Defined.

(** X15. Direct records hide inverse ones: when the store holds at least
    one record of the pair (S -> T) within the bounds, [get_timeseries]
    returns exactly the stored values of (S -> T) within the bounds, in
    ascending date order; the records of (T -> S) are not read, so no
    reciprocal is computed and none of them can make the call raise. *)
Theorem timeseries_lists_direct_records db s t date_from date_to r0 :
  In r0 (rates db) ->
  CurrencyExchangeRateManager.pair_matches s t r0 = true ->
  within date_from date_to (CurrencyExchangeRate.valuation_date r0) ->
  exists data,
    CurrencyExchangeRateManager.get_timeseries db s t date_from date_to
    = Ok data
    /\ (forall d v, In (d, v) data <->
                    stored db s t d v /\ within date_from date_to d)
    /\ StronglySorted Z.le (map fst data).
Proof.
  intros Hin0 Hm0 Hw0. unfold CurrencyExchangeRateManager.get_timeseries.
  pose proof (series_rows_sorted db s t date_from date_to) as Hsorted.
  pose proof (series_row_stored db s t date_from date_to) as Hrows.
  pose proof (series_rows_In db s t date_from date_to) as HIn.
  set (rows := series_of db s t date_from date_to) in *.
  assert (H0 : In r0 rows) by (apply HIn; auto).
  destruct (CurrencyExchangeRateManager.values rows) as [|item l] eqn:Ev.
  { destruct rows; [destruct H0 | discriminate]. }
  rewrite <- Ev. eexists. split; [reflexivity|]. split.
  - intros d v. rewrite values_In. split.
    + intros (row & Hrow & <- & <-). now apply Hrows.
    + intros [(row & Hin & Hk & Hv) Hw]. exists row.
      assert (Hd : CurrencyExchangeRate.valuation_date row = d)
        by (unfold rate_key in Hk; congruence).
      split; [|auto]. apply HIn. split; [exact Hin|].
      split; [|now rewrite Hd].
      apply pair_matches_rate_key. now rewrite Hd.
  - now apply values_sorted.
Qed.

Lemma timeseries_lists_direct_records_witness :
  exists data,
    CurrencyExchangeRateManager.get_timeseries Scenario.rates_db "USD" "EUR"
      None (Some Scenario.day) = Ok data
    /\ (forall d v, In (d, v) data <->
                    stored Scenario.rates_db "USD" "EUR" d v
                    /\ within None (Some Scenario.day) d)
    /\ StronglySorted Z.le (map fst data).
Proof.
  apply (timeseries_lists_direct_records Scenario.rates_db "USD" "EUR"
           None (Some Scenario.day) Scenario.usd_eur).
  - simpl. auto.
  - reflexivity.
  - split; [exact I | simpl; lia].
Defined.

(** X16. Without a direct record the series is computed from the inverse
    records: when no record of (S -> T) lies within the bounds and the
    records of (T -> S) within them hold positive rates of at most 28
    digits, [get_timeseries] does not raise; it returns one item for each
    date on which (T -> S) is stored within the bounds, in ascending date
    order, and the value of each item is the reciprocal of the stored rate
    of that date, rounded once to 28 significant digits. *)
Theorem timeseries_inverts_when_no_direct db s t date_from date_to :
  (forall r, In r (rates db) ->
     CurrencyExchangeRateManager.pair_matches s t r = true ->
     ~ within date_from date_to (CurrencyExchangeRate.valuation_date r)) ->
  (forall r, In r (rates db) ->
     CurrencyExchangeRateManager.pair_matches t s r = true ->
     within date_from date_to (CurrencyExchangeRate.valuation_date r) ->
     ordinary (CurrencyExchangeRate.rate_value r)) ->
  exists data,
    CurrencyExchangeRateManager.get_timeseries db s t date_from date_to
    = Ok data
    /\ StronglySorted Z.le (map fst data)
    /\ (forall d, In d (map fst data) <->
                  (exists r, stored db t s d r) /\ within date_from date_to d)
    /\ (forall d v, In (d, v) data ->
          exists r, stored db t s d r /\ correctly_rounded v Decimal.one r).
Proof.
  intros Hnone Hord. unfold CurrencyExchangeRateManager.get_timeseries.
  pose proof (series_rows_In db s t date_from date_to) as HIn.
  set (rows := series_of db s t date_from date_to) in *.
  assert (Hempty : rows = []).
  { destruct rows as [|r l]; [reflexivity|].
    assert (Hr : In r (r :: l)) by now left.
    apply HIn in Hr as (Hin & Hm & Hw). destruct (Hnone r Hin Hm Hw). }
  rewrite Hempty. simpl CurrencyExchangeRateManager.values at 1. cbv iota.
  pose proof (series_rows_sorted db t s date_from date_to) as Hsorted'.
  pose proof (series_row_stored db t s date_from date_to) as Hrows'.
  pose proof (series_rows_In db t s date_from date_to) as HIn'.
  set (rows' := series_of db t s date_from date_to) in *.
  destruct (reciprocals_ordinary (CurrencyExchangeRateManager.values rows'))
    as (data & Hrec & Hall).
  { intros [d r] Hitem. apply values_In in Hitem as (row & Hrow & <- & <-).
    apply HIn' in Hrow as (Hin & Hm & Hw). simpl. now apply Hord. }
  exists data. split.
  { destruct (CurrencyExchangeRateManager.values rows'); [|exact Hrec].
    simpl in Hrec. now injection Hrec as <-. }
  rewrite (reciprocals_fst _ _ Hrec). split; [now apply values_sorted|].
  split.
  - intros d. unfold CurrencyExchangeRateManager.values. rewrite map_map.
    simpl. rewrite in_map_iff. split.
    + intros (row & <- & Hrow). destruct (Hrows' row Hrow) as [Hst Hw].
      split; [eauto | exact Hw].
    + intros [(r & row & Hin & Hk & Hv) Hw]. exists row.
      assert (Hd : CurrencyExchangeRate.valuation_date row = d)
        by (unfold rate_key in Hk; congruence).
      split; [exact Hd|]. apply HIn'. split; [exact Hin|].
      split; [|now rewrite Hd].
      apply pair_matches_rate_key. now rewrite Hd.
  - intros d v Hin.
    destruct (Forall2_In_left _ _ _ Hall _ Hin) as ([d' r] & Hitem & Hd & Hq).
    simpl in Hd, Hq. subst d'.
    apply values_In in Hitem as (row & Hrow & <- & <-).
    destruct (Hrows' row Hrow) as [Hst _]. eauto.
Qed.

Lemma timeseries_inverts_when_no_direct_witness :
  exists data,
    CurrencyExchangeRateManager.get_timeseries Scenario.rates_db "EUR" "USD"
      None None = Ok data
    /\ StronglySorted Z.le (map fst data)
    /\ (forall d, In d (map fst data) <->
                  (exists r, stored Scenario.rates_db "USD" "EUR" d r)
                  /\ within None None d)
    /\ (forall d v, In (d, v) data ->
          exists r, stored Scenario.rates_db "USD" "EUR" d r
                    /\ correctly_rounded v Decimal.one r).
Proof.
  apply (timeseries_inverts_when_no_direct Scenario.rates_db "EUR" "USD"
           None None).
  - intros r [<- | [<- | []]]; discriminate.
  - intros r [<- | [<- | []]]; intros; repeat split; now vm_compute.
Defined.

(** ** The rates of a period *)

Lemma date_dict_get_set {V : Type} (d : list (date * V)) k v k' :
  date_dict_get (date_dict_set d k v) k'
  = if k =? k' then Some v else date_dict_get d k'.
Proof.
  induction d as [|[k0 v0] d IH]; simpl; [reflexivity|].
  destruct (Z.eqb_spec k0 k) as [-> | Hne]; simpl.
  - destruct (Z.eqb_spec k k'); reflexivity.
  - rewrite IH. destruct (Z.eqb_spec k0 k') as [-> | Hne'];
      destruct (Z.eqb_spec k k'); congruence.
Qed.

Lemma date_dict_get_update {V : Type} (d : list (date * V)) k f k' :
  date_dict_get (date_dict_update d k f) k'
  = if k =? k' then option_map f (date_dict_get d k)
    else date_dict_get d k'.
Proof.
  induction d as [|[k0 v0] d IH]; simpl.
  - now destruct (k =? k').
  - destruct (Z.eqb_spec k0 k) as [-> | Hne]; simpl.
    + destruct (Z.eqb_spec k k'); reflexivity.
    + rewrite IH. destruct (Z.eqb_spec k0 k') as [-> | Hne'];
        destruct (Z.eqb_spec k k'); congruence.
Qed.

Lemma dict_get_set {V : Type} (d : list (string * V)) k v k' :
  dict_get (dict_set d k v) k'
  = if String.eqb k k' then Some v else dict_get d k'.
Proof.
  induction d as [|[k0 v0] d IH]; simpl; [reflexivity|].
  destruct (String.eqb_spec k0 k) as [-> | Hne]; simpl.
  - destruct (String.eqb_spec k k'); reflexivity.
  - rewrite IH. destruct (String.eqb_spec k0 k') as [-> | Hne'];
      destruct (String.eqb_spec k k'); congruence.
Qed.

(** The test of the rows that write the entry [result[d][code]]. *)
#[local] Abbreviation writes d code :=
  (fun r : CurrencyExchangeRate.t =>
     (CurrencyExchangeRate.valuation_date r =? d)
     && String.eqb
          (Currency.code (CurrencyExchangeRate.exchanged_currency r)) code).

Lemma add_rate_lookup acc r d code :
  period_lookup (ExchangeRateService.add_rate acc r) d code
  = if writes d code r then Some (CurrencyExchangeRate.rate_value r)
    else period_lookup acc d code.
Proof.
  unfold ExchangeRateService.add_rate, period_lookup.
  rewrite date_dict_get_update.
  destruct (Z.eqb_spec (CurrencyExchangeRate.valuation_date r) d) as [<- | Hne];
    simpl.
  - destruct (date_dict_get acc (CurrencyExchangeRate.valuation_date r))
      as [inner|] eqn:E.
    + rewrite E. simpl. apply dict_get_set.
    + rewrite date_dict_get_set, Z.eqb_refl. simpl.
      now destruct (String.eqb _ code).
  - destruct (date_dict_get acc (CurrencyExchangeRate.valuation_date r));
      [reflexivity|].
    rewrite date_dict_get_set.
    destruct (Z.eqb_spec (CurrencyExchangeRate.valuation_date r) d);
      [contradiction | reflexivity].
Qed.

#[local] Abbreviation entry_key :=
  (fun r : CurrencyExchangeRate.t =>
     (CurrencyExchangeRate.valuation_date r,
      Currency.code (CurrencyExchangeRate.exchanged_currency r))).

Lemma writes_entry_key d code r :
  writes d code r = true <-> entry_key r = (d, code).
Proof.
  rewrite andb_true_iff, Z.eqb_eq, String.eqb_eq. split.
  - intros [-> ->]. reflexivity.
  - intros H. injection H as -> ->. auto.
Qed.

Lemma fold_add_rate_lookup l : forall acc d code,
  List.NoDup (map entry_key l) ->
  period_lookup (fold_left ExchangeRateService.add_rate l acc) d code
  = match find (writes d code) l with
    | Some r => Some (CurrencyExchangeRate.rate_value r)
    | None => period_lookup acc d code
    end.
Proof.
  induction l as [|r l IH]; intros acc d code Hnd; [reflexivity|].
  apply List.NoDup_cons_iff in Hnd as [Hnotin Hnd].
  cbn [fold_left find]. rewrite IH by exact Hnd. rewrite add_rate_lookup.
  destruct (writes d code r) eqn:E; [|reflexivity].
  destruct (find (writes d code) l) as [r'|] eqn:F; [|reflexivity].
  exfalso. apply find_some in F as [Hin Hw]. apply Hnotin.
  apply in_map_iff. exists r'. split; [|exact Hin].
  apply writes_entry_key in E, Hw. congruence.
Qed.

Lemma date_dict_update_keys {V : Type} (d : list (date * V)) k f :
  map fst (date_dict_update d k f) = map fst d.
Proof.
  induction d as [|[k0 v0] d IH]; simpl; [reflexivity|].
  destruct (k0 =? k); simpl; [reflexivity | now rewrite IH].
Qed.

Lemma date_dict_set_keys_In {V : Type} (d : list (date * V)) k v x :
  In x (map fst (date_dict_set d k v)) -> In x (map fst d) \/ x = k.
Proof.
  induction d as [|[k0 v0] d IH]; simpl.
  - intros [<- | []]. now right.
  - destruct (Z.eqb_spec k0 k) as [-> | Hne]; simpl.
    + intros [<- | H]; auto.
    + intros [<- | H]; [auto|]. destruct (IH H); auto.
Qed.

Lemma date_dict_set_keys_NoDup {V : Type} (d : list (date * V)) k v :
  List.NoDup (map fst d) -> List.NoDup (map fst (date_dict_set d k v)).
Proof.
  induction d as [|[k0 v0] d IH]; simpl; intros Hnd.
  - repeat constructor. intros [].
  - apply List.NoDup_cons_iff in Hnd as [Hnotin Hnd].
    destruct (Z.eqb_spec k0 k) as [-> | Hne]; simpl.
    + now constructor.
    + constructor; [|now apply IH].
      intros H. apply date_dict_set_keys_In in H as [H | H]; auto.
Qed.

Lemma add_rate_keys_NoDup acc r :
  List.NoDup (map fst acc) ->
  List.NoDup (map fst (ExchangeRateService.add_rate acc r)).
Proof.
  intros Hnd. unfold ExchangeRateService.add_rate.
  rewrite date_dict_update_keys.
  destruct (date_dict_get acc _); [exact Hnd|].
  now apply date_dict_set_keys_NoDup.
Qed.

Lemma fold_add_rate_keys_NoDup l : forall acc,
  List.NoDup (map fst acc) ->
  List.NoDup (map fst (fold_left ExchangeRateService.add_rate l acc)).
Proof.
  induction l as [|r l IH]; intros acc Hnd; [exact Hnd|].
  simpl. apply IH. now apply add_rate_keys_NoDup.
Qed.

Lemma date_dict_get_In {V : Type} (d : list (date * V)) k v :
  List.NoDup (map fst d) -> (date_dict_get d k = Some v <-> In (k, v) d).
Proof.
  induction d as [|[k0 v0] d IH]; simpl; intros Hnd.
  - split; [discriminate | intros []].
  - apply List.NoDup_cons_iff in Hnd as [Hnotin Hnd].
    destruct (Z.eqb_spec k0 k) as [-> | Hne].
    + split.
      * intros H. injection H as <-. now left.
      * intros [H | H]; [now injection H as <- |].
        exfalso. apply Hnotin. apply in_map_iff. now exists (k, v).
    + rewrite (IH Hnd). split; [now right|].
      intros [H | H]; [congruence | exact H].
Qed.

Lemma insert_item_perm {V : Type} (item : date * V) l :
  Permutation (insert_item item l) (item :: l).
Proof.
  induction l as [|q l IH]; simpl; [reflexivity|].
  destruct (_ <=? _); [reflexivity|].
  rewrite IH. apply perm_swap.
Qed.

Lemma sorted_items_perm {V : Type} (d : list (date * V)) :
  Permutation (sorted_items d) d.
Proof.
  induction d as [|item d IH]; simpl; [reflexivity|].
  rewrite insert_item_perm. now constructor.
Qed.

Lemma insert_item_sorted {V : Type} (item : date * V) l :
  StronglySorted (fun a b => fst a <= fst b) l ->
  StronglySorted (fun a b => fst a <= fst b) (insert_item item l).
Proof.
  induction 1 as [|q l Hs IH Hall]; simpl.
  - repeat constructor.
  - destruct (_ <=? _) eqn:E.
    + apply Z.leb_le in E. constructor; [now constructor|].
      constructor; [exact E|].
      rewrite List.Forall_forall in *. intros x Hx.
      specialize (Hall x Hx). unfold date in *. simpl in *. lia.
    + apply Z.leb_gt in E. constructor; [exact IH|].
      rewrite List.Forall_forall in *. intros x Hx.
      apply (Permutation_in _ (insert_item_perm item l)) in Hx.
      destruct Hx as [<- | Hx]; [unfold date in *; simpl; lia | now apply Hall].
Qed.

Lemma sorted_items_sorted {V : Type} (d : list (date * V)) :
  StronglySorted (fun a b => fst a <= fst b) (sorted_items d).
Proof.
  induction d as [|item d IH]; simpl; [constructor|].
  now apply insert_item_sorted.
Qed.

Lemma sorted_items_keys_NoDup {V : Type} (d : list (date * V)) :
  List.NoDup (map fst d) -> List.NoDup (map fst (sorted_items d)).
Proof.
  apply Permutation_NoDup. apply Permutation_map. symmetry.
  apply sorted_items_perm.
Qed.

Lemma sorted_items_get {V : Type} (d : list (date * V)) k :
  List.NoDup (map fst d) ->
  date_dict_get (sorted_items d) k = date_dict_get d k.
Proof.
  intros Hnd.
  pose proof (sorted_items_keys_NoDup d Hnd) as Hnd'.
  destruct (date_dict_get d k) as [v|] eqn:E.
  - apply (date_dict_get_In _ _ _ Hnd'). apply (date_dict_get_In _ _ _ Hnd) in E.
    now apply (Permutation_in _ (Permutation_sym (sorted_items_perm d))).
  - destruct (date_dict_get (sorted_items d) k) as [v|] eqn:E'; [|reflexivity].
    apply (date_dict_get_In _ _ _ Hnd') in E'.
    apply (Permutation_in _ (sorted_items_perm d)) in E'.
    apply (date_dict_get_In _ _ _ Hnd) in E'. congruence.
Qed.

Lemma strictly_sorted_keys {V : Type} (l : list (date * V)) :
  StronglySorted (fun a b => fst a <= fst b) l ->
  List.NoDup (map fst l) ->
  StronglySorted Z.lt (map fst l).
Proof.
  induction 1 as [|q l Hs IH Hall]; simpl; intros Hnd; [constructor|].
  apply List.NoDup_cons_iff in Hnd as [Hnotin Hnd].
  constructor; [now apply IH|].
  rewrite List.Forall_forall in *. intros x Hx.
  apply in_map_iff in Hx as (item & <- & Hitem).
  specialize (Hall item Hitem). unfold date in *.
  assert (fst q <> fst item); [|simpl in *; lia].
  intros Heq. apply Hnotin. rewrite Heq. now apply in_map.
Qed.

Lemma insert_by_date_and_code_perm r l :
  Permutation (CurrencyExchangeRateManager.insert_by_date_and_code r l)
    (r :: l).
Proof.
  induction l as [|q l IH]; simpl; [reflexivity|].
  destruct (CurrencyExchangeRateManager.period_leb r q); [reflexivity|].
  rewrite IH. apply perm_swap.
Qed.

Lemma period_rows_perm db s date_from date_to :
  Permutation
    (CurrencyExchangeRateManager.get_rates_for_period db s date_from date_to)
    (List.filter
       (fun r =>
          String.eqb (Currency.code (CurrencyExchangeRate.source_currency r)) s
          && (date_from <=? CurrencyExchangeRate.valuation_date r)
          && (CurrencyExchangeRate.valuation_date r <=? date_to))
       (rates db)).
Proof.
  unfold CurrencyExchangeRateManager.get_rates_for_period.
  induction (List.filter _ (rates db)) as [|r l IH]; simpl; [reflexivity|].
  rewrite insert_by_date_and_code_perm. now constructor.
Qed.

Lemma period_rows_In db s date_from date_to r :
  In r (CurrencyExchangeRateManager.get_rates_for_period db s date_from date_to)
  <-> In r (rates db)
      /\ Currency.code (CurrencyExchangeRate.source_currency r) = s
      /\ date_from <= CurrencyExchangeRate.valuation_date r <= date_to.
Proof.
  transitivity
    (In r (List.filter
             (fun r =>
                String.eqb
                  (Currency.code (CurrencyExchangeRate.source_currency r)) s
                && (date_from <=? CurrencyExchangeRate.valuation_date r)
                && (CurrencyExchangeRate.valuation_date r <=? date_to))
             (rates db))).
  - split; apply Permutation_in; [| symmetry]; apply period_rows_perm.
  - rewrite List.filter_In, !andb_true_iff, String.eqb_eq, !Z.leb_le. tauto.
Qed.

Lemma NoDup_map_injective {A B : Type} (f : A -> B) l x y :
  List.NoDup (map f l) -> In x l -> In y l -> f x = f y -> x = y.
Proof.
  induction l as [|a l IH]; simpl; intros Hnd Hx Hy Heq; [destruct Hx|].
  apply List.NoDup_cons_iff in Hnd as [Hnotin Hnd].
  destruct Hx as [-> | Hx], Hy as [-> | Hy]; auto.
  - exfalso. apply Hnotin. rewrite Heq. now apply in_map.
  - exfalso. apply Hnotin. rewrite <- Heq. now apply in_map.
Qed.

Lemma NoDup_map_weaker {A B C : Type} (f : A -> B) (g : A -> C) l :
  (forall x y, In x l -> In y l -> g x = g y -> f x = f y) ->
  List.NoDup (map f l) -> List.NoDup (map g l).
Proof.
  induction l as [|a l IH]; simpl; intros Hfg Hnd; [constructor|].
  apply List.NoDup_cons_iff in Hnd as [Hnotin Hnd].
  constructor.
  - intros H. apply in_map_iff in H as (y & Hy & Hin). apply Hnotin.
    rewrite (Hfg a y) by auto. now apply in_map.
  - apply IH; [|exact Hnd]. intros x y Hx Hy. apply Hfg; now right.
Qed.

Lemma period_rows_keys_NoDup db s date_from date_to :
  unique_exchange_rate_per_day (rates db) ->
  List.NoDup
    (map entry_key
       (CurrencyExchangeRateManager.get_rates_for_period db s date_from
          date_to)).
Proof.
  intros Hu.
  apply (NoDup_map_weaker rate_key).
  - intros x y Hx Hy Heq.
    apply period_rows_In in Hx as (_ & Hsx & _).
    apply period_rows_In in Hy as (_ & Hsy & _).
    unfold rate_key. injection Heq as Hd Hc. congruence.
  - apply (Permutation_NoDup
             (Permutation_map rate_key
                (Permutation_sym (period_rows_perm db s date_from date_to)))).
    now apply NoDup_map_filter.
Qed.

(** X17. The service's [get_rates_for_period] is a faithful index of the
    store: on a table that satisfies its uniqueness constraint, the entry
    [result[d][code]] exists and has the value [v] exactly when the store
    holds [v] for (S -> code, d) with [d] within the two dates (both
    included), S being the upper-cased source code; and the dates of the
    result are in strictly ascending order. *)
Theorem rates_for_period_lookup db source_currency date_from date_to :
  unique_exchange_rate_per_day (rates db) ->
  let result :=
    ExchangeRateService.get_rates_for_period db source_currency date_from
      date_to in
  (forall d code v,
     period_lookup result d code = Some v
     <-> stored db (upper source_currency) code d v
         /\ date_from <= d <= date_to)
  /\ StronglySorted Z.lt (map fst result).
Proof.
  intros Hu. cbv zeta. unfold ExchangeRateService.get_rates_for_period.
  pose proof (period_rows_In db (upper source_currency) date_from date_to)
    as HIn.
  pose proof (period_rows_keys_NoDup db (upper source_currency) date_from
                date_to Hu) as Hkeys.
  set (rows := CurrencyExchangeRateManager.get_rates_for_period db
                 (upper source_currency) date_from date_to) in *.
  assert (HndK : List.NoDup
                   (map fst (fold_left ExchangeRateService.add_rate rows [])))
    by (apply fold_add_rate_keys_NoDup; constructor).
  split.
  - intros d code v. unfold period_lookup.
    rewrite sorted_items_get by exact HndK.
    fold (period_lookup (fold_left ExchangeRateService.add_rate rows [])
            d code).
    rewrite fold_add_rate_lookup by exact Hkeys.
    change (period_lookup [] d code) with (@None Decimal.t).
    split.
    + destruct (find (writes d code) rows) as [r|] eqn:F; [|discriminate].
      intros H. injection H as <-. apply find_some in F as [Hin Hw].
      apply HIn in Hin as (Hin & Hs & Hr).
      apply writes_entry_key in Hw. injection Hw as Hd Hc.
      split; [|lia]. exists r. split; [exact Hin|].
      split; [unfold rate_key; congruence | reflexivity].
    + intros [(row & Hin & Hk & Hv) Hr].
      unfold rate_key in Hk. injection Hk as Hs Hc Hd.
      assert (Hrow : In row rows) by (apply HIn; repeat split; auto; lia).
      assert (Hw : writes d code row = true)
        by (apply writes_entry_key; simpl; now rewrite Hc, Hd).
      destruct (find (writes d code) rows) as [r'|] eqn:F.
      * apply find_some in F as [Hin' Hw']. f_equal. rewrite <- Hv. f_equal.
        apply (NoDup_map_injective entry_key rows); auto.
        apply writes_entry_key in Hw, Hw'. simpl in *. now rewrite Hw, Hw'.
      * pose proof (find_none _ _ F row Hrow) as Hf.
        simpl in Hf, Hw. rewrite Hf in Hw. discriminate.
  - apply strictly_sorted_keys;
      [apply sorted_items_sorted | now apply sorted_items_keys_NoDup].
Qed.

Lemma rates_for_period_lookup_witness :
  let result :=
    ExchangeRateService.get_rates_for_period Scenario.rates_db "usd"
      Scenario.day Scenario.day in
  (forall d code v,
     period_lookup result d code = Some v
     <-> stored Scenario.rates_db "USD" code d v
         /\ Scenario.day <= d <= Scenario.day)
  /\ StronglySorted Z.lt (map fst result).
Proof.
  apply (rates_for_period_lookup Scenario.rates_db "usd" Scenario.day
           Scenario.day).
  unfold unique_exchange_rate_per_day. simpl. solve_NoDup.
Defined.

(** ** Currencies *)

(** X19. [get_by_code] is a case-insensitive lookup of a unique row: when
    the codes of the table are distinct, it returns the currency whose code
    is the upper-cased argument if the table has one, and raises
    [Currency.DoesNotExist] if it has none; it cannot raise
    [MultipleObjectsReturned]. *)
Theorem get_by_code_finds_the_currency db code :
  List.NoDup (map Currency.code (currencies db)) ->
  match CurrencyManager.get_by_code db code with
  | Ok c => In c (currencies db) /\ Currency.code c = upper code
  | Raise e => e = DoesNotExist CurrencyModel /\ unknown_currency db code
  end.
Proof.
  intros Hnd.
  destruct (get_by_code_cases db code Hnd)
    as [[-> Hno] | (c & -> & Hin & Hc)]; auto.
Qed.

Lemma get_by_code_finds_the_currency_witness :
  match CurrencyManager.get_by_code Scenario.rates_db "chf" with
  | Ok c => In c (currencies Scenario.rates_db) /\ Currency.code c = "CHF"%string
  | Raise e =>
      e = DoesNotExist CurrencyModel
      /\ unknown_currency Scenario.rates_db "chf"
  end.
Proof.
  apply (get_by_code_finds_the_currency Scenario.rates_db "chf").
  simpl. solve_NoDup.
Defined.

(** ** The sweep, in general *)

Lemma StronglySorted_middle {A : Type} (R : A -> A -> Prop) pre p post :
  StronglySorted R (pre ++ p :: post) ->
  (forall x, In x pre -> R x p) /\ (forall y, In y post -> R p y).
Proof.
  induction pre as [|a pre IH]; simpl; intros Hs.
  - apply StronglySorted_inv in Hs as [_ Hall].
    rewrite List.Forall_forall in Hall. split; [intros x [] | exact Hall].
  - apply StronglySorted_inv in Hs as [Hs Hall].
    rewrite List.Forall_forall in Hall.
    destruct (IH Hs) as [Hpre Hpost]. split; [|exact Hpost].
    intros x [<- | Hx]; [|now apply Hpre].
    apply Hall. apply in_or_app. right. now left.
Qed.

Lemma NoDup_map_app_disjoint {A B : Type} (f : A -> B) l1 l2 x y :
  List.NoDup (map f (l1 ++ l2)) -> In x l1 -> In y l2 -> f x <> f y.
Proof.
  induction l1 as [|a l1 IH]; simpl; intros Hnd Hx Hy; [destruct Hx|].
  apply List.NoDup_cons_iff in Hnd as [Hnotin Hnd].
  destruct Hx as [-> | Hx]; [|now apply IH].
  intros Heq. apply Hnotin. rewrite Heq. apply in_map.
  apply in_or_app. now right.
Qed.

(** X20. The first success ends the sweep, for every list of providers:
    with no provider forced, let [p] be the first provider in the order of
    [get_active_ordered] whose attempt succeeds, the attempts on the
    providers before it all failing. Then the orchestrator returns the quote
    of [p]; the providers before [p] have a priority number at most that of
    [p] and those after it at least that of [p]; and, the provider names
    being unique, no adapter of a provider after [p] is asked. *)
Theorem first_success_ends_the_sweep {World : Type}
    (reg : list (string * (option string -> CurrencyAdapter World)))
    src tgt d pn (st st1 st2 : State World) pre p post fs q :
  truthy pn = None ->
  List.NoDup (map Provider.name (providers (st_db st))) ->
  ProviderManager.get_active_ordered (st_db st) = pre ++ p :: post ->
  all_fail reg src tgt d pre st fs st1 ->
  ProviderManagerService.attempt reg p src tgt d st1 = (Ok q, st2) ->
  ProviderManagerService.get_exchange_rate_data reg src tgt d pn st
  = (Ok q, st2)
  /\ (forall p', In p' pre -> Provider.priority p' <= Provider.priority p)
  /\ (forall p', In p' post -> Provider.priority p <= Provider.priority p')
  /\ exists called,
       st_calls st2 = st_calls st ++ called
       /\ forall p', In p' post -> ~ In (Provider.name p') called.
Proof.
  intros Hpn Hnd Hord Hall Hok.
  destruct (fallback_first_success reg src tgt d pn st st1 st2 pre p post fs q
              Hpn Hord Hall Hok) as (Hrun & called & Hcalls & Hincl).
  split; [exact Hrun|].
  pose proof (get_active_ordered_sorted (st_db st)) as Hsorted.
  rewrite Hord in Hsorted.
  apply Sorted_StronglySorted in Hsorted; [|intros a b c Hab Hbc; lia].
  destruct (StronglySorted_middle _ _ _ _ Hsorted) as [Hpre Hpost].
  split; [exact Hpre|]. split; [exact Hpost|].
  exists called. split; [exact Hcalls|].
  intros p' Hp' Hin. apply Hincl in Hin.
  apply in_map_iff in Hin as (x & Hx & Hxin).
  pose proof (get_active_ordered_NoDup (st_db st) Hnd) as Hnd'.
  rewrite Hord in Hnd'.
  replace (pre ++ p :: post) with ((pre ++ [p]) ++ post) in Hnd'
    by (rewrite <- app_assoc; reflexivity).
  now apply (NoDup_map_app_disjoint Provider.name _ _ x p' Hnd' Hxin Hp').
Qed.

Lemma first_success_ends_the_sweep_witness :
  exists st2 called,
    ProviderManagerService.get_exchange_rate_data Scenario.fallback_registry
      "USD" "EUR" Scenario.day None (Scenario.state_of Scenario.fallback_db)
    = (Ok (ExchangeRateData.mk "USD" "EUR" Scenario.day Scenario.r0_9123
             (Some "p2"%string)), st2)
    /\ st_calls st2 = [] ++ called
    /\ ~ In "p3"%string called.
Proof.
  pose (st := Scenario.state_of Scenario.fallback_db).
  pose (a1 := ProviderManagerService.attempt Scenario.fallback_registry
                (Scenario.row 2 "p1" 1 true) "USD" "EUR" Scenario.day st).
  pose (st1 := snd (ProviderManagerService.log_failure
                      (Scenario.row 2 "p1" 1 true)
                      (APIClientError [Lit "network error"]) (snd a1))).
  pose (a2 := ProviderManagerService.attempt Scenario.fallback_registry
                (Scenario.row 3 "p2" 2 true) "USD" "EUR" Scenario.day st1).
  destruct (first_success_ends_the_sweep Scenario.fallback_registry
              "USD" "EUR" Scenario.day None st st1 (snd a2)
              [Scenario.row 2 "p1" 1 true] (Scenario.row 3 "p2" 2 true)
              [Scenario.row 1 "p3" 3 true]
              [("p1"%string, APIClientError [Lit "network error"])]
              (ExchangeRateData.mk "USD" "EUR" Scenario.day Scenario.r0_9123
                 (Some "p2"%string)))
    as (Hrun & _ & _ & called & Hcalls & Hpost).
  - reflexivity.
  - simpl. solve_NoDup.
  - vm_compute. reflexivity.
  - apply all_fail_cons with (st1 := snd a1).
    + vm_compute. reflexivity.
    + apply all_fail_nil.
  - vm_compute. reflexivity.
  - exists (snd a2), called. split; [exact Hrun|]. split; [exact Hcalls|].
    apply (Hpost (Scenario.row 1 "p3" 3 true)). now left.
Defined.

(** ** Conversion *)

Lemma round_half_even_changed c n i :
  (Decimal._round_half_even c n i =? 1)
  = (0 <? Decimal._round_half_even c n i).
Proof.
  unfold Decimal._round_half_even, Decimal._round_half_up.
  destruct (_ && _); [reflexivity|].
  destruct (5 <=? _); [reflexivity|].
  now destruct (Decimal.all_zeros c n i).
Qed.

(** [_rescale] to a larger exponent rounds the coefficient half-even. *)
Lemma rescale_half_even s c e e' :
  1 <= c -> e < e' ->
  Decimal._rescale (Decimal.mk s c e) e' Decimal.ROUND_HALF_EVEN
  = Decimal.mk s (round_half_even_div c (e' - e)) e'.
Proof.
  intros Hc He. unfold Decimal._rescale.
  cbn [Decimal.coeff Decimal.exp Decimal.sign Decimal._pick_rounding_function].
  assert ((c =? 0) = false) as -> by (apply Z.eqb_neq; lia).
  assert ((e' <=? e) = false) as -> by (apply Z.leb_gt; lia).
  destruct (ndigits_spec c Hc) as [Hn Hn1].
  set (n := Decimal.ndigits c) in *.
  set (k := e' - e).
  assert (Hk : 1 <= k) by (subst k; lia).
  pose proof (pow10_pos k ltac:(lia)) as Hpk.
  pose proof (pow10_split k Hk) as Hsk.
  pose proof (pow10_pos (n - 1) ltac:(lia)) as Hpn1.
  pose proof (pow10_split n Hn1) as Hsn.
  f_equal.
  destruct (n + e - e' <? 0) eqn:Eneg.
  - (* fewer digits than places are dropped *)
    apply Z.ltb_lt in Eneg.
    change (Decimal.ndigits 1) with 1.
    change (Decimal._round_half_even 1 1 0 =? 1) with false. cbv iota.
    change (Decimal.leading 1 1 0) with 0.
    assert (Hlt : 10 ^ n <= 10 ^ (k - 1))
      by (apply Z.pow_le_mono_r; subst k; lia).
    unfold round_half_even_div.
    rewrite (Z.div_small c (10 ^ k)), (Z.mod_small c (10 ^ k)) by lia.
    assert ((10 ^ k <? 2 * c) = false) as -> by (apply Z.ltb_ge; lia).
    assert ((2 * c =? 10 ^ k) = false) as -> by (apply Z.eqb_neq; lia).
    reflexivity.
  - apply Z.ltb_ge in Eneg. fold n.
    destruct (Z.eq_dec (n + e - e') 0) as [H0 | Hpos].
    + (* all digits are dropped *)
      rewrite H0. assert (Hkn : k = n) by (subst k; lia).
      rewrite Hkn in *.
      unfold Decimal.leading, Decimal._round_half_even,
        Decimal._round_half_up, Decimal.exact_half, Decimal.all_zeros,
        Decimal.digit_at, round_half_even_div.
      rewrite !Z.sub_0_r.
      rewrite (Z.div_small c (10 ^ n)), (Z.mod_small c (10 ^ n)) by lia.
      change (Z.odd 0) with false. rewrite andb_false_r, orb_false_r.
      simpl orb. rewrite andb_true_r.
      assert (Hd : 0 <= c / 10 ^ (n - 1) < 10).
      { split; [apply Z.div_pos; lia|].
        apply Z.div_lt_upper_bound; lia. }
      rewrite (Z.mod_small (c / 10 ^ (n - 1)) 10) by exact Hd.
      assert ((c =? 0) = false) as -> by (apply Z.eqb_neq; lia).
      destruct (Z.eqb_spec c (5 * 10 ^ (n - 1))) as [Hhalf | Hhalf].
      * assert ((10 ^ n <? 2 * c) = false) as -> by (apply Z.ltb_ge; lia).
        reflexivity.
      * destruct (5 <=? c / 10 ^ (n - 1)) eqn:E5.
        -- apply Z.leb_le in E5.
           assert (5 * 10 ^ (n - 1) <= c).
           { pose proof (Z.mul_div_le c (10 ^ (n - 1)) ltac:(lia)). nia. }
           assert ((10 ^ n <? 2 * c) = true) as -> by (apply Z.ltb_lt; lia).
           reflexivity.
        -- apply Z.leb_gt in E5.
           assert (c < 5 * 10 ^ (n - 1)).
           { pose proof (Z.div_mod c (10 ^ (n - 1)) ltac:(lia)).
             pose proof (Z.mod_pos_bound c (10 ^ (n - 1)) ltac:(lia)). nia. }
           assert ((10 ^ n <? 2 * c) = false) as -> by (apply Z.ltb_ge; lia).
           reflexivity.
    + (* some digits are kept *)
      rewrite round_half_even_changed.
      rewrite round_half_even_up by lia.
      unfold Decimal.leading, round_half_even_div.
      replace (n - (n + e - e')) with k by (subst k; lia).
      reflexivity.
Qed.

Lemma millionths_bounds c e :
  1 <= c -> Decimal.ndigits c + e <= 21 ->
  0 <= millionths c e <= 10 ^ 27.
Proof.
  intros Hc Hfit.
  destruct (ndigits_spec c Hc) as [Hn Hn1].
  set (n := Decimal.ndigits c) in *.
  unfold millionths. destruct (-6 <=? e) eqn:E.
  - apply Z.leb_le in E.
    pose proof (pow10_pos (e + 6) ltac:(lia)) as Hp.
    split; [nia|].
    assert (10 ^ n * 10 ^ (e + 6) <= 10 ^ 27).
    { rewrite <- Z.pow_add_r by lia. apply Z.pow_le_mono_r; lia. }
    nia.
  - apply Z.leb_gt in E. set (k := -6 - e).
    assert (Hk : 1 <= k) by (subst k; lia).
    pose proof (pow10_pos k ltac:(lia)) as Hpk.
    destruct (round_half_even_div_bounds c k ltac:(lia) ltac:(lia))
      as [[Hlo Hhi] _].
    assert (0 <= c / 10 ^ k) by (apply Z.div_pos; lia).
    split; [lia|].
    assert (c / 10 ^ k < 10 ^ 27); [|lia].
    apply Z.div_lt_upper_bound; [lia|].
    destruct (Z_le_gt_dec k n) as [Hkn | Hkn].
    + assert (10 ^ n <= 10 ^ k * 10 ^ 27); [|lia].
      rewrite <- Z.pow_add_r by lia. apply Z.pow_le_mono_r; subst k; lia.
    + assert (10 ^ n <= 10 ^ k) by (apply Z.pow_le_mono_r; lia).
      assert (1 <= 10 ^ 27) by now vm_compute.
      nia.
Qed.

(** [quantize] to six fractional digits, with the context's rounding, of a
    decimal below [10^21]. *)
Lemma quantize_millionths s c e :
  1 <= c -> -100000 <= e -> Decimal.ndigits c + e <= 21 ->
  Decimal.quantize Decimal.DefaultContext (Decimal.mk s c e) Decimal.micro None
  = Decimal.Value (Decimal.mk s (millionths c e) (-6)).
Proof.
  intros Hc He Hfit.
  destruct (ndigits_spec c Hc) as [Hn Hn1].
  pose proof (millionths_bounds c e Hc Hfit) as Hm.
  unfold Decimal.quantize, Decimal.adjusted.
  cbn [Decimal.coeff Decimal.exp Decimal.sign Decimal.micro
       Decimal.rounding Decimal.DefaultContext Decimal.Emax Decimal.prec].
  change (negb ((Decimal.Etiny Decimal.DefaultContext <=? -6)
                && (-6 <=? 999999))) with false. cbv iota.
  assert ((c =? 0) = false) as -> by (apply Z.eqb_neq; lia).
  assert ((999999 <? e + Decimal.ndigits c - 1) = false) as ->
    by (apply Z.ltb_ge; lia).
  assert ((28 <? e + Decimal.ndigits c - 1 - -6 + 1) = false) as ->
    by (apply Z.ltb_ge; lia).
  assert (Hres : Decimal._rescale (Decimal.mk s c e) (-6)
                   Decimal.ROUND_HALF_EVEN
                 = Decimal.mk s (millionths c e) (-6)).
  { unfold millionths. destruct (-6 <=? e) eqn:E.
    - unfold Decimal._rescale.
      cbn [Decimal.coeff Decimal.exp Decimal.sign].
      assert ((c =? 0) = false) as -> by (apply Z.eqb_neq; lia).
      rewrite E. replace (e - -6) with (e + 6) by lia. reflexivity.
    - apply Z.leb_gt in E. now rewrite rescale_half_even by lia. }
  rewrite Hres. cbn [Decimal.coeff Decimal.exp Decimal.sign].
  set (m := millionths c e) in *.
  destruct (Z.eq_dec m 0) as [-> | Hm0].
  - reflexivity.
  - assert (Hm1 : 1 <= m) by lia.
    pose proof (ndigits_le m 28 Hm1 ltac:(assert (10 ^ 27 < 10 ^ 28) by reflexivity; lia))
      as Hnm.
    destruct (ndigits_spec m Hm1) as [_ Hnm1].
    assert ((999999 <? -6 + Decimal.ndigits m - 1) = false) as ->
      by (apply Z.ltb_ge; lia).
    assert ((28 <? Decimal.ndigits m) = false) as -> by (apply Z.ltb_ge; lia).
    assert (Hrange : Decimal.Etiny Decimal.DefaultContext
                     <= Decimal.ndigits m + -6
                        - Decimal.prec Decimal.DefaultContext
                     < Decimal.Etop Decimal.DefaultContext).
    { unfold Decimal.Etiny, Decimal.Etop. cbn. lia. }
    rewrite (fix_rounds Decimal.DefaultContext s m (-6) eq_refl
               ltac:(cbn; lia) Hm1 Hrange).
    cbn [Decimal.prec Decimal.DefaultContext].
    assert ((Decimal.ndigits m <=? 28) = true) as ->
      by (apply Z.leb_le; lia).
    reflexivity.
Qed.

(** The product of two decimals whose coefficients multiply to less than
    [10^28] is exact. *)
Lemma mul_exact a b :
  1 <= Decimal.coeff a -> 1 <= Decimal.coeff b ->
  Decimal.coeff a * Decimal.coeff b < 10 ^ 28 ->
  -100000 <= Decimal.exp a + Decimal.exp b <= 100000 ->
  Decimal.mul Decimal.DefaultContext a b
  = Decimal.Value
      (Decimal.mk (xorb (Decimal.sign a) (Decimal.sign b))
         (Decimal.coeff a * Decimal.coeff b)
         (Decimal.exp a + Decimal.exp b)).
Proof.
  intros Ha Hb Hfit He. unfold Decimal.mul.
  assert ((Decimal.coeff a =? 0) = false) as -> by (apply Z.eqb_neq; lia).
  assert ((Decimal.coeff b =? 0) = false) as -> by (apply Z.eqb_neq; lia).
  simpl orb. cbv iota.
  assert (Hc : 1 <= Decimal.coeff a * Decimal.coeff b) by nia.
  pose proof (ndigits_le _ 28 Hc Hfit) as Hn.
  destruct (ndigits_spec _ Hc) as [_ Hn1].
  assert (Hrange : Decimal.Etiny Decimal.DefaultContext
                   <= Decimal.ndigits (Decimal.coeff a * Decimal.coeff b)
                      + (Decimal.exp a + Decimal.exp b)
                      - Decimal.prec Decimal.DefaultContext
                   < Decimal.Etop Decimal.DefaultContext).
  { unfold Decimal.Etiny, Decimal.Etop. cbn. lia. }
  rewrite (fix_rounds Decimal.DefaultContext _ _ _ eq_refl
             ltac:(cbn; lia) Hc Hrange).
  cbn [Decimal.prec Decimal.DefaultContext].
  assert ((Decimal.ndigits (Decimal.coeff a * Decimal.coeff b) <=? 28)
          = true) as -> by (apply Z.leb_le; lia).
  reflexivity.
Qed.

(** X21. A conversion at a stored rate rounds the exact product once, to
    the nearest millionth with ties to the even one: when the store answers
    the pair with a positive rate, the amount is not zero, and the exact
    product [amount * rate] has at most 28 significant digits and is below
    [10^21] in magnitude, [convert_amount] returns the upper-cased codes, the
    rate, the amount as given, the date (today when none is given) and, as
    converted amount, the decimal with exponent -6 whose coefficient is the
    product in millionths, exact when the product has at most six fractional
    digits and rounded half-even otherwise; no provider is asked and the
    database is not changed. *)
Theorem convert_amount_rounds_the_exact_product {World : Type}
    (reg : list (string * (option string -> CurrencyAdapter World)))
    src tgt amount valuation_date (st : State World) rate :
  let d :=
    match valuation_date with Some d => d | None => st_today st end in
  let a := ExchangeRateService.decimal_of_amount amount in
  CurrencyExchangeRateManager.get_rate (st_db st) (upper src) (upper tgt) d
  = Ok (Some rate) ->
  String.length src = 3%nat -> String.length tgt = 3%nat ->
  Decimal.is_positive rate = true ->
  1 <= Decimal.coeff a ->
  Decimal.coeff a * Decimal.coeff rate < 10 ^ 28 ->
  -100000 <= Decimal.exp a + Decimal.exp rate ->
  Decimal.ndigits (Decimal.coeff a * Decimal.coeff rate)
  + (Decimal.exp a + Decimal.exp rate) <= 21 ->
  let run :=
    ExchangeRateService.convert_amount reg src tgt amount valuation_date st in
  fst run
  = Ok (ExchangeRateService.mkConversionResult (upper src) (upper tgt) rate a
          (Decimal.mk (Decimal.sign a)
             (millionths (Decimal.coeff a * Decimal.coeff rate)
                (Decimal.exp a + Decimal.exp rate))
             (-6))
          d)
  /\ st_db (snd run) = st_db st
  /\ st_calls (snd run) = st_calls st.
Proof.
  intros d a Hhit Hs Ht Hpos Ha Hfit Hlo Hmag. cbv zeta.
  unfold Decimal.is_positive in Hpos.
  apply andb_true_iff in Hpos as [Hsign Hcoeff].
  apply negb_true_iff in Hsign. apply Z.ltb_lt in Hcoeff.
  assert (Hc : 1 <= Decimal.coeff a * Decimal.coeff rate) by nia.
  destruct (ndigits_spec _ Hc) as [_ Hn1].
  pose proof (get_exchange_rate_hit reg src tgt d None st rate Hhit)
    as (Hfst & Hdb & _ & Hcalls).
  rewrite new_valid in Hfst
    by (rewrite ?upper_length; auto;
        unfold Decimal.is_positive; rewrite Hsign; simpl;
        now apply Z.ltb_lt).
  unfold ExchangeRateService.convert_amount, bind.
  assert (Hdate : (match valuation_date with
                   | Some d0 => ret d0
                   | None => gets st_today
                   end) st = (Ok d, st)) by (subst d; now destruct valuation_date).
  rewrite Hdate. fold a.
  destruct (ExchangeRateService.get_exchange_rate reg src tgt d None st)
    as [r st'].
  simpl in Hfst, Hdb, Hcalls. subst r.
  unfold ExchangeRateData.rate. cbn [ExchangeRateData.rate_value].
  rewrite mul_exact by (try assumption; lia).
  unfold of_result, of_trapped. rewrite Hsign, xorb_false_r.
  rewrite quantize_millionths by (try assumption; lia).
  unfold ret. simpl. auto.
Qed.

Lemma convert_amount_rounds_the_exact_product_witness :
  fst (ExchangeRateService.convert_amount Scenario.fallback_registry
         "usd" "eur" (inl Scenario.half) (Some Scenario.day)
         (Scenario.state_of Scenario.tie_rate_db))
  = Ok (ExchangeRateService.mkConversionResult "USD" "EUR"
          Scenario.r1_000001 Scenario.half
          (Decimal.mk false 500000 (-6)) Scenario.day).
Proof.
  destruct (convert_amount_rounds_the_exact_product
              Scenario.fallback_registry "usd" "eur" (inl Scenario.half)
              (Some Scenario.day) (Scenario.state_of Scenario.tie_rate_db)
              Scenario.r1_000001) as [H _].
  - vm_compute. reflexivity.
  - reflexivity.
  - reflexivity.
  - reflexivity.
  - now vm_compute.
  - now vm_compute.
  - now vm_compute.
  - now vm_compute.
  - rewrite H. vm_compute. reflexivity.
Defined.

(** X22. A product that is too large for six fractional digits is not
    rounded but refused: when the store answers the pair with a positive
    rate and the exact product [amount * rate] (of at most 28 significant
    digits) is [10^22] or more in magnitude, [convert_amount] raises
    [decimal.InvalidOperation], the signal of [quantize] for a result that
    would need more than the 28 digits of the context; no provider is asked
    and the database is not changed. *)
Theorem convert_amount_refuses_a_huge_product {World : Type}
    (reg : list (string * (option string -> CurrencyAdapter World)))
    src tgt amount valuation_date (st : State World) rate :
  let d :=
    match valuation_date with Some d => d | None => st_today st end in
  let a := ExchangeRateService.decimal_of_amount amount in
  CurrencyExchangeRateManager.get_rate (st_db st) (upper src) (upper tgt) d
  = Ok (Some rate) ->
  String.length src = 3%nat -> String.length tgt = 3%nat ->
  Decimal.is_positive rate = true ->
  1 <= Decimal.coeff a ->
  Decimal.coeff a * Decimal.coeff rate < 10 ^ 28 ->
  -100000 <= Decimal.exp a + Decimal.exp rate <= 100000 ->
  23 <= Decimal.ndigits (Decimal.coeff a * Decimal.coeff rate)
        + (Decimal.exp a + Decimal.exp rate) ->
  let run :=
    ExchangeRateService.convert_amount reg src tgt amount valuation_date st in
  fst run = Raise (DecimalException Decimal.InvalidOperation)
  /\ st_db (snd run) = st_db st
  /\ st_calls (snd run) = st_calls st.
Proof.
  intros d a Hhit Hs Ht Hpos Ha Hfit He Hmag. cbv zeta.
  unfold Decimal.is_positive in Hpos.
  apply andb_true_iff in Hpos as [Hsign Hcoeff].
  apply negb_true_iff in Hsign. apply Z.ltb_lt in Hcoeff.
  assert (Hc : 1 <= Decimal.coeff a * Decimal.coeff rate) by nia.
  pose proof (ndigits_le _ 28 Hc Hfit) as Hn.
  pose proof (get_exchange_rate_hit reg src tgt d None st rate Hhit)
    as (Hfst & Hdb & _ & Hcalls).
  rewrite new_valid in Hfst
    by (rewrite ?upper_length; auto;
        unfold Decimal.is_positive; rewrite Hsign; simpl;
        now apply Z.ltb_lt).
  unfold ExchangeRateService.convert_amount, bind.
  assert (Hdate : (match valuation_date with
                   | Some d0 => ret d0
                   | None => gets st_today
                   end) st = (Ok d, st)) by (subst d; now destruct valuation_date).
  rewrite Hdate. fold a.
  destruct (ExchangeRateService.get_exchange_rate reg src tgt d None st)
    as [r st'].
  simpl in Hfst, Hdb, Hcalls. subst r.
  unfold ExchangeRateData.rate. cbn [ExchangeRateData.rate_value].
  rewrite mul_exact by (try assumption; lia).
  unfold of_result, of_trapped.
  unfold Decimal.quantize, Decimal.adjusted.
  cbn [Decimal.coeff Decimal.exp Decimal.sign Decimal.micro
       Decimal.rounding Decimal.DefaultContext Decimal.Emax Decimal.prec].
  change (negb ((Decimal.Etiny Decimal.DefaultContext <=? -6)
                && (-6 <=? 999999))) with false. cbv iota.
  assert ((Decimal.coeff a * Decimal.coeff rate =? 0) = false) as ->
    by (apply Z.eqb_neq; lia).
  assert ((999999 <? Decimal.exp a + Decimal.exp rate
                     + Decimal.ndigits (Decimal.coeff a * Decimal.coeff rate)
                     - 1) = false) as -> by (apply Z.ltb_ge; lia).
  assert ((28 <? Decimal.exp a + Decimal.exp rate
                 + Decimal.ndigits (Decimal.coeff a * Decimal.coeff rate)
                 - 1 - -6 + 1) = true) as -> by (apply Z.ltb_lt; lia).
  simpl. auto.
Qed.

Lemma convert_amount_refuses_a_huge_product_witness :
  fst (ExchangeRateService.convert_amount Scenario.fallback_registry
         "usd" "eur" (inl Cases.huge) (Some Scenario.day)
         (Scenario.state_of Scenario.example_rate_db))
  = Raise (DecimalException Decimal.InvalidOperation).
Proof.
  destruct (convert_amount_refuses_a_huge_product
              Scenario.fallback_registry "usd" "eur" (inl Cases.huge)
              (Some Scenario.day) (Scenario.state_of Scenario.example_rate_db)
              Scenario.r1_234567) as [H _].
  - vm_compute. reflexivity.
  - reflexivity.
  - reflexivity.
  - reflexivity.
  - now vm_compute.
  - now vm_compute.
  - now vm_compute.
  - now vm_compute.
  - exact H.
Defined.

(** ** A provider without an adapter class *)

(** X23. An active provider whose name has no entry in the adapter
    registry (the lookup is by the exact name) and no cached adapter: forced,
    the orchestrator raises the [ValueError] that names the provider and
    lists the registered names; not forced, and the provider being the only
    active one, the same error is caught as an unexpected one and reported in
    the aggregate error under the provider's name, prefixed with
    "Unexpected error: ". In both cases no adapter is asked. *)
Theorem provider_without_adapter_class {World : Type}
    (reg : list (string * (option string -> CurrencyAdapter World)))
    src tgt d p (st : State World) :
  Provider.name p <> ""%string ->
  ProviderManager.get_active_by_name (st_db st) (Provider.name p) = Ok p ->
  ProviderManager.get_active_ordered (st_db st) = [p] ->
  st_adapter_cache st
    !! (Provider.name p ++ ":" ++ str_int (Provider.id p))%string = None ->
  dict_get reg (Provider.name p) = None ->
  let msg :=
    [Lit "No adapter registered for provider '"; FStr (Provider.name p);
     Lit "'. Available: "; FList (dict_keys reg)] in
  ProviderManagerService.get_exchange_rate_data reg src tgt d
    (Some (Provider.name p)) st
  = (Raise (ValueError msg), st)
  /\ exists st',
       ProviderManagerService.get_exchange_rate_data reg src tgt d None st
       = (Raise (AllProvidersFailedError (all_failed_message src tgt d 1)
                   [(Provider.name p, Lit "Unexpected error: " :: msg)]),
          st')
       /\ st_calls st' = st_calls st.
Proof.
  intros Hname Hget Hord Hcache Hreg msg. split.
  - unfold ProviderManagerService.get_exchange_rate_data.
    rewrite (truthy_nonempty _ Hname).
    unfold bind, try_except. rewrite Hget.
    unfold ProviderManagerService._get_adapter. now rewrite Hcache, Hreg.
  - unfold ProviderManagerService.get_exchange_rate_data. cbn [truthy].
    unfold bind, ProviderManagerService._get_active_providers, gets.
    rewrite Hord. cbn [length Z.of_nat ProviderManagerService.sweep].
    unfold try_except, ProviderManagerService.attempt, bind, logger, modify.
    unfold ProviderManagerService._get_adapter.
    cbn [st_adapter_cache add_log]. rewrite Hcache, Hreg.
    eexists. split; [reflexivity|]. reflexivity.
Qed.

Lemma provider_without_adapter_class_witness :
  ProviderManagerService.get_exchange_rate_data Scenario.failing_registry
    "USD" "EUR" Scenario.day (Some "p3"%string)
    (Scenario.state_of
       (mkDB [Scenario.usd; Scenario.eur] [Scenario.row 3 "p3" 3 true] []))
  = (Raise (ValueError
              [Lit "No adapter registered for provider '"; FStr "p3";
               Lit "'. Available: "; FList ["p1"; "p2"]%string]),
     Scenario.state_of
       (mkDB [Scenario.usd; Scenario.eur] [Scenario.row 3 "p3" 3 true] [])).
Proof.
  destruct (provider_without_adapter_class Scenario.failing_registry
              "USD" "EUR" Scenario.day (Scenario.row 3 "p3" 3 true)
              (Scenario.state_of
                 (mkDB [Scenario.usd; Scenario.eur]
                    [Scenario.row 3 "p3" 3 true] []))) as [H _].
  - discriminate.
  - reflexivity.
  - reflexivity.
  - reflexivity.
  - reflexivity.
  - exact H.
Defined.


(** * The column of rate values *)

Lemma millionths_zero e : millionths 0 e = 0.
Proof.
  unfold millionths. destruct (-6 <=? e) eqn:E; [reflexivity|].
  apply Z.leb_gt in E. unfold round_half_even_div.
  pose proof (pow10_pos (-6 - e) ltac:(lia)) as Hp.
  rewrite Z.div_0_l, Z.mod_0_l by lia.
  assert ((10 ^ (-6 - e) <? 2 * 0) = false) as -> by (apply Z.ltb_ge; lia).
  assert ((2 * 0 =? 10 ^ (-6 - e)) = false) as -> by (apply Z.eqb_neq; lia).
  reflexivity.
Qed.

(** A decimal of [n] digits in front of the seventh fractional place makes
    fewer than [10^n] millionths, and at least [10^(n-1)]. *)
Lemma millionths_upper c e K :
  1 <= c -> 0 <= K -> Decimal.ndigits c + e + 6 <= K ->
  0 <= millionths c e <= 10 ^ K.
Proof.
  intros Hc HK Hfit.
  destruct (ndigits_spec c Hc) as [Hn Hn1].
  set (n := Decimal.ndigits c) in *.
  unfold millionths. destruct (-6 <=? e) eqn:E.
  - apply Z.leb_le in E.
    pose proof (pow10_pos (e + 6) ltac:(lia)) as Hp.
    split; [nia|].
    assert (10 ^ n * 10 ^ (e + 6) <= 10 ^ K).
    { rewrite <- Z.pow_add_r by lia. apply Z.pow_le_mono_r; lia. }
    nia.
  - apply Z.leb_gt in E. set (k := -6 - e).
    assert (Hk : 1 <= k) by (subst k; lia).
    pose proof (pow10_pos k ltac:(lia)) as Hpk.
    destruct (round_half_even_div_bounds c k ltac:(lia) ltac:(lia))
      as [[Hlo Hhi] _].
    assert (0 <= c / 10 ^ k) by (apply Z.div_pos; lia).
    split; [lia|].
    assert (c / 10 ^ k < 10 ^ K); [|lia].
    apply Z.div_lt_upper_bound; [lia|].
    destruct (Z_le_gt_dec k n) as [Hkn | Hkn].
    + assert (10 ^ n <= 10 ^ k * 10 ^ K); [|lia].
      rewrite <- Z.pow_add_r by lia. apply Z.pow_le_mono_r; subst k; lia.
    + assert (10 ^ n <= 10 ^ k) by (apply Z.pow_le_mono_r; lia).
      pose proof (pow10_pos K HK). nia.
Qed.

Lemma millionths_lower c e K :
  1 <= c -> 0 <= K -> K + 1 <= Decimal.ndigits c + e + 6 ->
  10 ^ K <= millionths c e.
Proof.
  intros Hc HK Hbig.
  destruct (ndigits_spec c Hc) as [[Hlo Hhi] Hn1].
  set (n := Decimal.ndigits c) in *.
  unfold millionths. destruct (-6 <=? e) eqn:E.
  - apply Z.leb_le in E.
    pose proof (pow10_pos (e + 6) ltac:(lia)) as Hp.
    assert (10 ^ K <= 10 ^ (n - 1) * 10 ^ (e + 6)).
    { rewrite <- Z.pow_add_r by lia. apply Z.pow_le_mono_r; lia. }
    nia.
  - apply Z.leb_gt in E. set (k := -6 - e).
    assert (Hk : 1 <= k) by (subst k; lia).
    pose proof (pow10_pos k ltac:(lia)) as Hpk.
    destruct (round_half_even_div_bounds c k ltac:(lia) ltac:(lia))
      as [[Hlo' Hhi'] _].
    assert (10 ^ K <= c / 10 ^ k); [|lia].
    apply Z.div_le_lower_bound; [lia|].
    assert (10 ^ k * 10 ^ K <= 10 ^ (n - 1)); [|lia].
    rewrite <- Z.pow_add_r by lia. apply Z.pow_le_mono_r; subst k; lia.
Qed.

(** What the column makes of a value: the whole number of millionths
    nearest to it (a tie going to the even one) when that number has at
    most 18 digits, and [decimal.InvalidOperation] otherwise. *)
Lemma format_number_spec s c e :
  0 <= c ->
  CurrencyExchangeRateManager.format_number (Decimal.mk s c e)
    CurrencyExchangeRateManager.rate_value_max_digits
    CurrencyExchangeRateManager.rate_value_decimal_places
  = if millionths c e <? 10 ^ 18
    then Decimal.Value (Decimal.mk s (millionths c e) (-6))
    else Decimal.Trap Decimal.InvalidOperation.
Proof.
  intros Hc0.
  unfold CurrencyExchangeRateManager.format_number,
    CurrencyExchangeRateManager.rate_value_max_digits,
    CurrencyExchangeRateManager.rate_value_decimal_places.
  set (ctx := Decimal.mkContext 18 _ _ _).
  unfold Decimal.quantize, Decimal.adjusted.
  cbn [Decimal.coeff Decimal.exp Decimal.sign].
  change (negb ((Decimal.Etiny ctx <=? - (6)) && (- (6) <=? Decimal.Emax ctx)))
    with false. cbv iota.
  change (Decimal.Emax ctx) with 999999.
  change (Decimal.prec ctx) with 18.
  change (Decimal.rounding ctx) with Decimal.ROUND_HALF_EVEN.
  destruct (Z.eq_dec c 0) as [-> | Hc'].
  { rewrite millionths_zero. reflexivity. }
  assert (Hc : 1 <= c) by lia.
  assert ((c =? 0) = false) as -> by (apply Z.eqb_neq; lia).
  destruct (ndigits_spec c Hc) as [Hn Hn1].
  destruct (Z_le_gt_dec (Decimal.ndigits c + e) 12) as [Hfit | Hbig].
  - pose proof (millionths_upper c e 18 Hc ltac:(lia) ltac:(lia)) as Hm.
    assert ((999999 <? e + Decimal.ndigits c - 1) = false) as ->
      by (apply Z.ltb_ge; lia).
    assert ((18 <? e + Decimal.ndigits c - 1 - - (6) + 1) = false) as ->
      by (apply Z.ltb_ge; lia).
    assert (Hres : Decimal._rescale (Decimal.mk s c e) (- (6))
                     Decimal.ROUND_HALF_EVEN
                   = Decimal.mk s (millionths c e) (-6)).
    { unfold millionths. destruct (-6 <=? e) eqn:E.
      - unfold Decimal._rescale.
        cbn [Decimal.coeff Decimal.exp Decimal.sign].
        assert ((c =? 0) = false) as -> by (apply Z.eqb_neq; lia).
        change (- (6)) with (-6). rewrite E.
        replace (e - -6) with (e + 6) by lia. reflexivity.
      - apply Z.leb_gt in E. change (- (6)) with (-6).
        now rewrite rescale_half_even by lia. }
    rewrite Hres. cbn [Decimal.coeff Decimal.exp Decimal.sign].
    set (m := millionths c e) in *.
    destruct (Z.eq_dec m 0) as [Hm0 | Hm0].
    + rewrite Hm0. reflexivity.
    + assert (Hm1 : 1 <= m) by lia.
      destruct (ndigits_spec m Hm1) as [[Hmlo Hmhi] Hnm1].
      destruct (m <? 10 ^ 18) eqn:Elt.
      * apply Z.ltb_lt in Elt.
        pose proof (ndigits_le m 18 Hm1 Elt) as Hnm.
        assert ((999999 <? -6 + Decimal.ndigits m - 1) = false) as ->
          by (apply Z.ltb_ge; lia).
        assert ((18 <? Decimal.ndigits m) = false) as ->
          by (apply Z.ltb_ge; lia).
        assert (Hrange : Decimal.Etiny ctx
                         <= Decimal.ndigits m + -6 - Decimal.prec ctx
                         < Decimal.Etop ctx).
        { unfold Decimal.Etiny, Decimal.Etop. cbn. lia. }
        rewrite (fix_rounds ctx s m (-6) eq_refl ltac:(cbn; lia) Hm1 Hrange).
        change (Decimal.prec ctx) with 18.
        assert ((Decimal.ndigits m <=? 18) = true) as ->
          by (apply Z.leb_le; lia).
        reflexivity.
      * apply Z.ltb_ge in Elt.
        assert (Hm18 : m = 10 ^ 18) by lia.
        assert (Decimal.ndigits m = 19) as ->.
        { apply ndigits_unique; [lia|]. rewrite Hm18. now vm_compute. }
        reflexivity.
  - pose proof (millionths_lower c e 18 Hc ltac:(lia) ltac:(lia)) as Hm.
    assert ((millionths c e <? 10 ^ 18) = false) as ->
      by (apply Z.ltb_ge; lia).
    destruct (999999 <? e + Decimal.ndigits c - 1); [reflexivity|].
    assert ((18 <? e + Decimal.ndigits c - 1 - - (6) + 1) = true) as ->
      by (apply Z.ltb_lt; lia).
    reflexivity.
Qed.

(** The value of an attempt at the column, by the number of millionths it
    makes. *)
Lemma format_number_fits v :
  0 <= Decimal.coeff v ->
  millionths (Decimal.coeff v) (Decimal.exp v) < 10 ^ 18 ->
  CurrencyExchangeRateManager.format_number v
    CurrencyExchangeRateManager.rate_value_max_digits
    CurrencyExchangeRateManager.rate_value_decimal_places
  = Decimal.Value
      (Decimal.mk (Decimal.sign v)
         (millionths (Decimal.coeff v) (Decimal.exp v)) (-6)).
Proof.
  destruct v as [sg c e]. simpl. intros Hc Hm.
  rewrite (format_number_spec sg c e Hc).
  apply Z.ltb_lt in Hm. now rewrite Hm.
Qed.


(** ** [store_rate]: insert if absent *)




(** * Resolution by a reciprocal or a cross rate *)

(** C5, as amended. Let the store hold the rate [r] for (A -> B, d) and no
    record for (B -> A, d). If [r] is positive, [get_rate] for (B -> A, d)
    does not raise and returns the quotient [1 / r] as the division of the
    default decimal context gives it: a positive decimal of at most 28
    significant digits, within half a unit of its last digit of [1 / r],
    and exactly [1 / r] whenever that has fewer than 28 digits; the six
    fractional digits of the column do not limit it. If [r] is zero, the
    call raises [decimal.DivisionByZero]. *)
Theorem inverse_rate_is_reciprocal db a b d r :
  unique_exchange_rate_per_day (rates db) ->
  a <> b -> stored db a b d r -> no_record db b a d ->
  (ordinary r ->
   exists q,
     CurrencyExchangeRateManager.get_rate db b a d = Ok (Some q)
     /\ Decimal.is_positive q = true
     /\ Decimal.coeff q < 10 ^ 28
     /\ nearest_quotient q Decimal.one r
     /\ (Decimal.ndigits (Decimal.coeff q) = 28
         \/ exact_quotient q Decimal.one r))
  /\ (Decimal.coeff r = 0 ->
      CurrencyExchangeRateManager.get_rate db b a d
      = Raise (DecimalException Decimal.DivisionByZero)).
Proof.
  intros Hu Hab Hst Hno.
  rewrite (get_rate_inverse db a b d r Hu Hab Hst Hno). split.
  - intros Hr.
    destruct (truediv_ordinary Decimal.one r ordinary_one Hr)
      as (q & Hq & Hpos & Hlt & Hn & Hd).
    exists q. unfold quotient. rewrite Hq. auto.
  - intros Hr. unfold quotient, Decimal.truediv. rewrite Hr. reflexivity.
Qed.

Lemma inverse_rate_is_reciprocal_witness :
  exists q,
    CurrencyExchangeRateManager.get_rate Scenario.example_rate_db
      "EUR" "USD" Scenario.day = Ok (Some q)
    /\ Decimal.is_positive q = true
    /\ Decimal.coeff q < 10 ^ 28
    /\ nearest_quotient q Decimal.one Scenario.r1_234567
    /\ (Decimal.ndigits (Decimal.coeff q) = 28
        \/ exact_quotient q Decimal.one Scenario.r1_234567).
Proof.
  destruct (inverse_rate_is_reciprocal Scenario.example_rate_db
              "USD" "EUR" Scenario.day Scenario.r1_234567) as (Hpos & _).
  - unfold unique_exchange_rate_per_day. simpl. solve_NoDup.
  - discriminate.
  - eexists. simpl. split; [left; reflexivity|]. split; reflexivity.
  - intros row [<- | []]; discriminate.
  - apply Hpos. repeat split; now vm_compute.
Defined.

(** C5, the claim as stated fails for a stored rate of zero. The rate
    0.0000004 of a quote is written to the column as 0.000000; the store
    then holds the rate zero for (USD -> EUR, d) and no record for
    (EUR -> USD, d), and resolving (EUR -> USD, d) raises
    [decimal.DivisionByZero]: no reciprocal is returned. *)
Lemma stored_zero_has_no_reciprocal :
  snd (CurrencyExchangeRateManager.store_rate Cases.empty_db []
         Scenario.usd Scenario.eur Scenario.day Cases.r0_0000004
         (Scenario.row 1 "p1" 1 true))
  = Cases.zero_rate_db
  /\ stored Cases.zero_rate_db "USD" "EUR" Scenario.day Cases.zero
  /\ no_record Cases.zero_rate_db "EUR" "USD" Scenario.day
  /\ CurrencyExchangeRateManager.get_rate Cases.zero_rate_db "EUR" "USD"
       Scenario.day
     = Raise (DecimalException Decimal.DivisionByZero).
Proof.
  split; [vm_compute; reflexivity|]. split; [|split].
  - eexists. simpl. split; [left; reflexivity|]. split; reflexivity.
  - intros row [<- | []]; discriminate.
  - vm_compute. reflexivity.
Qed.

(** C4, as amended. Let X and Y be different currencies, neither of them
    the base currency, with no record for (X -> Y, d) or (Y -> X, d). If
    the store holds positive rates [p] for (base -> X, d) and [q] for
    (base -> Y, d), [get_rate] does not raise and returns for (X -> Y, d)
    the quotient [q / p] and for (Y -> X, d) the quotient [p / q], as the
    division of the default decimal context gives them: positive decimals
    of at most 28 significant digits, within half a unit of the last digit
    of the quotient and exactly the quotient whenever that has fewer than
    28 digits. If the stored [p] is zero and [q] is not, the call for
    (X -> Y, d) raises [decimal.DivisionByZero]. If a leg is missing, the
    call returns not-found in both directions; no other route is tried. *)
Theorem cross_rate_via_base db x y d :
  unique_exchange_rate_per_day (rates db) ->
  x <> y ->
  x <> CurrencyExchangeRateManager.BASE_CURRENCY_CODE ->
  y <> CurrencyExchangeRateManager.BASE_CURRENCY_CODE ->
  no_record db x y d -> no_record db y x d ->
  (forall p q,
     stored db CurrencyExchangeRateManager.BASE_CURRENCY_CODE x d p ->
     stored db CurrencyExchangeRateManager.BASE_CURRENCY_CODE y d q ->
     (ordinary p -> ordinary q ->
      exists u v,
        CurrencyExchangeRateManager.get_rate db x y d = Ok (Some u)
        /\ Decimal.is_positive u = true
        /\ Decimal.coeff u < 10 ^ 28
        /\ nearest_quotient u q p
        /\ (Decimal.ndigits (Decimal.coeff u) = 28 \/ exact_quotient u q p)
        /\ CurrencyExchangeRateManager.get_rate db y x d = Ok (Some v)
        /\ Decimal.is_positive v = true
        /\ Decimal.coeff v < 10 ^ 28
        /\ nearest_quotient v p q
        /\ (Decimal.ndigits (Decimal.coeff v) = 28 \/ exact_quotient v p q))
     /\ (Decimal.coeff p = 0 -> Decimal.coeff q <> 0 ->
         CurrencyExchangeRateManager.get_rate db x y d
         = Raise (DecimalException Decimal.DivisionByZero)))
  /\ (no_record db CurrencyExchangeRateManager.BASE_CURRENCY_CODE x d
      \/ no_record db CurrencyExchangeRateManager.BASE_CURRENCY_CODE y d ->
      CurrencyExchangeRateManager.get_rate db x y d = Ok None
      /\ CurrencyExchangeRateManager.get_rate db y x d = Ok None).
Proof.
  intros Hu Hxy Hxb Hyb Hno1 Hno2. split.
  - intros p q Hp Hq.
    rewrite (get_rate_cross db x y d p q) by auto.
    rewrite (get_rate_cross db y x d q p) by auto.
    split.
    + intros Hop Hoq.
      destruct (truediv_ordinary q p Hoq Hop)
        as (u & Hu' & Hpos & Hlt & Hn & Hd).
      destruct (truediv_ordinary p q Hop Hoq)
        as (v & Hv' & Hpos' & Hlt' & Hn' & Hd').
      exists u, v. unfold quotient. rewrite Hu', Hv'.
      repeat split; assumption.
    + intros Hp0 Hq0. unfold quotient, Decimal.truediv. rewrite Hp0.
      apply Z.eqb_neq in Hq0. rewrite Hq0. reflexivity.
  - intros Hleg. split; apply get_rate_cross_missing; auto. tauto.
Qed.

Lemma cross_rate_via_base_witness :
  exists u v,
    CurrencyExchangeRateManager.get_rate Cases.column_db "EUR" "CHF"
      Scenario.day = Ok (Some u)
    /\ nearest_quotient u Cases.r1_083200 Cases.r0_912300
    /\ CurrencyExchangeRateManager.get_rate Cases.column_db "CHF" "EUR"
         Scenario.day = Ok (Some v)
    /\ nearest_quotient v Cases.r0_912300 Cases.r1_083200.
Proof.
  destruct (cross_rate_via_base Cases.column_db "EUR" "CHF" Scenario.day)
    as (Hlegs & _).
  - unfold unique_exchange_rate_per_day. simpl. solve_NoDup.
  - discriminate.
  - discriminate.
  - discriminate.
  - intros row [<- | [<- | []]]; discriminate.
  - intros row [<- | [<- | []]]; discriminate.
  - destruct (Hlegs Cases.r0_912300 Cases.r1_083200) as (Hpos & _).
    + exists Cases.usd_eur_row. simpl. auto.
    + exists Cases.usd_chf_row. simpl. auto.
    + destruct Hpos as (u & v & Hu & _ & _ & Hnu & _ & Hv & _ & _ & Hnv & _).
      * repeat split; now vm_compute.
      * repeat split; now vm_compute.
      * exists u, v. auto.
Defined.

(** C4, the claim as stated fails when the stored leg (base -> X, d) is
    zero: with no record between the euro and the franc, the rate zero
    stored for (USD -> EUR, d) and 1.083200 for (USD -> CHF, d), resolving
    (EUR -> CHF, d) raises [decimal.DivisionByZero]; no quotient is
    returned. *)
Lemma zero_leg_has_no_cross_rate :
  stored Cases.zero_leg_db "USD" "EUR" Scenario.day Cases.zero
  /\ stored Cases.zero_leg_db "USD" "CHF" Scenario.day Cases.r1_083200
  /\ no_record Cases.zero_leg_db "EUR" "CHF" Scenario.day
  /\ no_record Cases.zero_leg_db "CHF" "EUR" Scenario.day
  /\ CurrencyExchangeRateManager.get_rate Cases.zero_leg_db "EUR" "CHF"
       Scenario.day
     = Raise (DecimalException Decimal.DivisionByZero).
Proof.
  split; [|split; [|split; [|split]]].
  - eexists. simpl. split; [left; reflexivity|]. split; reflexivity.
  - exists Cases.usd_chf_row. simpl. auto.
  - intros row [<- | [<- | []]]; discriminate.
  - intros row [<- | [<- | []]]; discriminate.
  - vm_compute. reflexivity.
Qed.

(** * The service after a fetch *)

(** C6. A fetched quote is lost when the row of its provider is not
    found. The deployment has the adapters that [_initialize_adapters]
    registers, one provider row, the active "mock", the currencies USD and
    EUR and an empty rate table; the service is asked for (usd, eur) with
    [provider = ""]. The store misses; the orchestrator, for which the empty
    name is no forced provider, fetches the quote of the mock adapter; the
    service then looks up the provider row named [""], outside the handler
    of [_store_rate], and [Provider.DoesNotExist] reaches the caller: the
    quote is not returned, nothing is stored and no warning is logged. *)
Theorem fetched_quote_is_lost_when_its_provider_is_not_found
    (CurrencyBeaconAdapter
       : option string -> CurrencyAdapter PyRandom.RandomState) :
  let registry := Cases.initialized_registry CurrencyBeaconAdapter in
  let run :=
    ExchangeRateService.get_exchange_rate registry "usd" "eur" Scenario.day
      (Some ""%string) Cases.mock_state in
  CurrencyExchangeRateManager.get_rate Cases.mock_db "USD" "EUR" Scenario.day
  = Ok None
  /\ fst (ProviderManagerService.get_exchange_rate_data registry "USD" "EUR"
            Scenario.day (Some ""%string)
            (after_miss "usd" "eur" Cases.mock_state))
     = Ok Cases.mock_quote
  /\ fst run = Raise (DoesNotExist ProviderModel)
  /\ st_calls (snd run) = ["mock"%string]
  /\ rates (st_db (snd run)) = []
  /\ st_log (snd run)
     = [mkLog DEBUG
          [Lit "Rate not in database, fetching from provider: ";
           FStr "USD"; Lit "→"; FStr "EUR"];
        mkLog DEBUG [Lit "Trying provider: "; FStr "mock"];
        mkLog INFO
          [Lit "Successfully fetched rate from "; FStr "mock"; Lit ": ";
           FStr "USD"; Lit "→"; FStr "EUR"; Lit "=";
           FDecimal (Decimal.mk false 500000 (-6))]].
Proof.
  intros registry run. repeat split; vm_compute; reflexivity.
Qed.

(** X9. A fetched quote is stored and then served from the store, at the
    precision of the column. On a miss, let the orchestrator have fetched a
    quote [q] for the requested pair and date whose rate is positive and
    fits the column (in millionths, rounded half-even, it is [m < 10^18]),
    the currencies of the pair being known and the provider row found. Then
    [get_exchange_rate] returns [q], with the rate as fetched, and leaves a
    store that holds for the triple the rate [m] millionths and still
    satisfies the uniqueness constraint. Any later request for the triple,
    forced to a provider or not, asks no provider and does not change the
    store: it is answered with the stored rate, without a provider name,
    when [m >= 1], and raises the validation error of [ExchangeRateData]
    when the rate was rounded to zero. *)
Theorem fetched_quote_is_served_from_the_store {World : Type}
    (reg : list (string * (option string -> CurrencyAdapter World)))
    src tgt d provider (st st1 : State World) q prow cs ct :
  CurrencyExchangeRateManager.get_rate (st_db st) (upper src) (upper tgt) d
  = Ok None ->
  ProviderManagerService.get_exchange_rate_data reg (upper src) (upper tgt) d
    provider (after_miss src tgt st) = (Ok q, st1) ->
  ExchangeRateData.source_currency q = upper src ->
  ExchangeRateData.exchanged_currency q = upper tgt ->
  ExchangeRateData.valuation_date q = d ->
  ProviderManager.get_by_name (st_db st) (provider_to_store provider q)
  = Ok prow ->
  List.NoDup (map Currency.code (currencies (st_db st))) ->
  unique_exchange_rate_per_day (rates (st_db st)) ->
  In cs (currencies (st_db st)) -> Currency.code cs = upper src ->
  In ct (currencies (st_db st)) -> Currency.code ct = upper tgt ->
  String.length src = 3%nat -> String.length tgt = 3%nat ->
  Decimal.is_positive (ExchangeRateData.rate q) = true ->
  let m :=
    millionths (Decimal.coeff (ExchangeRateData.rate q))
      (Decimal.exp (ExchangeRateData.rate q)) in
  m < 10 ^ 18 ->
  exists st',
    ExchangeRateService.get_exchange_rate reg src tgt d provider st
    = (Ok q, st')
    /\ stored (st_db st') (upper src) (upper tgt) d (Decimal.mk false m (-6))
    /\ unique_exchange_rate_per_day (rates (st_db st'))
    /\ forall provider',
         let again :=
           ExchangeRateService.get_exchange_rate reg src tgt d provider' st' in
         (1 <= m ->
          fst again
          = Ok (ExchangeRateData.mk (upper src) (upper tgt) d
                  (Decimal.mk false m (-6)) None))
         /\ (m = 0 ->
             fst again
             = Raise (ValidationError
                        [FInt 1;
                         Lit " validation error(s) for ExchangeRateData"]))
         /\ st_calls (snd again) = st_calls st'
         /\ st_db (snd again) = st_db st'.
Proof.
  intros Hmiss Hfetch Hqs Hqt Hqd Hprov Hnd Hu Hcs Hcsc Hct Hctc Hls Hlt
    Hpos m Hm.
  destruct (miss_has_no_direct_record _ _ _ _ Hmiss) as [Hne Hno].
  assert (Hdb : st_db st1 = st_db st).
  { pose proof (orchestrator_db reg (upper src) (upper tgt) d provider
                  (after_miss src tgt st)) as H.
    rewrite Hfetch in H. exact H. }
  unfold Decimal.is_positive in Hpos.
  apply andb_true_iff in Hpos as [Hsign Hcoeff].
  apply negb_true_iff in Hsign. apply Z.ltb_lt in Hcoeff.
  set (row := CurrencyExchangeRate.mk cs ct prow d (Decimal.mk false m (-6))).
  set (db' := mkDB (currencies (st_db st)) (providers (st_db st))
                (rates (st_db st) ++ [row])).
  assert (Hkey : rate_key row = (upper src, upper tgt, d))
    by (unfold rate_key, row; simpl; congruence).
  assert (Hstore : ExchangeRateService._store_rate q prow st1
                   = (Ok tt, set_db db' st1)).
  { unfold ExchangeRateService._store_rate, try_except, bind.
    rewrite Hdb, Hqs, Hqt.
    rewrite (get_by_code_known (st_db st) (upper src) cs) by
      (auto; now rewrite upper_idempotent).
    rewrite (get_by_code_known (st_db st) (upper tgt) ct) by
      (auto; now rewrite upper_idempotent).
    unfold ExchangeRateService.objects_store_rate. rewrite Hdb, Hqd.
    rewrite (store_rate_fresh (st_db st) [] cs ct d (ExchangeRateData.rate q)
               prow (Decimal.mk false m (-6))).
    - rewrite app_nil_r. reflexivity.
    - rewrite app_nil_r. intros r Hr. rewrite Hcsc, Hctc. now apply Hno.
    - rewrite format_number_fits by (fold m; lia). now rewrite Hsign. }
  exists (set_db db' st1).
  assert (Hget : CurrencyExchangeRateManager.get_rate db' (upper src)
                   (upper tgt) d = Ok (Some (Decimal.mk false m (-6)))).
  { unfold CurrencyExchangeRateManager.get_rate.
    apply String.eqb_neq in Hne. rewrite Hne.
    unfold CurrencyExchangeRateManager.filter_pair, db'. simpl.
    rewrite List.filter_app.
    rewrite (filter_key_absent _ (upper src, upper tgt, d) (rates (st_db st)));
      [| intros r; apply matches_rate_key | exact Hno].
    simpl.
    assert (CurrencyExchangeRateManager.matches (upper src) (upper tgt) d row
            = true) as -> by now apply matches_rate_key.
    reflexivity. }
  split; [|split; [|split]].
  - unfold ExchangeRateService.get_exchange_rate, bind. rewrite Hmiss.
    unfold logger, modify. fold (after_miss src tgt st). rewrite Hfetch.
    fold (provider_to_store provider q). rewrite Hdb, Hprov, Hstore.
    reflexivity.
  - exists row. simpl. split; [apply in_or_app; right; now left|].
    split; [exact Hkey | reflexivity].
  - simpl. apply unique_snoc; [exact Hu|].
    intros r Hr. rewrite Hkey. now apply Hno.
  - intros provider'.
    pose proof (get_exchange_rate_hit reg src tgt d provider'
                  (set_db db' st1) _ Hget) as (Hfst & Hdb' & _ & Hc).
    cbv zeta. split; [|split; [|split]]; [| |exact Hc|exact Hdb'].
    + intros Hm1. rewrite Hfst.
      rewrite new_valid; rewrite ?upper_length; try assumption.
      * now rewrite !upper_idempotent.
      * unfold Decimal.is_positive. simpl. apply Z.ltb_lt. lia.
    + intros Hm0. rewrite Hfst, Hm0.
      unfold ExchangeRateData.new, ExchangeRateData.code_ok.
      rewrite !upper_length, Hls, Hlt. reflexivity.
Qed.

Lemma fetched_quote_is_served_from_the_store_witness :
  exists q st',
    ExchangeRateService.get_exchange_rate Scenario.fallback_registry
      "usd" "eur" Scenario.day None (Scenario.state_of Scenario.fallback_db)
    = (Ok q, st')
    /\ ExchangeRateData.provider_name q = Some "p2"%string
    /\ ExchangeRateData.rate q = Scenario.r0_9123
    /\ stored (st_db st') "USD" "EUR" Scenario.day
         (Decimal.mk false 912300 (-6))
    /\ fst (ExchangeRateService.get_exchange_rate Scenario.fallback_registry
              "usd" "eur" Scenario.day None st')
       = Ok (ExchangeRateData.mk "USD" "EUR" Scenario.day
               (Decimal.mk false 912300 (-6)) None).
Proof.
  pose (run := ProviderManagerService.get_exchange_rate_data
                 Scenario.fallback_registry (upper "usd") (upper "eur")
                 Scenario.day None
                 (after_miss "usd" "eur"
                    (Scenario.state_of Scenario.fallback_db))).
  pose (q := ExchangeRateData.mk "USD" "EUR" Scenario.day Scenario.r0_9123
               (Some "p2"%string)).
  destruct (fetched_quote_is_served_from_the_store
              Scenario.fallback_registry "usd" "eur" Scenario.day None
              (Scenario.state_of Scenario.fallback_db) (snd run) q
              (Scenario.row 3 "p2" 2 true) Scenario.usd Scenario.eur)
    as (st' & Hrun & Hst & _ & Hagain).
  - reflexivity.
  - vm_compute. reflexivity.
  - reflexivity.
  - reflexivity.
  - reflexivity.
  - reflexivity.
  - simpl. solve_NoDup.
  - unfold unique_exchange_rate_per_day. simpl. constructor.
  - simpl. auto.
  - reflexivity.
  - simpl. auto.
  - reflexivity.
  - reflexivity.
  - reflexivity.
  - reflexivity.
  - now vm_compute.
  - exists q, st'. split; [exact Hrun|]. split; [reflexivity|].
    split; [reflexivity|]. split; [exact Hst|].
    destruct (Hagain None) as (Hfst & _). apply Hfst. now vm_compute.
Defined.

(** X24. A quote whose currency is unknown to the store is returned all
    the same: on a miss, when the orchestrator has fetched the quote [q],
    the provider row is found and the code of its source or of its target
    currency is not one of the currency table (whose codes are distinct),
    [get_exchange_rate] catches the [Currency.DoesNotExist] of the lookup,
    logs the warning "Could not store rate, currency not found: ..." and
    returns [q]; the database is left as it was and no further provider is
    asked. *)
Theorem unknown_currency_is_logged_not_raised {World : Type}
    (reg : list (string * (option string -> CurrencyAdapter World)))
    src tgt d provider (st st1 : State World) q prow :
  CurrencyExchangeRateManager.get_rate (st_db st) (upper src) (upper tgt) d
  = Ok None ->
  ProviderManagerService.get_exchange_rate_data reg (upper src) (upper tgt) d
    provider (after_miss src tgt st) = (Ok q, st1) ->
  ProviderManager.get_by_name (st_db st1) (provider_to_store provider q)
  = Ok prow ->
  List.NoDup (map Currency.code (currencies (st_db st1))) ->
  unknown_currency (st_db st1) (ExchangeRateData.source_currency q)
  \/ unknown_currency (st_db st1) (ExchangeRateData.exchanged_currency q) ->
  exists st',
    ExchangeRateService.get_exchange_rate reg src tgt d provider st
    = (Ok q, st')
    /\ st_db st' = st_db st
    /\ st_log st' = st_log st1 ++ [could_not_store]
    /\ st_calls st' = st_calls st1.
Proof.
  intros Hmiss Hfetch Hprov Hnd Hunk.
  assert (Hdb : st_db st1 = st_db st).
  { pose proof (orchestrator_db reg (upper src) (upper tgt) d provider
                  (after_miss src tgt st)) as H.
    rewrite Hfetch in H. exact H. }
  assert (Hstore : ExchangeRateService._store_rate q prow st1
                   = (Ok tt, add_log could_not_store st1)).
  { unfold ExchangeRateService._store_rate, try_except, bind.
    destruct (get_by_code_cases (st_db st1)
                (ExchangeRateData.source_currency q) Hnd)
      as [[Hs Hsno] | (s & Hs & Hsin & Hsc)]; rewrite Hs; [reflexivity|].
    destruct (get_by_code_cases (st_db st1)
                (ExchangeRateData.exchanged_currency q) Hnd)
      as [[Ht Htno] | (t & Ht & Htin & Htc)]; rewrite Ht; [reflexivity|].
    destruct Hunk as [Hno | Hno];
      [destruct (Hno s Hsin Hsc) | destruct (Hno t Htin Htc)]. }
  exists (add_log could_not_store st1).
  split; [|split; [exact Hdb|split; reflexivity]].
  unfold ExchangeRateService.get_exchange_rate, bind. rewrite Hmiss.
  unfold logger, modify. fold (after_miss src tgt st). rewrite Hfetch.
  fold (provider_to_store provider q). rewrite Hprov, Hstore. reflexivity.
Qed.

Lemma unknown_currency_is_logged_not_raised_witness :
  exists q st',
    ExchangeRateService.get_exchange_rate Scenario.fallback_registry
      "usd" "eur" Scenario.day None (Scenario.state_of Scenario.no_euro_db)
    = (Ok q, st')
    /\ ExchangeRateData.rate_value q = Scenario.r0_9123
    /\ st_db st' = Scenario.no_euro_db
    /\ exists l, st_log st' = l ++ [could_not_store].
Proof.
  pose (run := ProviderManagerService.get_exchange_rate_data
                 Scenario.fallback_registry (upper "usd") (upper "eur")
                 Scenario.day None
                 (after_miss "usd" "eur" (Scenario.state_of Scenario.no_euro_db))).
  pose (q := ExchangeRateData.mk "USD" "EUR" Scenario.day Scenario.r0_9123
               (Some "p2"%string)).
  destruct (unknown_currency_is_logged_not_raised
              Scenario.fallback_registry "usd" "eur" Scenario.day None
              (Scenario.state_of Scenario.no_euro_db) (snd run) q
              (Scenario.row 3 "p2" 2 true))
    as (st' & Hrun & Hdb & Hlog & _).
  - reflexivity.
  - vm_compute. reflexivity.
  - reflexivity.
  - simpl. solve_NoDup.
  - right. intros c [<- | []]. discriminate.
  - exists q, st'. split; [exact Hrun|]. split; [reflexivity|].
    split; [exact Hdb|]. eexists. exact Hlog.
Defined.
